(** * Full-update payload generation

    A shallow embedding of [payload_generator/full_update_generator.cc]:
    the [ChunkProcessor] worker (read one chunk, compress it) and
    [FullUpdateGenerator::Run], the loop that keeps a bounded queue of
    workers per partition, drains it from the front and records one
    install operation per chunk.

    Conventions.
    - [off_t] is the signed 64-bit integer and [size_t], [uint64_t] the
      unsigned one; values are carried in [Z] and every arithmetic result
      stored in such a variable goes through [to_off_t] or [to_size_t].
    - A [chromeos::Blob] is a [list byte].
    - What the file calls from elsewhere (the config's [Validate], [open],
      [utils::PReadAll], [BzipCompress], [g_thread_try_new], the outcome of
      a write) is gathered in the record [Sys], a parameter of the model.
    - A worker thread only fills the buffers of its own processor from a
      descriptor opened read-only, so its effect is a function of the
      processor; [Start] records the value [g_thread_join] will hand back
      and [Wait] consumes it.
    - [~ChunkProcessor] calls [Wait] once more and drops the result; it
      changes none of the outputs of [Run] and is left out.
    - The fields of the protobuf messages hold the values they are given;
      their widths come from a generated header.
    - [/] on [Z] stands for the integer division of C on operands that are
      not negative.  With a [block_size] of zero the divisions of lines
      180-181 have no result in C and the program stops there, whereas
      [Z] gives 0: every theorem about a run that can get as far as these
      lines assumes [0 < block_size config].
    - [double] arithmetic is IEEE binary64 as specified by [SpecFloat]. *)

From Stdlib Require Import String Ascii.
From Stdlib.Strings Require Import Byte.
From Stdlib Require Import ZArith List Bool Lia.
From Stdlib Require DecimalString.
From Stdlib Require Import PeanoNat.
From Stdlib Require Import SpecFloat.
Import ListNotations.
Local Open Scope Z_scope.

(** ** Machine integers *)

Definition off_t_max : Z := 2 ^ 63 - 1.
Definition INT_MIN : Z := - 2 ^ 31.
Definition INT_MAX : Z := 2 ^ 31 - 1.

(** Conversion to a signed 64-bit [off_t] (two's complement). *)
Definition to_off_t (z : Z) : Z := (z + 2 ^ 63) mod 2 ^ 64 - 2 ^ 63.

(** Conversion to an unsigned 64-bit [size_t] / [uint64_t]. *)
Definition to_size_t (z : Z) : Z := z mod 2 ^ 64.

(** ** Binary64 arithmetic used by the progress computation *)

Definition double_of_uint64 (z : Z) : spec_float :=
  binary_normalize 53 1024 z 0 false.

Definition double_mul : spec_float -> spec_float -> spec_float := SFmul 53 1024.
Definition double_div : spec_float -> spec_float -> spec_float := SFdiv 53 1024.

(** The literal [100.0]. *)
Definition double_100 : spec_float := double_of_uint64 100.

(** [static_cast<int>] of a double: truncation toward zero.  Outside the
    range of [int] (and for NaN and infinities) the conversion is undefined;
    the x86 value [INT_MIN] stands for it. *)
Definition double_to_int (x : spec_float) : Z :=
  match x with
  | S754_zero _ => 0
  | S754_finite s m e =>
      let a := if 0 <=? e then Zpos m * 2 ^ e else Zpos m / 2 ^ (- e) in
      let v := if s then - a else a in
      if (INT_MIN <=? v) && (v <=? INT_MAX) then v else INT_MIN
  | _ => INT_MIN
  end.

(** ** Data model *)

Definition Blob := list byte.

Record ImageConfig := {
  rootfs_part : string;
  rootfs_size : Z;
  kernel_part : string;
  kernel_size : Z
}.

Record PayloadGenerationConfig := {
  target : ImageConfig;
  chunk_size : Z;
  block_size : Z
}.

Inductive InstallOperation_Type := REPLACE | REPLACE_BZ.

Record Extent := { start_block : Z; num_blocks : Z }.

(** A protobuf message: every scalar field is optional and unset in a
    freshly constructed message. *)
Record InstallOperation := {
  type : option InstallOperation_Type;
  data_offset : option Z;
  data_length : option Z;
  dst_extents : list Extent
}.

Definition InstallOperation_default : InstallOperation :=
  {| type := None; data_offset := None; data_length := None; dst_extents := [] |}.

Definition set_type (t : InstallOperation_Type) (o : InstallOperation) :=
  {| type := Some t; data_offset := data_offset o;
     data_length := data_length o; dst_extents := dst_extents o |}.

Definition set_data_offset (v : Z) (o : InstallOperation) :=
  {| type := type o; data_offset := Some v;
     data_length := data_length o; dst_extents := dst_extents o |}.

Definition set_data_length (v : Z) (o : InstallOperation) :=
  {| type := type o; data_offset := data_offset o;
     data_length := Some v; dst_extents := dst_extents o |}.

Definition add_dst_extents (e : Extent) (o : InstallOperation) :=
  {| type := type o; data_offset := data_offset o;
     data_length := data_length o; dst_extents := dst_extents o ++ [e] |}.

Record Vertex := { file_name : string; op : InstallOperation }.

Definition Vertex_default : Vertex :=
  {| file_name := EmptyString; op := InstallOperation_default |}.

Inductive LogLine :=
| LogMaxThreads (n : Z)
| LogCompressing (path : string)
| LogProgress (progress : Z) (output_size : Z).

(** Everything [Run] writes to: its four output parameters, the bytes
    written to the output descriptor [fd], and the INFO log. *)
Record Outputs := {
  data_file_size : Z;
  graph : list Vertex;
  kernel_ops : list InstallOperation;
  final_order : list Z;
  payload : Blob;
  log : list LogLine
}.

(** ** The environment *)

Record Sys := {
  (** [config.Validate()]. *)
  Validate : PayloadGenerationConfig -> bool;
  (** [sysconf(_SC_NPROCESSORS_ONLN)]. *)
  sysconf_nprocessors_onln : Z;
  (** [open(path, O_RDONLY, 0)]: a descriptor, negative on failure. *)
  open_rdonly : string -> Z;
  (** [utils::PReadAll fd buf count offset &bytes_read]: [None] when it
      returns false, otherwise the bytes read ([bytes_read] of them). *)
  PReadAll : Z -> nat -> Z -> option Blob;
  (** [BzipCompress in &out]: [None] when it returns false. *)
  BzipCompress : Blob -> option Blob;
  (** Whether [g_thread_try_new] gives a thread to the processor reading
      descriptor [fd] at [offset]. *)
  g_thread_try_new : Z -> Z -> bool;
  (** Outcome of writing a buffer after the bytes already written: [None]
      when every byte goes out, [Some k] when the write stops after [k]. *)
  write_fault : Blob -> Blob -> option nat
}.

(** Modelled from the spec: [utils::WriteAll] lives in utils.cc, which is
    not part of the sources at hand; [write_all(fd, bytes)] appends the
    bytes to the stream and fails on any short write. *)
Definition WriteAll (sys : Sys) (out : Blob) (buf : Blob) : bool * Blob :=
  match write_fault sys out buf with
  | None => (true, out ++ buf)
  | Some k => (false, out ++ firstn k buf)
  end.

(** ** ChunkProcessor *)

Record ChunkProcessor := {
  (** [GThread* thread_]: [None] is [nullptr]; [Some r] is a thread that
      [g_thread_join] will report as [this] when [r] and [nullptr] otherwise. *)
  thread_ : option bool;
  fd_ : Z;
  offset_ : Z;
  buffer_in_ : Blob;
  buffer_compressed_ : Blob
}.

Definition ChunkProcessor_new (fd : Z) (offset : Z) (size : nat) : ChunkProcessor :=
  {| thread_ := None; fd_ := fd; offset_ := offset;
     buffer_in_ := repeat x00 size; buffer_compressed_ := [] |}.

Definition set_thread (t : option bool) (p : ChunkProcessor) : ChunkProcessor :=
  {| thread_ := t; fd_ := fd_ p; offset_ := offset_ p;
     buffer_in_ := buffer_in_ p; buffer_compressed_ := buffer_compressed_ p |}.

Definition set_buffer_in (b : Blob) (p : ChunkProcessor) : ChunkProcessor :=
  {| thread_ := thread_ p; fd_ := fd_ p; offset_ := offset_ p;
     buffer_in_ := b; buffer_compressed_ := buffer_compressed_ p |}.

Definition set_buffer_compressed (b : Blob) (p : ChunkProcessor) : ChunkProcessor :=
  {| thread_ := thread_ p; fd_ := fd_ p; offset_ := offset_ p;
     buffer_in_ := buffer_in_ p; buffer_compressed_ := b |}.

(** Bytes read land at the start of the destination buffer. *)
Definition blob_store (data buf : Blob) : Blob := data ++ skipn (length data) buf.

Definition ReadAndCompress (sys : Sys) (p : ChunkProcessor) : bool * ChunkProcessor :=
  match PReadAll sys (fd_ p) (length (buffer_in_ p)) (offset_ p) with
  | None => (false, p)
  | Some data =>
      let p1 := set_buffer_in (blob_store data (buffer_in_ p)) p in
      if Nat.eqb (length data) (length (buffer_in_ p)) then
        match BzipCompress sys (buffer_in_ p1) with
        | None => (false, p1)
        | Some z => (true, set_buffer_compressed z p1)
        end
      else (false, p1)
  end.

Definition Start (sys : Sys) (p : ChunkProcessor) : bool * ChunkProcessor :=
  if g_thread_try_new sys (fd_ p) (offset_ p) then
    let (r, p') := ReadAndCompress sys p in
    (true, set_thread (Some r) p')
  else (false, set_thread None p).

Definition Wait (p : ChunkProcessor) : bool * ChunkProcessor :=
  match thread_ p with
  | None => (false, p)
  | Some result => (result, set_thread None p)
  end.

Definition ShouldCompress (p : ChunkProcessor) : bool :=
  Nat.ltb (length (buffer_compressed_ p)) (length (buffer_in_ p)).

(** ** FullUpdateGenerator::Run *)

(** The variables declared at the head of the per-partition block. *)
Record Locals := {
  threads : list ChunkProcessor;
  last_progress_update : Z;
  bytes_left : Z;
  counter : Z;
  offset : Z
}.

Definition Locals_init (part_size : Z) : Locals :=
  {| threads := []; last_progress_update := INT_MIN;
     bytes_left := to_off_t part_size; counter := 0; offset := 0 |}.

(** What can come out of a loop run with a bound on its iterations. *)
Inductive outcome (A : Type) :=
| Returned (ok : bool) (a : A)
| OutOfFuel
| Undefined.
Arguments Returned {A} ok a.
Arguments OutOfFuel {A}.
Arguments Undefined {A}.

Definition part_sizes (config : PayloadGenerationConfig) (partition : Z) : Z :=
  if partition =? 0 then rootfs_size (target config) else kernel_size (target config).

Definition paths (config : PayloadGenerationConfig) (partition : Z) : string :=
  if partition =? 0 then rootfs_part (target config) else kernel_part (target config).

Definition max_threads (sys : Sys) : Z :=
  to_size_t (Z.max (sysconf_nprocessors_onln sys) 4).

(** The inner [while]: start processors while the queue has room and bytes
    are left. *)
Fixpoint start_processors (sys : Sys) (fuel : nat) (config : PayloadGenerationConfig)
    (in_fd : Z) (l : Locals) : outcome Locals :=
  if (Z.of_nat (length (threads l)) <? max_threads sys) && (0 <? bytes_left l) then
    match fuel with
    | O => OutOfFuel
    | S fuel' =>
        let processor :=
          ChunkProcessor_new in_fd (offset l)
            (Z.to_nat (to_size_t (Z.min (bytes_left l) (chunk_size config)))) in
        let (started, processor') := Start sys processor in
        let queued := threads l ++ [processor'] in
        if started then
          start_processors sys fuel' config in_fd
            {| threads := queued;
               last_progress_update := last_progress_update l;
               bytes_left := to_off_t (bytes_left l - chunk_size config);
               counter := counter l;
               offset := to_off_t (offset l + chunk_size config) |}
        else
          Returned false
            {| threads := queued;
               last_progress_update := last_progress_update l;
               bytes_left := bytes_left l; counter := counter l; offset := offset l |}
    end
  else Returned true l.

(** [base::StringPrintf("<rootfs-operation-%" PRIi64 ">", n)]. *)
Definition rootfs_operation_name (n : Z) : string :=
  ("<rootfs-operation-" ++ DecimalString.NilZero.string_of_int (Z.to_int n) ++ ">")%string.

(** Apply [f] to the last element of a vector ([back()]). *)
Definition update_back {A : Type} (f : A -> A) (v : list A) : list A :=
  match rev v with
  | [] => []
  | x :: r => rev r ++ [f x]
  end.

Definition set_op (f : InstallOperation -> InstallOperation) (v : Vertex) : Vertex :=
  {| file_name := file_name v; op := f (op v) |}.

(** Writing through the pointer [op], which designates the operation of
    the last vertex for partition 0 and the last kernel operation otherwise. *)
Definition through_op (partition : Z) (f : InstallOperation -> InstallOperation)
    (o : Outputs) : Outputs :=
  if partition =? 0 then
    {| data_file_size := data_file_size o; graph := update_back (set_op f) (graph o);
       kernel_ops := kernel_ops o; final_order := final_order o;
       payload := payload o; log := log o |}
  else
    {| data_file_size := data_file_size o; graph := graph o;
       kernel_ops := update_back f (kernel_ops o); final_order := final_order o;
       payload := payload o; log := log o |}.

Definition set_file_name (name : string) (v : Vertex) : Vertex :=
  {| file_name := name; op := op v |}.

(** Lines 156-166: make room for the operation of the chunk. *)
Definition new_operation (partition : Z) (counter : Z) (o : Outputs) : Z * Outputs :=
  if partition =? 0 then
    let g := update_back (set_file_name (rootfs_operation_name counter))
               (graph o ++ [Vertex_default]) in
    (to_off_t (counter + 1),
     {| data_file_size := data_file_size o; graph := g;
        kernel_ops := kernel_ops o;
        final_order := final_order o ++ [to_size_t (Z.of_nat (length g) - 1)];
        payload := payload o; log := log o |})
  else
    (counter,
     {| data_file_size := data_file_size o; graph := graph o;
        kernel_ops := kernel_ops o ++ [InstallOperation_default];
        final_order := final_order o; payload := payload o; log := log o |}).

Definition use_buf (processor : ChunkProcessor) : Blob :=
  if ShouldCompress processor then buffer_compressed_ processor
  else buffer_in_ processor.

Definition set_payload (b : Blob) (o : Outputs) : Outputs :=
  {| data_file_size := data_file_size o; graph := graph o;
     kernel_ops := kernel_ops o; final_order := final_order o;
     payload := b; log := log o |}.

Definition set_data_file_size (v : Z) (o : Outputs) : Outputs :=
  {| data_file_size := v; graph := graph o;
     kernel_ops := kernel_ops o; final_order := final_order o;
     payload := payload o; log := log o |}.

Definition add_log (line : LogLine) (o : Outputs) : Outputs :=
  {| data_file_size := data_file_size o; graph := graph o;
     kernel_ops := kernel_ops o; final_order := final_order o;
     payload := payload o; log := log o ++ [line] |}.

(** Lines 183-185. *)
Definition progress_of (processor : ChunkProcessor) (part_size : Z) : Z :=
  double_to_int
    (double_div
       (double_mul
          (double_of_uint64
             (to_size_t (offset_ processor + Z.of_nat (length (buffer_in_ processor)))))
          double_100)
       (double_of_uint64 part_size)).

(** Lines 186-187. *)
Definition should_report (last_progress_update progress : Z) : bool :=
  (last_progress_update <? progress) &&
  ((last_progress_update + 10 <=? progress) || (progress =? 100)).

(** Lines 156-191: what the loop does with a processor whose [Wait]
    succeeded.  The result carries [counter] and [last_progress_update].
    The two divisions are those of lines 180-181 for [0 < block_size
    config]; the code has no result for a block size of zero. *)
Definition emit_operation (sys : Sys) (config : PayloadGenerationConfig)
    (partition : Z) (processor : ChunkProcessor) (counter last : Z) (o : Outputs)
    : bool * (Z * Z * Outputs) :=
  let (counter', o1) := new_operation partition counter o in
  let compress := ShouldCompress processor in
  let buf := use_buf processor in
  let o2 := through_op partition
              (set_type (if compress then REPLACE_BZ else REPLACE)) o1 in
  let o3 := through_op partition (set_data_offset (data_file_size o2)) o2 in
  let (written, out) := WriteAll sys (payload o3) buf in
  let o4 := set_payload out o3 in
  if written then
    let o5 := set_data_file_size
                (to_off_t (data_file_size o4 + Z.of_nat (length buf))) o4 in
    let o6 := through_op partition (set_data_length (Z.of_nat (length buf))) o5 in
    let o7 := through_op partition
                (add_dst_extents
                   {| start_block := offset_ processor / block_size config;
                      num_blocks := chunk_size config / block_size config |}) o6 in
    let progress := progress_of processor (part_sizes config partition) in
    if should_report last progress then
      (true, (counter', progress,
              add_log (LogProgress progress (data_file_size o7)) o7))
    else (true, (counter', last, o7))
  else (false, (counter', last, o4)).

Definition with_queue (q : list ChunkProcessor) (counter last : Z) (l : Locals) : Locals :=
  {| threads := q; last_progress_update := last;
     bytes_left := bytes_left l; counter := counter; offset := offset l |}.

(** The outer [while] of one partition. *)
Fixpoint partition_loop (sys : Sys) (fuel : nat) (config : PayloadGenerationConfig)
    (partition in_fd : Z) (l : Locals) (o : Outputs) : outcome (Locals * Outputs) :=
  if (0 <? bytes_left l) || negb (Nat.eqb (length (threads l)) 0) then
    match fuel with
    | O => OutOfFuel
    | S fuel' =>
        match start_processors sys fuel config in_fd l with
        | OutOfFuel => OutOfFuel
        | Undefined => Undefined
        | Returned false l1 => Returned false (l1, o)
        | Returned true l1 =>
            match threads l1 with
            | [] => Undefined
            | front :: rest =>
                let (waited, processor) := Wait front in
                if waited then
                  match emit_operation sys config partition processor
                          (counter l1) (last_progress_update l1) o with
                  | (true, (c, p, o')) =>
                      partition_loop sys fuel' config partition in_fd
                        (with_queue rest c p l1) o'
                  | (false, (c, p, o')) =>
                      Returned false (with_queue rest c p l1, o')
                  end
                else
                  Returned false
                    (with_queue rest (counter l1) (last_progress_update l1) l1, o)
            end
        end
    end
  else Returned true (l, o).

(** The body of the [for] loop over the two partitions. *)
Definition run_partition (sys : Sys) (fuel : nat) (config : PayloadGenerationConfig)
    (partition : Z) (o : Outputs) : outcome Outputs :=
  let path := paths config partition in
  let o1 := add_log (LogCompressing path) o in
  let in_fd := open_rdonly sys path in
  if 0 <=? in_fd then
    match partition_loop sys fuel config partition in_fd
            (Locals_init (part_sizes config partition)) o1 with
    | Returned ok (_, o2) => Returned ok o2
    | OutOfFuel => OutOfFuel
    | Undefined => Undefined
    end
  else Returned false o1.

Definition Run (sys : Sys) (fuel : nat) (config : PayloadGenerationConfig)
    (o : Outputs) : outcome Outputs :=
  if Validate sys config then
    if 0 <? chunk_size config then
      let o1 := add_log (LogMaxThreads (max_threads sys)) o in
      match run_partition sys fuel config 0 o1 with
      | Returned true o2 => run_partition sys fuel config 1 o2
      | r => r
      end
    else Returned false o
  else Returned false o.



(** ** The chunks of a partition, in the order of their offsets *)

Definition chunk_count (part_size chunk : Z) : nat :=
  Z.to_nat ((part_size + chunk - 1) / chunk).

(** The processor built for the [j]-th chunk: offset [j * chunk_size] and
    [min(bytes_left, chunk_size)] requested bytes. *)
Definition chunk_processor (config : PayloadGenerationConfig) (partition in_fd : Z)
    (j : nat) : ChunkProcessor :=
  ChunkProcessor_new in_fd (Z.of_nat j * chunk_size config)
    (Z.to_nat (Z.min (part_sizes config partition - Z.of_nat j * chunk_size config)
                     (chunk_size config))).

(** What the thread of the [j]-th chunk computes. *)
Definition worker (sys : Sys) (config : PayloadGenerationConfig) (partition in_fd : Z)
    (j : nat) : bool * ChunkProcessor :=
  ReadAndCompress sys (chunk_processor config partition in_fd j).

(** The [j]-th processor as it sits in the queue once started. *)
Definition queued (sys : Sys) (config : PayloadGenerationConfig) (partition in_fd : Z)
    (j : nat) : ChunkProcessor :=
  set_thread (Some (fst (worker sys config partition in_fd j)))
             (snd (worker sys config partition in_fd j)).

(** The loop state when the chunks below [e] have been emitted and
    those below [s] started. *)
Record loop_inv (sys : Sys) (config : PayloadGenerationConfig) (partition in_fd : Z)
    (e s : nat) (l : Locals) : Prop := {
  inv_order : (e <= s)%nat;
  inv_threads : threads l = map (queued sys config partition in_fd) (seq e (s - e));
  inv_offset : offset l = Z.of_nat s * chunk_size config;
  inv_bytes_left :
    bytes_left l = part_sizes config partition - Z.of_nat s * chunk_size config;
  inv_bound :
    Z.of_nat s * chunk_size config < part_sizes config partition + chunk_size config
}.

(** The state threaded through the emissions of one partition:
    [counter], [last_progress_update] and the outputs. *)
Definition emit_state : Type := Z * Z * Outputs.

Definition emit_chunk (sys : Sys) (config : PayloadGenerationConfig)
    (partition in_fd : Z) (j : nat) (st : emit_state) : bool * emit_state :=
  let '(c, last, o) := st in
  emit_operation sys config partition (snd (worker sys config partition in_fd j)) c last o.

(** Emission of the chunks [j], [j+1], ... [j+n-1] one after the other. *)
Fixpoint emit_range (sys : Sys) (config : PayloadGenerationConfig)
    (partition in_fd : Z) (j n : nat) (st : emit_state) : emit_state :=
  match n with
  | O => st
  | S n' =>
      emit_range sys config partition in_fd (S j) n'
        (snd (emit_chunk sys config partition in_fd j st))
  end.

(** Every one of these chunks was read and compressed, and written out. *)
Fixpoint emits_ok (sys : Sys) (config : PayloadGenerationConfig)
    (partition in_fd : Z) (j n : nat) (st : emit_state) : bool :=
  match n with
  | O => true
  | S n' =>
      fst (worker sys config partition in_fd j) &&
      fst (emit_chunk sys config partition in_fd j st) &&
      emits_ok sys config partition in_fd (S j) n'
        (snd (emit_chunk sys config partition in_fd j st))
  end.

(** The sizes for which the 64-bit arithmetic of [Run] does not wrap. *)
Definition sizes_fit (config : PayloadGenerationConfig) (partition : Z) : Prop :=
  0 < chunk_size config /\
  0 <= part_sizes config partition /\
  part_sizes config partition + chunk_size config <= off_t_max.

(** ** The records of a partition, as the specification words them *)

(** Section 4.3, step 3: the operation of a completed chunk written at
    [dfs], the value of [data_file_size] before the write. *)
Definition operation_of (config : PayloadGenerationConfig) (p : ChunkProcessor)
    (dfs : Z) : InstallOperation :=
  {| type := Some (if ShouldCompress p then REPLACE_BZ else REPLACE);
     data_offset := Some dfs;
     data_length := Some (Z.of_nat (length (use_buf p)));
     dst_extents := [ {| start_block := offset_ p / block_size config;
                         num_blocks := chunk_size config / block_size config |} ] |}.

(** The record left behind by a chunk whose write failed. *)
Definition pending_operation (p : ChunkProcessor) (dfs : Z) : InstallOperation :=
  {| type := Some (if ShouldCompress p then REPLACE_BZ else REPLACE);
     data_offset := Some dfs;
     data_length := None;
     dst_extents := [] |}.

(** The operations of completed chunks written one after the other from [dfs]. *)
Fixpoint operations_of (config : PayloadGenerationConfig) (dfs : Z)
    (ps : list ChunkProcessor) : list InstallOperation :=
  match ps with
  | [] => []
  | p :: r =>
      operation_of config p dfs ::
      operations_of config (dfs + Z.of_nat (length (use_buf p))) r
  end.

Fixpoint total_length (ps : list ChunkProcessor) : Z :=
  match ps with
  | [] => 0
  | p :: r => Z.of_nat (length (use_buf p)) + total_length r
  end.

(** The vertices wrapping operations, labelled from [n] on. *)
Fixpoint vertices_of (n : Z) (ops : list InstallOperation) : list Vertex :=
  match ops with
  | [] => []
  | x :: r => {| file_name := rootfs_operation_name n; op := x |} :: vertices_of (n + 1) r
  end.

(** The processors of the first [n] chunks after their threads ran. *)
Definition workers (sys : Sys) (config : PayloadGenerationConfig) (partition in_fd : Z)
    (j n : nat) : list ChunkProcessor :=
  map (fun i => snd (worker sys config partition in_fd i)) (seq j n).

(** [o'] is [o] with the records [records] added for [partition] (vertices
    labelled from [cnt] on for the root filesystem), [bytes] appended to
    the payload and [size] added to [data_file_size]. *)
Record extended (partition cnt : Z) (o : Outputs) (records : list InstallOperation)
    (bytes : Blob) (size : Z) (o' : Outputs) : Prop := {
  ext_graph :
    graph o' = graph o ++ (if partition =? 0 then vertices_of cnt records else []);
  ext_kernel_ops :
    kernel_ops o' = kernel_ops o ++ (if partition =? 0 then [] else records);
  ext_final_order :
    final_order o' =
    final_order o ++
    (if partition =? 0
     then map Z.of_nat (seq (length (graph o)) (length records)) else []);
  ext_data_file_size : data_file_size o' = data_file_size o + size;
  ext_payload : payload o' = payload o ++ bytes
}.

(** What one pass over a partition leaves: the operations of its first
    [n] chunks, whose workers all succeeded, then possibly the record
    [pend] of the chunk whose write failed after [rest] went out. *)
Record partition_pass (sys : Sys) (config : PayloadGenerationConfig) (partition : Z)
    (ok : bool) (o o' : Outputs) (n : nat) (pend : list InstallOperation)
    (rest : Blob) : Prop := {
  pass_workers :
    forall i, (i < n)%nat ->
      fst (worker sys config partition (open_rdonly sys (paths config partition)) i) = true;
  pass_count :
    Z.of_nat n * chunk_size config < part_sizes config partition + chunk_size config;
  pass_outputs :
    let ws := workers sys config partition (open_rdonly sys (paths config partition)) 0 n in
    extended partition 0 o (operations_of config (data_file_size o) ws ++ pend)
      (concat (map use_buf ws) ++ rest) (total_length ws) o';
  pass_total :
    let ws := workers sys config partition (open_rdonly sys (paths config partition)) 0 n in
    0 <= total_length ws <= Z.of_nat n * chunk_size config;
  pass_complete :
    ok = true ->
    part_sizes config partition <= Z.of_nat n * chunk_size config /\
    pend = [] /\ rest = [];
  pass_pending :
    let w := worker sys config partition (open_rdonly sys (paths config partition)) n in
    let ws := workers sys config partition (open_rdonly sys (paths config partition)) 0 n in
    (pend = [] /\ rest = []) \/
    (ok = false /\
     Z.of_nat n * chunk_size config < part_sizes config partition /\
     fst w = true /\
     pend = [pending_operation (snd w) (data_file_size o + total_length ws)] /\
     exists k, rest = firstn k (use_buf (snd w)) /\
       write_fault sys (payload o ++ concat (map use_buf ws)) (use_buf (snd w)) = Some k)
}.

(** The initial outputs with which the arithmetic of a run does not wrap. *)
Definition run_fits (config : PayloadGenerationConfig) (o : Outputs) : Prop :=
  0 < chunk_size config /\
  0 <= rootfs_size (target config) /\
  0 <= kernel_size (target config) /\
  0 <= data_file_size o /\
  data_file_size o + (rootfs_size (target config) + chunk_size config)
    + (kernel_size (target config) + chunk_size config) <= off_t_max /\
  Z.of_nat (length (graph o)) <= off_t_max.

(** ** Progress reporting, as the specification words it (section 4.4) *)

Definition reported_progress (bytes_done part_size : Z) : Z :=
  100 * bytes_done / part_size.

Definition reports (last_reported progress : Z) : bool :=
  (last_reported + 10 <=? progress) || (progress =? 100).

(** The progress lines of the completed chunks [ws] of a partition, the
    last reported value being [last_reported] and the payload [dfs] bytes
    long before the first of them. *)
Fixpoint progress_report (part_size last_reported dfs : Z) (ws : list ChunkProcessor)
    : list LogLine :=
  match ws with
  | [] => []
  | w :: r =>
      let progress :=
        reported_progress (offset_ w + Z.of_nat (length (buffer_in_ w))) part_size in
      let dfs' := dfs + Z.of_nat (length (use_buf w)) in
      if reports last_reported progress
      then LogProgress progress dfs' :: progress_report part_size progress dfs' r
      else progress_report part_size last_reported dfs' r
  end.

Definition is_progress (line : LogLine) : bool :=
  match line with
  | LogProgress _ _ => true
  | _ => false
  end.

Definition progress_lines (lines : list LogLine) : list LogLine :=
  filter is_progress lines.

(** An operation with its data length set: the record of a chunk whose
    write went through. *)
Definition is_completed (x : InstallOperation) : bool :=
  match data_length x with
  | Some _ => true
  | None => false
  end.

(** The operations a run added for each partition. *)
Definition rootfs_operations (o o' : Outputs) : list InstallOperation :=
  map op (skipn (length (graph o)) (graph o')).

Definition kernel_operations (o o' : Outputs) : list InstallOperation :=
  skipn (length (kernel_ops o)) (kernel_ops o').

(** The descriptor [Run] reads a partition through. *)
Definition in_fd_of (sys : Sys) (config : PayloadGenerationConfig) (partition : Z) : Z :=
  open_rdonly sys (paths config partition).

(** The record of outputs of a run that went through the first [n0]
    chunks of the root filesystem and the first [n1] of the kernel. *)
Record run_records (sys : Sys) (config : PayloadGenerationConfig) (ok : bool)
    (o o' : Outputs) (n0 n1 : nat) (pend0 pend1 : list InstallOperation) : Prop := {
  rec_rootfs :
    rootfs_operations o o' =
    operations_of config (data_file_size o)
      (workers sys config 0 (in_fd_of sys config 0) 0 n0) ++ pend0;
  rec_kernel :
    kernel_operations o o' =
    operations_of config
      (data_file_size o + total_length (workers sys config 0 (in_fd_of sys config 0) 0 n0))
      (workers sys config 1 (in_fd_of sys config 1) 0 n1) ++ pend1;
  rec_graph :
    graph o' =
    graph o ++
    vertices_of 0
      (operations_of config (data_file_size o)
         (workers sys config 0 (in_fd_of sys config 0) 0 n0) ++ pend0);
  rec_final_order :
    final_order o' =
    final_order o ++ map Z.of_nat (seq (length (graph o)) (n0 + length pend0));
  rec_data_file_size :
    data_file_size o' =
    data_file_size o
    + total_length (workers sys config 0 (in_fd_of sys config 0) 0 n0)
    + total_length (workers sys config 1 (in_fd_of sys config 1) 0 n1);
  rec_workers0 :
    forall i, (i < n0)%nat -> fst (worker sys config 0 (in_fd_of sys config 0) i) = true;
  rec_workers1 :
    forall i, (i < n1)%nat -> fst (worker sys config 1 (in_fd_of sys config 1) i) = true;
  rec_count0 : Z.of_nat n0 * chunk_size config < rootfs_size (target config) + chunk_size config;
  rec_count1 : Z.of_nat n1 * chunk_size config < kernel_size (target config) + chunk_size config;
  rec_complete :
    ok = true ->
    rootfs_size (target config) <= Z.of_nat n0 * chunk_size config /\
    kernel_size (target config) <= Z.of_nat n1 * chunk_size config /\
    pend0 = [] /\ pend1 = [];
  rec_payload :
    exists rest,
      payload o' =
      payload o ++
      concat (map use_buf (workers sys config 0 (in_fd_of sys config 0) 0 n0 ++
                           workers sys config 1 (in_fd_of sys config 1) 0 n1)) ++ rest /\
      (ok = true -> rest = []);
  rec_progress :
    rootfs_size (target config) < 2 ^ 46 -> kernel_size (target config) < 2 ^ 46 ->
    progress_lines (log o') =
    progress_lines (log o) ++
    progress_report (rootfs_size (target config)) INT_MIN (data_file_size o)
      (workers sys config 0 (in_fd_of sys config 0) 0 n0) ++
    progress_report (kernel_size (target config)) INT_MIN
      (data_file_size o + total_length (workers sys config 0 (in_fd_of sys config 0) 0 n0))
      (workers sys config 1 (in_fd_of sys config 1) 0 n1);
  rec_pending0 :
    pend0 = [] \/
    (ok = false /\ n1 = 0%nat /\ pend1 = [] /\
     Z.of_nat n0 * chunk_size config < rootfs_size (target config) /\
     fst (worker sys config 0 (in_fd_of sys config 0) n0) = true /\
     pend0 = [pending_operation (snd (worker sys config 0 (in_fd_of sys config 0) n0))
                (data_file_size o')]);
  rec_pending1 :
    pend1 = [] \/
    (ok = false /\
     Z.of_nat n1 * chunk_size config < kernel_size (target config) /\
     fst (worker sys config 1 (in_fd_of sys config 1) n1) = true /\
     pend1 = [pending_operation (snd (worker sys config 1 (in_fd_of sys config 1) n1))
                (data_file_size o')])
}.

(** [BzipCompress] never turns bytes into nothing: a bzip2 stream starts
    with a header. *)
Definition compress_nonempty (sys : Sys) : Prop :=
  forall b z, BzipCompress sys b = Some z -> b <> [] -> z <> [].

(** The buffer the specification calls chosen, in its own words: the
    compressed buffer when it is strictly smaller than the raw one, the
    raw buffer otherwise. *)
Definition chosen_buffer (raw compressed : Blob) : Blob :=
  if (length compressed <? length raw)%nat then compressed else raw.

Definition chosen (w : ChunkProcessor) : Blob :=
  chosen_buffer (buffer_in_ w) (buffer_compressed_ w).

(** The operation [x] is the one of the completed processor [w], whose
    compressed buffer is the compression of its raw buffer: it is of the
    compressed kind exactly when the compressed buffer is strictly
    smaller, its [data_length] is then the length of the compressed
    buffer, and the length of the raw buffer otherwise: the length of the
    chosen buffer. *)
Definition records_choice (sys : Sys) (x : InstallOperation) (w : ChunkProcessor) : Prop :=
  BzipCompress sys (buffer_in_ w) = Some (buffer_compressed_ w) /\
  (type x = Some REPLACE_BZ <->
   (length (buffer_compressed_ w) < length (buffer_in_ w))%nat) /\
  (type x = Some REPLACE <->
   (length (buffer_in_ w) <= length (buffer_compressed_ w))%nat) /\
  (type x = Some REPLACE_BZ ->
   data_length x = Some (Z.of_nat (length (buffer_compressed_ w)))) /\
  (type x = Some REPLACE ->
   data_length x = Some (Z.of_nat (length (buffer_in_ w)))) /\
  data_length x = Some (Z.of_nat (length (chosen w))).

(** A binary64 number with a full mantissa whose value is the integer [v]. *)
Definition canon53 (f : spec_float) (v : Z) : Prop :=
  exists m e, f = S754_finite false m e /\
    2 ^ 52 <= Zpos m < 2 ^ 53 /\ -52 <= e <= 0 /\ Zpos m = v * 2 ^ (- e).

(** ** What a run needs from its environment *)

(** [g_thread_try_new] gives a thread to the processor of chunk [j]. *)
Definition thread_granted (sys : Sys) (config : PayloadGenerationConfig)
    (partition : Z) (j : nat) : bool :=
  g_thread_try_new sys (in_fd_of sys config partition) (Z.of_nat j * chunk_size config).

(** The bytes on the output descriptor once the first [j] chunks of
    [partition] have been written after [out]. *)
Definition written_before (sys : Sys) (config : PayloadGenerationConfig)
    (partition : Z) (out : Blob) (j : nat) : Blob :=
  out ++ concat (map use_buf
                   (workers sys config partition (in_fd_of sys config partition) 0 j)).

(** Chunk [j] gets a thread, is read in full and compressed, and its
    buffer is written out whole. *)
Definition chunk_succeeds (sys : Sys) (config : PayloadGenerationConfig)
    (partition : Z) (out : Blob) (j : nat) : bool :=
  thread_granted sys config partition j &&
  fst (worker sys config partition (in_fd_of sys config partition) j) &&
  match write_fault sys (written_before sys config partition out j)
          (use_buf (snd (worker sys config partition (in_fd_of sys config partition) j))) with
  | None => true
  | Some _ => false
  end.

Definition partition_succeeds (sys : Sys) (config : PayloadGenerationConfig)
    (partition : Z) (out : Blob) : bool :=
  (0 <=? in_fd_of sys config partition) &&
  forallb (chunk_succeeds sys config partition out)
    (seq 0 (chunk_count (part_sizes config partition) (chunk_size config))).

Definition run_succeeds (sys : Sys) (config : PayloadGenerationConfig) (out : Blob) : bool :=
  Validate sys config && (0 <? chunk_size config) &&
  partition_succeeds sys config 0 out &&
  partition_succeeds sys config 1
    (written_before sys config 0 out
       (chunk_count (rootfs_size (target config)) (chunk_size config))).

(** ** The progress lines of a partition *)

(** The lines are progress lines, each passing the test of lines 186-187
    against the one before it, the first against [last]. *)
Fixpoint paced (last : Z) (lines : list LogLine) : bool :=
  match lines with
  | [] => true
  | LogProgress progress _ :: rest => should_report last progress && paced progress rest
  | _ => false
  end.

(** ** The files behind the descriptors *)

(** The file read through [fd] holds [image]: [utils::PReadAll] brings the
    bytes of the image from [off] on, as many as asked for or as are left. *)
Definition file_content (sys : Sys) (fd : Z) (image : Blob) : Prop :=
  forall (count : nat) (off : Z), 0 <= off ->
    PReadAll sys fd count off = Some (firstn count (skipn (Z.to_nat off) image)).

(** The bytes of chunk [i] of a partition stored in [image]. *)
Definition image_chunk (config : PayloadGenerationConfig) (partition : Z) (image : Blob)
    (i : nat) : Blob :=
  firstn (Z.to_nat (Z.min (part_sizes config partition - Z.of_nat i * chunk_size config)
                          (chunk_size config)))
    (skipn (Z.to_nat (Z.of_nat i * chunk_size config)) image).

(** The [len] bytes at offset [off] of the payload file. *)
Definition blob_at (out : Blob) (off len : Z) : Blob :=
  firstn (Z.to_nat len) (skipn (Z.to_nat off) out).

(** ** Concrete scenarios *)

Module Scenario.

(** A 60-byte root filesystem whose first ten bytes are equal, and a
    25-byte kernel. *)
Definition rootfs_image : Blob :=
  repeat x61 10 ++
  map (fun n => match Byte.of_nat n with Some b => b | None => x00 end) (seq 100 50).

Definition kernel_image : Blob :=
  map (fun n => match Byte.of_nat n with Some b => b | None => x00 end) (seq 30 25).

Definition image_of (content_rootfs content_kernel : Blob) (fd : Z) : Blob :=
  if fd =? 3 then content_rootfs else if fd =? 4 then content_kernel else [].

Definition open_images (path : string) : Z :=
  if String.eqb path "rootfs.img" then 3
  else if String.eqb path "kernel.img" then 4 else -1.

(** A toy compressor: a run of one repeated byte packs into four bytes,
    anything else grows by a two-byte header. *)
Definition pack (b : Blob) : option Blob :=
  match b with
  | [] => Some []
  | x :: r =>
      if forallb (Byte.eqb x) r then Some [x42; x5a; x; x00]
      else Some (x42 :: x5a :: b)
  end.

Definition sys_of (content_rootfs content_kernel : Blob)
    (fault : Blob -> Blob -> option nat) : Sys :=
  {| Validate := fun c => (0 <? block_size c) && (chunk_size c mod block_size c =? 0);
     sysconf_nprocessors_onln := 2;
     open_rdonly := open_images;
     PReadAll := fun fd count off =>
       Some (firstn count (skipn (Z.to_nat off) (image_of content_rootfs content_kernel fd)));
     BzipCompress := pack;
     g_thread_try_new := fun _ _ => true;
     write_fault := fault |}.

Definition no_fault (out buf : Blob) : option nat := None.

(** The output descriptor accepts 24 bytes and then fails. *)
Definition full_after_24 (out buf : Blob) : option nat :=
  if Nat.leb (length out + length buf) 24 then None else Some (24 - length out)%nat.

(** The output descriptor takes nothing at all. *)
Definition closed (out buf : Blob) : option nat := Some 0%nat.

Definition sys : Sys := sys_of rootfs_image kernel_image no_fault.
Definition sys_closed : Sys := sys_of rootfs_image kernel_image closed.
Definition sys_disk_full : Sys := sys_of rootfs_image kernel_image full_after_24.
(** The root filesystem image is 15 bytes shorter than declared. *)
Definition sys_truncated : Sys := sys_of (firstn 45 rootfs_image) kernel_image no_fault.

Definition config : PayloadGenerationConfig :=
  {| target := {| rootfs_part := "rootfs.img"; rootfs_size := 60;
                  kernel_part := "kernel.img"; kernel_size := 25 |};
     chunk_size := 10; block_size := 5 |}.

Definition empty : Outputs :=
  {| data_file_size := 0; graph := []; kernel_ops := []; final_order := [];
     payload := []; log := [] |}.

(** The scenario of the specification: 40 bytes that do not compress,
    chunks of 10, blocks of 10, and no kernel. *)
Definition config_40 : PayloadGenerationConfig :=
  {| target := {| rootfs_part := "rootfs.img"; rootfs_size := 40;
                  kernel_part := "kernel.img"; kernel_size := 0 |};
     chunk_size := 10; block_size := 10 |}.

Definition sys_40 : Sys := sys_of (skipn 10 rootfs_image) [] no_fault.

Definition outputs_of (r : outcome Outputs) : Outputs :=
  match r with
  | Returned _ o => o
  | _ => empty
  end.

(** What the run leaves with a sound image, with the descriptor that
    fills up, and with the truncated image. *)
Definition final : Outputs := Eval vm_compute in outputs_of (Run sys 6 config empty).
Definition final_disk_full : Outputs :=
  Eval vm_compute in outputs_of (Run sys_disk_full 6 config empty).
Definition final_truncated : Outputs :=
  Eval vm_compute in outputs_of (Run sys_truncated 6 config empty).

(** The locals of the root-filesystem pass after the first fill of the
    queue, and the processor then at its front. *)
Definition filled : Locals :=
  Eval vm_compute in
    match start_processors sys_closed 6 config 3 (Locals_init 60) with
    | Returned _ l => l
    | _ => Locals_init 60
    end.

Definition front : ChunkProcessor :=
  Eval vm_compute in hd (ChunkProcessor_new 3 0 0) (threads filled).

(** As [sys], but threads run out: the chunks of the root
    filesystem from offset 50 on get none. *)
Definition sys_threads_run_out : Sys :=
  {| Validate := Validate sys;
     sysconf_nprocessors_onln := 2;
     open_rdonly := open_images;
     PReadAll := PReadAll sys;
     BzipCompress := pack;
     g_thread_try_new := fun fd off => negb ((fd =? 3) && (50 <=? off));
     write_fault := no_fault |}.

(** A root filesystem without bytes and a kernel whose declared size,
    2^63, does not fit in [off_t]. *)
Definition config_void : PayloadGenerationConfig :=
  {| target := {| rootfs_part := "rootfs.img"; rootfs_size := 0;
                  kernel_part := "kernel.img"; kernel_size := 2 ^ 63 |};
     chunk_size := 10; block_size := 5 |}.

(** The configuration of [config] with a kernel file that is
    not there. *)
Definition config_no_kernel : PayloadGenerationConfig :=
  {| target := {| rootfs_part := "rootfs.img"; rootfs_size := 60;
                  kernel_part := "missing.img"; kernel_size := 25 |};
     chunk_size := 10; block_size := 5 |}.

(** A compressor that gives up on buffers that start with the byte [x]:
    the fourth chunk of the root filesystem is one. *)
Definition pack_but_x (b : Blob) : option Blob :=
  match b with
  | x78 :: _ => None
  | _ => pack b
  end.

Definition sys_cannot_compress : Sys :=
  {| Validate := Validate sys;
     sysconf_nprocessors_onln := 2;
     open_rdonly := open_images;
     PReadAll := PReadAll sys;
     BzipCompress := pack_but_x;
     g_thread_try_new := fun _ _ => true;
     write_fault := no_fault |}.

End Scenario.

(** * Proofs *)

(** ** Machine arithmetic *)

Lemma to_off_t_id (z : Z) : - 2 ^ 63 <= z <= off_t_max -> to_off_t z = z.
Proof.
  unfold to_off_t, off_t_max. intros H.
  rewrite Z.mod_small by lia. lia.
Qed.

Lemma to_size_t_id (z : Z) : 0 <= z < 2 ^ 64 -> to_size_t z = z.
Proof. unfold to_size_t. intros H. now apply Z.mod_small. Qed.

Lemma max_threads_ge_4 (sys : Sys) :
  sysconf_nprocessors_onln sys < 2 ^ 64 -> 4 <= max_threads sys.
Proof.
  intros H. unfold max_threads. rewrite to_size_t_id; lia.
Qed.

(** ** Binary64: the progress percentage *)

Lemma digits2_pos_log2 (p : positive) : Zpos (digits2_pos p) = Z.log2 (Zpos p) + 1.
Proof.
  induction p as [p IH|p IH|]; cbn [digits2_pos].
  - rewrite Pos2Z.inj_succ, IH.
    change (Z.pos p~1) with (2 * Z.pos p + 1).
    rewrite Z.log2_succ_double by lia. lia.
  - rewrite Pos2Z.inj_succ, IH.
    change (Z.pos p~0) with (2 * Z.pos p).
    rewrite Z.log2_double by lia. lia.
  - reflexivity.
Qed.

Lemma digits2_pos_bounds (p : positive) :
  2 ^ (Zpos (digits2_pos p) - 1) <= Zpos p < 2 ^ (Zpos (digits2_pos p)).
Proof.
  rewrite digits2_pos_log2.
  pose proof (Z.log2_spec (Zpos p) ltac:(lia)) as H.
  replace (Z.log2 (Z.pos p) + 1 - 1) with (Z.log2 (Z.pos p)) by lia.
  replace (Z.log2 (Z.pos p) + 1) with (Z.succ (Z.log2 (Z.pos p))) by lia.
  exact H.
Qed.

Lemma digits2_pos_unique (p : positive) (d : Z) :
  2 ^ (d - 1) <= Zpos p < 2 ^ d -> Zpos (digits2_pos p) = d.
Proof.
  intros H. rewrite digits2_pos_log2.
  assert (0 < d).
  { destruct (Z.lt_ge_cases 0 d); [assumption|].
    assert (2 ^ d <= 2 ^ 0) by (apply Z.pow_le_mono_r; lia). simpl in *. lia. }
  assert (Z.log2 (Zpos p) = d - 1); [|lia].
  apply Z.log2_unique; [lia|]. replace (Z.succ (d - 1)) with d by lia. exact H.
Qed.

Lemma iter_pos_nat {A : Type} (f : A -> A) (p : positive) (x : A) :
  iter_pos f p x = Nat.iter (Pos.to_nat p) f x.
Proof.
  revert x. induction p as [p IH|p IH|]; intros x; cbn [iter_pos].
  - rewrite !IH, Pos2Nat.inj_xI. cbn [Nat.iter].
    rewrite <- Nat.iter_succ_r. rewrite <- Nat.iter_add. f_equal. lia.
  - rewrite !IH, Pos2Nat.inj_xO. rewrite <- Nat.iter_add. f_equal. lia.
  - reflexivity.
Qed.

Lemma shr_1_m (x : shr_record) :
  0 <= shr_m x -> shr_m (shr_1 x) = shr_m x / 2.
Proof.
  destruct x as [m r s]. cbn [shr_m]. intros Hm.
  rewrite <- Z.div2_div.
  destruct m as [|[p|p|]|p]; try reflexivity; lia.
Qed.

Lemma shr_1_nonneg (x : shr_record) : 0 <= shr_m x -> 0 <= shr_m (shr_1 x).
Proof. intros H. rewrite shr_1_m by assumption. apply Z.div_pos; lia. Qed.

Lemma shr_iter_m (n : nat) (x : shr_record) :
  0 <= shr_m x ->
  0 <= shr_m (Nat.iter n shr_1 x) /\
  shr_m (Nat.iter n shr_1 x) = shr_m x / 2 ^ Z.of_nat n.
Proof.
  intros Hx. induction n as [|n [IH0 IH]].
  - cbn. split; [assumption|]. now rewrite Z.div_1_r.
  - rewrite Nat.iter_succ. split; [now apply shr_1_nonneg|].
    rewrite shr_1_m by assumption. rewrite IH.
    rewrite Nat2Z.inj_succ, Z.pow_succ_r by lia.
    rewrite Z.div_div by lia. f_equal. lia.
Qed.

Lemma shr_1_exact (m : Z) :
  0 <= m -> m mod 2 = 0 ->
  shr_1 {| shr_m := m; shr_r := false; shr_s := false |}
  = {| shr_m := m / 2; shr_r := false; shr_s := false |}.
Proof.
  intros Hm Hmod. rewrite <- Z.div2_div.
  destruct m as [|[p|p|]|p]; try reflexivity; try lia.
  - exfalso. change (Z.pos p~1) with (2 * Z.pos p + 1) in Hmod.
    rewrite Z.add_comm, Z.mul_comm, Z.mod_add in Hmod by lia. discriminate.
  - discriminate.
Qed.

Lemma shr_iter_exact (n : nat) (m : Z) :
  0 <= m -> m mod 2 ^ Z.of_nat n = 0 ->
  Nat.iter n shr_1 {| shr_m := m; shr_r := false; shr_s := false |}
  = {| shr_m := m / 2 ^ Z.of_nat n; shr_r := false; shr_s := false |}.
Proof.
  intros Hm. induction n as [|n IH]; intros Hmod.
  - cbn. now rewrite Z.div_1_r.
  - rewrite Nat.iter_succ.
    rewrite Nat2Z.inj_succ, Z.pow_succ_r in Hmod |- * by lia.
    assert (Hp : 0 < 2 ^ Z.of_nat n) by (apply Z.pow_pos_nonneg; lia).
    apply Z.mod_divide in Hmod; [|lia]. destruct Hmod as [k Hk].
    rewrite IH.
    + rewrite shr_1_exact.
      * rewrite Z.div_div by lia. do 2 f_equal. lia.
      * apply Z.div_pos; lia.
      * subst m. replace (k * (2 * 2 ^ Z.of_nat n)) with (2 * k * 2 ^ Z.of_nat n) by lia.
        rewrite Z.div_mul by lia. rewrite Z.mul_comm. apply Z.mod_mul. lia.
    + subst m. replace (k * (2 * 2 ^ Z.of_nat n)) with (2 * k * 2 ^ Z.of_nat n) by lia.
      apply Z.mod_mul. lia.
Qed.

Lemma round_nearest_even_cases (m : Z) (l : location) :
  round_nearest_even m l = m \/ round_nearest_even m l = m + 1.
Proof.
  destruct l as [|[| |]]; cbn; auto. destruct (Z.even m); auto.
Qed.

Lemma shr_shift (x : shr_record) (e n : Z) :
  0 <= n -> 0 <= shr_m x ->
  snd (shr x e n) = e + n /\ shr_m (fst (shr x e n)) = shr_m x / 2 ^ n.
Proof.
  intros Hn Hx. destruct n as [|p|p]; [| |lia].
  - cbn. split; [lia|]. now rewrite Z.div_1_r.
  - cbn [shr fst snd]. split; [reflexivity|].
    rewrite iter_pos_nat.
    destruct (shr_iter_m (Pos.to_nat p) x Hx) as [_ H].
    rewrite H, positive_nat_Z. reflexivity.
Qed.

Lemma shr_shift_exact (m e n : Z) :
  0 <= n -> 0 <= m -> m mod 2 ^ n = 0 ->
  shr {| shr_m := m; shr_r := false; shr_s := false |} e n
  = ({| shr_m := m / 2 ^ n; shr_r := false; shr_s := false |}, e + n).
Proof.
  intros Hn Hm Hmod. destruct n as [|p|p]; [| |lia].
  - cbn. now rewrite Z.div_1_r, Z.add_0_r.
  - cbn [shr]. rewrite iter_pos_nat.
    rewrite shr_iter_exact; rewrite ?positive_nat_Z; auto.
Qed.

Lemma Zdigits2_unique (m d : Z) :
  2 ^ (d - 1) <= m < 2 ^ d -> 0 < m -> Zdigits2 m = d.
Proof.
  intros H Hm. destruct m as [|p|p]; try lia.
  cbn [Zdigits2]. now apply digits2_pos_unique.
Qed.

Lemma binary_round_aux_53 (mx ex : Z) (lx : location) (n : Z) :
  0 <= n ->
  2 ^ (52 + n) <= mx < 2 ^ (53 + n) ->
  -1074 <= ex + n -> ex + n + 1 <= 971 ->
  exists m_f e_f m_r,
    binary_round_aux 53 1024 false mx ex lx = S754_finite false m_f e_f /\
    (m_r = mx / 2 ^ n \/ m_r = mx / 2 ^ n + 1) /\
    (lx = loc_Exact -> mx mod 2 ^ n = 0 -> m_r = mx / 2 ^ n) /\
    ((m_r < 2 ^ 53 /\ Zpos m_f = m_r /\ e_f = ex + n) \/
     (m_r = 2 ^ 53 /\ Zpos m_f = 2 ^ 52 /\ e_f = ex + n + 1)).
Proof.
  intros Hn Hmx Hlo Hhi.
  assert (Hpn : 0 < 2 ^ n) by (apply Z.pow_pos_nonneg; lia).
  assert (Hmpos : 0 < mx).
  { assert (0 < 2 ^ (52 + n)) by (apply Z.pow_pos_nonneg; lia). lia. }
  assert (Hm0 : 2 ^ 52 <= mx / 2 ^ n < 2 ^ 53).
  { rewrite (Z.pow_add_r 2 52 n), (Z.pow_add_r 2 53 n) in Hmx by lia. split.
    - apply Z.div_le_lower_bound; lia.
    - apply Z.div_lt_upper_bound; lia. }
  unfold binary_round_aux, shr_fexp.
  rewrite (Zdigits2_unique mx (53 + n)); [|replace (53 + n - 1) with (52 + n) by lia; exact Hmx|lia].
  replace (fexp 53 1024 (53 + n + ex) - ex) with n
    by (unfold fexp, emin; lia).
  assert (Hrec : shr_m (shr_record_of_loc mx lx) = mx) by (destruct lx as [|[| |]]; reflexivity).
  destruct (shr_shift (shr_record_of_loc mx lx) ex n Hn ltac:(lia)) as [He Hm].
  rewrite Hrec in Hm.
  destruct (shr (shr_record_of_loc mx lx) ex n) as [mrs' e'] eqn:Hshr.
  cbn [fst snd] in He, Hm. subst e'.
  set (m_r := round_nearest_even (shr_m mrs') (loc_of_shr_record mrs')).
  assert (Hcases : m_r = mx / 2 ^ n \/ m_r = mx / 2 ^ n + 1).
  { unfold m_r. rewrite <- Hm. apply round_nearest_even_cases. }
  assert (Hexact : lx = loc_Exact -> mx mod 2 ^ n = 0 -> m_r = mx / 2 ^ n).
  { intros -> Hmod. cbn [shr_record_of_loc] in Hshr.
    rewrite shr_shift_exact in Hshr by lia. injection Hshr as <-.
    reflexivity. }
  destruct (Z.lt_ge_cases m_r (2 ^ 53)) as [Hlt|Hge].
  - rewrite (Zdigits2_unique m_r 53); [|lia|lia].
    replace (fexp 53 1024 (53 + (ex + n)) - (ex + n)) with 0
      by (unfold fexp, emin; lia).
    cbn [shr shr_record_of_loc shr_m].
    destruct m_r as [|p|p] eqn:Hp; try lia.
    replace (ex + n <=? 1024 - 53) with true by (symmetry; apply Z.leb_le; lia).
    exists p, (ex + n), (Z.pos p). repeat split; auto.
  - assert (Heq : m_r = 2 ^ 53) by lia.
    rewrite Heq.
    replace (fexp 53 1024 (Zdigits2 (2 ^ 53) + (ex + n)) - (ex + n)) with 1
      by (change (Zdigits2 (2 ^ 53)) with 54; unfold fexp, emin; lia).
    cbn [shr_record_of_loc shr].
    change (shr_m (iter_pos shr_1 1 {| shr_m := 2 ^ 53; shr_r := false; shr_s := false |}))
      with (2 ^ 52).
    change (2 ^ 52) with (Z.pos (2 ^ 52)).
    replace (ex + n + 1 <=? 1024 - 53) with true by (symmetry; apply Z.leb_le; lia).
    exists (2 ^ 52)%positive, (ex + n + 1), m_r. repeat split; auto.
Qed.

Lemma Pos_iter_xO (p k : positive) : Zpos (Pos.iter xO p k) = Zpos p * 2 ^ Zpos k.
Proof.
  assert (H : forall n : nat, Zpos (Nat.iter n xO p) = Zpos p * 2 ^ Z.of_nat n).
  { induction n as [|n IH].
    - cbn. lia.
    - rewrite Nat.iter_succ, Pos2Z.inj_xO, IH, Nat2Z.inj_succ, Z.pow_succ_r by lia. lia. }
  rewrite Pos2Nat.inj_iter. unfold Nat.iter in H. rewrite H, positive_nat_Z. reflexivity.
Qed.

Lemma double_of_uint64_canon (z : Z) :
  0 < z < 2 ^ 53 -> canon53 (double_of_uint64 z) z.
Proof.
  intros Hz. destruct z as [|p|p]; try lia.
  unfold double_of_uint64, binary_normalize, binary_round.
  pose proof (digits2_pos_bounds p) as Hd.
  set (d := Zpos (digits2_pos p)) in *.
  assert (Hd1 : 1 <= d <= 53).
  { split; [unfold d; lia|].
    destruct (Z.le_gt_cases d 53); [assumption|].
    assert (2 ^ 53 <= 2 ^ (d - 1)) by (apply Z.pow_le_mono_r; lia). lia. }
  replace (fexp 53 1024 (d + 0)) with (d - 53) by (unfold fexp, emin; lia).
  unfold shl_align.
  destruct (d - 53 - 0) as [|k|k] eqn:Hk; try lia.
  - assert (d = 53) by lia.
    destruct (binary_round_aux_53 (Zpos p) 0 loc_Exact 0) as (m_f & e_f & m_r & Hr & _ & Hex & Hfin);
      try lia.
    { replace d with 53 in Hd by lia. exact Hd. }
    rewrite Hr. rewrite Z.div_1_r in Hex. specialize (Hex eq_refl (Z.mod_1_r _)).
    exists m_f, e_f. destruct Hfin as [(Hlt & Hm & He)|(Heq & _)]; [|lia].
    split; [reflexivity|]. subst e_f. cbn [Z.add Z.opp Z.pow]. 
    replace d with 53 in Hd by lia. cbn in Hd. split; [lia|]. split; [lia|]. lia.
  - assert (Hkd : Zpos k = 53 - d) by lia.
    pose proof (Pos_iter_xO p k) as Hmz.
    assert (Hpow : 2 ^ 52 = 2 ^ (d - 1) * 2 ^ Zpos k /\ 2 ^ 53 = 2 ^ d * 2 ^ Zpos k).
    { rewrite <- !Z.pow_add_r by lia. split; f_equal; lia. }
    assert (Hpk : 0 < 2 ^ Zpos k) by (apply Z.pow_pos_nonneg; lia).
    assert (Hb : 2 ^ 52 <= Zpos (Pos.iter xO p k) < 2 ^ 53).
    { destruct Hpow as [-> ->]. rewrite Hmz. nia. }
    destruct (binary_round_aux_53 (Zpos (Pos.iter xO p k)) (d - 53) loc_Exact 0)
      as (m_f & e_f & m_r & Hr & _ & Hex & Hfin); try lia.
    rewrite Hr. rewrite Z.div_1_r in Hex. specialize (Hex eq_refl (Z.mod_1_r _)).
    exists m_f, e_f. destruct Hfin as [(Hlt & Hm & He)|(Heq & _)]; [|lia].
    split; [reflexivity|]. subst e_f. split; [lia|]. split; [lia|].
    rewrite Hm, Hex, Hmz. f_equal. f_equal. lia.
Qed.

Lemma double_mul_canon (f1 f2 : spec_float) (v1 v2 : Z) :
  canon53 f1 v1 -> canon53 f2 v2 -> 0 < v1 -> 0 < v2 -> v1 * v2 < 2 ^ 53 ->
  canon53 (double_mul f1 f2) (v1 * v2).
Proof.
  intros (m1 & e1 & -> & Hm1 & He1 & Hv1) (m2 & e2 & -> & Hm2 & He2 & Hv2) Hp1 Hp2 Hprod.
  unfold double_mul, SFmul. cbn [xorb]. rewrite Pos2Z.inj_mul.
  set (a := - e1 - e2).
  assert (Ha : 0 <= a) by (unfold a; lia).
  assert (HM : Zpos m1 * Zpos m2 = v1 * v2 * 2 ^ a).
  { rewrite Hv1, Hv2. unfold a. replace (- e1 - e2) with (- e1 + - e2) by lia.
    rewrite Z.pow_add_r by lia. ring. }
  assert (Hlo : 2 ^ 104 <= Zpos m1 * Zpos m2 < 2 ^ 106).
  { change (2 ^ 104) with (2 ^ 52 * 2 ^ 52). change (2 ^ 106) with (2 ^ 53 * 2 ^ 53). nia. }
  set (M := Zpos m1 * Zpos m2) in *.
  assert (Hn : exists n, (n = 52 \/ n = 53) /\ 2 ^ (52 + n) <= M < 2 ^ (53 + n)).
  { destruct (Z.lt_ge_cases M (2 ^ 105)).
    - exists 52. split; [auto|]. change (52 + 52) with 104. change (53 + 52) with 105. lia.
    - exists 53. split; [auto|]. change (52 + 53) with 105. change (53 + 53) with 106. lia. }
  destruct Hn as (n & Hn & HMn).
  assert (Hpa : 0 < 2 ^ a) by (apply Z.pow_pos_nonneg; lia).
  assert (Hna : n <= a).
  { destruct (Z.le_gt_cases n a); [assumption|]. exfalso.
    assert (2 ^ (53 + a) <= 2 ^ (52 + n)) by (apply Z.pow_le_mono_r; lia).
    rewrite Z.pow_add_r in H0 by lia. nia. }
  assert (Hsplit : 2 ^ a = 2 ^ (a - n) * 2 ^ n).
  { rewrite <- Z.pow_add_r by lia. f_equal. lia. }
  assert (Hpn : 0 < 2 ^ n) by (apply Z.pow_pos_nonneg; lia).
  assert (Hdiv : M / 2 ^ n = v1 * v2 * 2 ^ (a - n)).
  { rewrite HM, Hsplit, Z.mul_assoc. apply Z.div_mul. lia. }
  assert (Hmod : M mod 2 ^ n = 0).
  { rewrite HM, Hsplit, Z.mul_assoc. apply Z.mod_mul. lia. }
  destruct (binary_round_aux_53 M (e1 + e2) loc_Exact n)
    as (m_f & e_f & m_r & Hr & _ & Hex & Hfin); try lia.
  rewrite Hr. specialize (Hex eq_refl Hmod).
  assert (Hmr : 2 ^ 52 <= m_r < 2 ^ 53).
  { rewrite Hex. rewrite (Z.pow_add_r 2 52 n), (Z.pow_add_r 2 53 n) in HMn by lia. split.
    - apply Z.div_le_lower_bound; lia.
    - apply Z.div_lt_upper_bound; lia. }
  destruct Hfin as [(Hlt & Hm & He)|(Heq & _)]; [|lia].
  exists m_f, e_f. split; [reflexivity|]. split; [lia|].
  assert (Han : a - n <= 52).
  { destruct (Z.le_gt_cases (a - n) 52); [assumption|]. exfalso.
    assert (2 ^ 53 <= 2 ^ (a - n)) by (apply Z.pow_le_mono_r; lia). nia. }
  split; [unfold a in *; lia|].
  rewrite Hm, Hex, Hdiv. f_equal. f_equal. unfold a. lia.
Qed.

Lemma floor_stable (v1 v2 u m0 : Z) :
  0 <= u -> 0 < v2 < 2 ^ u -> 0 <= v1 -> m0 = v1 * 2 ^ u / v2 ->
  m0 / 2 ^ u = v1 / v2 /\ (m0 + 1) / 2 ^ u = v1 / v2.
Proof.
  intros Hu Hv2 Hv1 Hm0.
  set (U := 2 ^ u) in *. set (k := v1 / v2).
  pose proof (Z.div_mod v1 v2 ltac:(lia)) as Hdm. fold k in Hdm.
  pose proof (Z.mod_pos_bound v1 v2 ltac:(lia)) as Hr.
  pose proof (Z.div_mod (v1 * U) v2 ltac:(lia)) as Hdm0. rewrite <- Hm0 in Hdm0.
  pose proof (Z.mod_pos_bound (v1 * U) v2 ltac:(lia)) as Hr0.
  assert (Hk : 0 <= k) by (apply Z.div_pos; lia).
  assert (Hlo : k * U <= m0) by nia.
  assert (Hhi : m0 + 1 < (k + 1) * U) by nia.
  split.
  - symmetry. apply (Z.div_unique m0 U k (m0 - k * U)); lia.
  - symmetry. apply (Z.div_unique (m0 + 1) U k (m0 + 1 - k * U)); lia.
Qed.

Lemma SFdiv_core_binary_53 (m1 m2 : positive) (e1 e2 : Z) :
  2 ^ 52 <= Zpos m1 < 2 ^ 53 -> 2 ^ 52 <= Zpos m2 < 2 ^ 53 ->
  -52 <= e1 <= 0 -> -52 <= e2 <= 0 ->
  SFdiv_core_binary 53 1024 (Zpos m1) e1 (Zpos m2) e2
  = (Zpos m1 * 2 ^ 53 / Zpos m2, e1 - e2 - 53,
     new_location (Zpos m2) ((Zpos m1 * 2 ^ 53) mod Zpos m2)).
Proof.
  intros Hm1 Hm2 He1 He2. unfold SFdiv_core_binary.
  rewrite (Zdigits2_unique (Zpos m1) 53), (Zdigits2_unique (Zpos m2) 53) by (cbn; lia).
  replace (Z.min (fexp 53 1024 (53 + e1 - (53 + e2))) (e1 - e2)) with (e1 - e2 - 53)
    by (unfold fexp, emin; lia).
  replace (e1 - e2 - (e1 - e2 - 53)) with 53 by lia.
  cbv zeta. rewrite Z.shiftl_mul_pow2 by lia.
  unfold Z.div, Z.modulo.
  destruct (Z.div_eucl (Z.pos m1 * 2 ^ 53) (Z.pos m2)) as [q r]. reflexivity.
Qed.

Lemma double_div_trunc (f1 f2 : spec_float) (v1 v2 : Z) :
  canon53 f1 v1 -> canon53 f2 v2 ->
  0 < v1 <= 100 * v2 -> 0 < v2 < 2 ^ 46 ->
  double_to_int (double_div f1 f2) = v1 / v2.
Proof.
  intros (m1 & e1 & -> & Hm1 & He1 & Hv1) (m2 & e2 & -> & Hm2 & He2 & Hv2) Hv Hv2r.
  unfold double_div, SFdiv. rewrite SFdiv_core_binary_53 by assumption.
  cbn [xorb].
  set (a1 := - e1) in *. set (a2 := - e2) in *.
  assert (Hp1 : 0 < 2 ^ a1) by (apply Z.pow_pos_nonneg; unfold a1; lia).
  assert (Hp2 : 0 < 2 ^ a2) by (apply Z.pow_pos_nonneg; unfold a2; lia).
  set (t := 53 + a1 - a2).
  (* the quotient of the mantissas is the quotient of the values, scaled *)
  assert (Ht : 46 <= t).
  { unfold t. destruct (Z.le_gt_cases (a2 - a1) 7); [lia|]. exfalso.
    assert (2 ^ (a1 + 8) <= 2 ^ a2) by (apply Z.pow_le_mono_r; unfold a1, a2 in *; lia).
    rewrite Z.pow_add_r in H0 by (unfold a1; lia). change (2 ^ 8) with 256 in H0.
    assert (Zpos m1 * 2 ^ a2 <= 100 * Zpos m2 * 2 ^ a1) by (rewrite Hv1, Hv2; nia).
    nia. }
  assert (Hq : Zpos m1 * 2 ^ 53 / Zpos m2 = v1 * 2 ^ t / v2).
  { rewrite Hv1, Hv2.
    replace (v1 * 2 ^ a1 * 2 ^ 53) with (v1 * 2 ^ t * 2 ^ a2).
    - apply Z.div_mul_cancel_r; lia.
    - unfold t. rewrite <- !Z.mul_assoc, <- !Z.pow_add_r by (unfold a1, a2 in *; lia).
      do 2 f_equal. lia. }
  set (q := Zpos m1 * 2 ^ 53 / Zpos m2) in *.
  assert (Hqb : 2 ^ 52 <= q < 2 ^ 54).
  { unfold q. split.
    - apply Z.div_le_lower_bound; [lia|].
      change (2 ^ 53) with (2 * 2 ^ 52) in *. nia.
    - apply Z.div_lt_upper_bound; [lia|].
      change (2 ^ 54) with (2 ^ 52 * 4). change (2 ^ 53) with (2 ^ 52 * 2) in *. nia. }
  assert (Hn : exists n, (n = 0 \/ n = 1) /\ 2 ^ (52 + n) <= q < 2 ^ (53 + n)).
  { destruct (Z.lt_ge_cases q (2 ^ 53)).
    - exists 0. split; [auto|]. cbn [Z.add]. lia.
    - exists 1. split; [auto|]. change (52 + 1) with 53. change (53 + 1) with 54. lia. }
  destruct Hn as (n & Hn & Hqn).
  set (u := t - n).
  assert (Hu : 46 <= u).
  { unfold u. destruct Hn as [-> | ->]; [lia|].
    destruct (Z.eq_dec t 46) as [Ht46|]; [|lia]. exfalso.
    change (52 + 1) with 53 in Hqn.
    pose proof (Z.mul_div_le (v1 * 2 ^ t) v2 ltac:(lia)) as Hle.
    rewrite <- Hq in Hle. rewrite Ht46 in Hle.
    change (2 ^ 46) with 70368744177664 in *. change (2 ^ 53) with 9007199254740992 in *.
    nia. }
  assert (Hpn : 0 < 2 ^ n) by (apply Z.pow_pos_nonneg; lia).
  assert (Hpu : 0 < 2 ^ u) by (apply Z.pow_pos_nonneg; lia).
  assert (Hm0 : q / 2 ^ n = v1 * 2 ^ u / v2).
  { rewrite Hq. rewrite Z.div_div by lia.
    replace (2 ^ t) with (2 ^ u * 2 ^ n)
      by (rewrite <- Z.pow_add_r by lia; f_equal; unfold u; lia).
    rewrite Z.mul_assoc. apply Z.div_mul_cancel_r; lia. }
  assert (Hv2u : v2 < 2 ^ u).
  { assert (2 ^ 46 <= 2 ^ u) by (apply Z.pow_le_mono_r; lia). lia. }
  destruct (floor_stable v1 v2 u (q / 2 ^ n) ltac:(lia) ltac:(lia) ltac:(lia) Hm0)
    as [Hk0 Hk1].
  assert (Hk : 0 <= v1 / v2 <= 100).
  { split; [apply Z.div_pos; lia|]. apply Z.div_le_upper_bound; lia. }
  destruct (binary_round_aux_53 q (e1 - e2 - 53)
              (new_location (Zpos m2) ((Zpos m1 * 2 ^ 53) mod Zpos m2)) n)
    as (m_f & e_f & m_r & Hr & Hcases & _ & Hfin);
    try (unfold a1, a2, t, u in *; lia).
  rewrite Hr. unfold double_to_int.
  assert (Hef : e_f = - u \/ e_f = - (u - 1)).
  { destruct Hfin as [(_ & _ & ->)|(_ & _ & ->)]; unfold u, t, a1, a2; [left|right]; lia. }
  replace (0 <=? e_f) with false by (symmetry; apply Z.leb_gt; lia).
  assert (Hval : Zpos m_f / 2 ^ (- e_f) = v1 / v2).
  { destruct Hfin as [(Hlt & Hm & He)|(Heq & Hm & He)].
    - rewrite Hm. replace (- e_f) with u by (unfold u, t, a1, a2; lia).
      destruct Hcases as [-> | ->]; assumption.
    - rewrite Hm. replace (- e_f) with (u - 1) by (unfold u, t, a1, a2; lia).
      rewrite <- Hk1.
      assert (Hmr : q / 2 ^ n + 1 = 2 ^ 53).
      { destruct Hcases as [Hc|Hc]; [|lia].
        assert (q / 2 ^ n < 2 ^ 53); [|lia].
        apply Z.div_lt_upper_bound; [lia|].
        rewrite <- Z.pow_add_r by lia. replace (n + 53) with (53 + n) by lia.
        apply Hqn. }
      rewrite Hmr.
      assert (Hsu : 2 ^ u = 2 ^ (u - 1) * 2).
      { replace u with (u - 1 + 1) at 1 by lia. rewrite Z.pow_add_r by lia. reflexivity. }
      rewrite Hsu.
      change (2 ^ 53) with (2 ^ 52 * 2).
      symmetry. apply Z.div_mul_cancel_r; [|lia].
      assert (0 < 2 ^ (u - 1)) by (apply Z.pow_pos_nonneg; lia). lia. }
  rewrite Hval. unfold INT_MIN, INT_MAX.
  replace ((- 2 ^ 31 <=? v1 / v2) && (v1 / v2 <=? 2 ^ 31 - 1)) with true; [reflexivity|].
  symmetry. apply andb_true_iff. split; apply Z.leb_le; lia.
Qed.

Lemma double_progress_exact (x P : Z) :
  0 < x <= P -> P < 2 ^ 46 ->
  double_to_int
    (double_div (double_mul (double_of_uint64 x) double_100) (double_of_uint64 P))
  = 100 * x / P.
Proof.
  intros Hx HP.
  assert (H46 : 2 ^ 46 * 128 = 2 ^ 53) by reflexivity.
  assert (Hcx : canon53 (double_of_uint64 x) x) by (apply double_of_uint64_canon; lia).
  assert (Hc100 : canon53 double_100 100) by (apply double_of_uint64_canon; lia).
  assert (HcP : canon53 (double_of_uint64 P) P) by (apply double_of_uint64_canon; lia).
  rewrite (double_div_trunc _ _ (x * 100) P); try lia.
  - f_equal. lia.
  - apply double_mul_canon; try assumption; lia.
  - assumption.
Qed.

(** ** The queue discipline *)

Section Loop.
Variable sys : Sys.
Variable config : PayloadGenerationConfig.
Variable partition in_fd : Z.
Hypothesis fit : sizes_fit config partition.

Local Abbreviation P := (part_sizes config partition).
Local Abbreviation c := (chunk_size config).


Lemma loop_inv_init : loop_inv sys config partition in_fd 0 0 (Locals_init P).
Proof.
  destruct fit as (Hc & HP & Hmax).
  split; simpl; try lia; try reflexivity.
  rewrite to_off_t_id; unfold off_t_max in *; lia.
Qed.

Lemma new_processor_is_chunk (s : nat) (l : Locals) :
  offset l = Z.of_nat s * c ->
  bytes_left l = P - Z.of_nat s * c ->
  0 < bytes_left l ->
  ChunkProcessor_new in_fd (offset l)
    (Z.to_nat (to_size_t (Z.min (bytes_left l) (chunk_size config))))
  = chunk_processor config partition in_fd s.
Proof.
  intros Ho Hb Hpos. destruct fit as (Hc & HP & Hmax).
  unfold chunk_processor.
  rewrite Ho, Hb. rewrite to_size_t_id; [reflexivity|].
  unfold off_t_max in Hmax. lia.
Qed.

Lemma Start_chunk (s : nat) :
  Start sys (chunk_processor config partition in_fd s)
  = if g_thread_try_new sys in_fd (Z.of_nat s * c)
    then (true, queued sys config partition in_fd s)
    else (false, set_thread None (chunk_processor config partition in_fd s)).
Proof.
  unfold Start, queued, worker. simpl fd_. simpl offset_.
  destruct (g_thread_try_new sys in_fd (Z.of_nat s * c)); [|reflexivity].
  destruct (ReadAndCompress sys (chunk_processor config partition in_fd s)); reflexivity.
Qed.

Lemma queue_push (e s : nat) :
  (e <= s)%nat ->
  map (queued sys config partition in_fd) (seq e (s - e))
    ++ [queued sys config partition in_fd s]
  = map (queued sys config partition in_fd) (seq e (S s - e)).
Proof.
  intros H. replace (S s - e)%nat with (S (s - e)) by lia.
  rewrite seq_S, map_app. simpl. repeat f_equal. lia.
Qed.

(** The inner loop only appends started processors, in offset order. *)
Lemma start_processors_inv (fuel : nat) : forall (e s : nat) (l l1 : Locals),
  loop_inv sys config partition in_fd e s l ->
  start_processors sys fuel config in_fd l = Returned true l1 ->
  exists s', (s <= s')%nat /\ loop_inv sys config partition in_fd e s' l1 /\
    counter l1 = counter l /\ last_progress_update l1 = last_progress_update l /\
    (max_threads sys <= Z.of_nat (length (threads l1)) \/ bytes_left l1 <= 0).
Proof.
  induction fuel as [|fuel IH]; intros e s l l1 Hinv Hrun.
  - simpl in Hrun.
    destruct ((Z.of_nat (length (threads l)) <? max_threads sys) && (0 <? bytes_left l)) eqn:Hc;
      [discriminate|].
    injection Hrun as <-. exists s. repeat split; try apply Hinv; try lia.
  - simpl in Hrun.
    destruct ((Z.of_nat (length (threads l)) <? max_threads sys) && (0 <? bytes_left l)) eqn:Hc.
    + apply andb_true_iff in Hc. destruct Hc as [_ Hpos]. apply Z.ltb_lt in Hpos.
      destruct Hinv as [Hord Hthr Hoff Hleft Hbound].
      rewrite (new_processor_is_chunk s l Hoff Hleft Hpos) in Hrun.
      rewrite Start_chunk in Hrun.
      destruct (g_thread_try_new sys in_fd (Z.of_nat s * c)); [|discriminate].
      destruct fit as (Hcpos & HP & Hmax).
      assert (Hnn : 0 <= Z.of_nat s * c) by (apply Z.mul_nonneg_nonneg; lia).
      apply (IH e (S s)) in Hrun.
      * destruct Hrun as (s' & Hle & Hinv' & Hcnt & Hlast & Hstop).
        exists s'. simpl in Hcnt, Hlast.
        split; [lia|]. split; [exact Hinv'|]. auto.
      * split; cbn [threads offset bytes_left].
        -- lia.
        -- rewrite Hthr. apply queue_push. assumption.
        -- rewrite Hoff. rewrite to_off_t_id; unfold off_t_max in *; lia.
        -- rewrite Hleft. rewrite to_off_t_id; unfold off_t_max in *; lia.
        -- lia.
    + injection Hrun as <-. exists s. repeat split; try apply Hinv; try lia.
Qed.

Lemma ReadAndCompress_thread (p : ChunkProcessor) :
  thread_ (snd (ReadAndCompress sys p)) = thread_ p.
Proof.
  unfold ReadAndCompress.
  destruct (PReadAll sys (fd_ p) (length (buffer_in_ p)) (offset_ p)) as [data|];
    [|reflexivity].
  destruct (Nat.eqb (length data) (length (buffer_in_ p))); [|reflexivity].
  cbn [buffer_in_ set_buffer_in].
  destruct (BzipCompress sys (blob_store data (buffer_in_ p))); reflexivity.
Qed.

Lemma Wait_queued (j : nat) :
  Wait (queued sys config partition in_fd j)
  = (fst (worker sys config partition in_fd j),
     snd (worker sys config partition in_fd j)).
Proof.
  unfold Wait, queued. cbn [thread_ set_thread]. f_equal.
  pose proof (ReadAndCompress_thread (chunk_processor config partition in_fd j)) as H.
  unfold worker.
  destruct (snd (ReadAndCompress sys (chunk_processor config partition in_fd j))) as [t f o bi bc].
  cbn in H |- *. rewrite H. reflexivity.
Qed.

Lemma loop_inv_pop (e s : nat) (l : Locals) (front : ChunkProcessor)
    (rest : list ChunkProcessor) (cnt last : Z) :
  loop_inv sys config partition in_fd e s l -> threads l = front :: rest ->
  front = queued sys config partition in_fd e /\ (e < s)%nat /\
  loop_inv sys config partition in_fd (S e) s (with_queue rest cnt last l).
Proof.
  intros [Hord Hthr Hoff Hleft Hbound] Hq. rewrite Hthr in Hq.
  destruct (s - e)%nat as [|m] eqn:Hm; [discriminate|].
  simpl in Hq. injection Hq as Hf Hr.
  split; [now symmetry|]. split; [lia|].
  split; cbn [threads offset bytes_left with_queue]; try assumption; try lia.
  rewrite <- Hr. replace (s - S e)%nat with m by lia. reflexivity.
Qed.

(** The outer loop emits the chunks in the order of their offsets: what
    it returns is the state after the sequential emission of some first
    chunks, all of them on success, and on failure possibly with the
    operation of the chunk whose write failed. *)
Lemma partition_loop_trace (fuel : nat) :
  forall (e s : nat) (l : Locals) (o : Outputs) ok l' o',
  loop_inv sys config partition in_fd e s l ->
  partition_loop sys fuel config partition in_fd l o = Returned ok (l', o') ->
  exists n : nat,
    let st0 := (counter l, last_progress_update l, o) in
    let st := emit_range sys config partition in_fd e n st0 in
    emits_ok sys config partition in_fd e n st0 = true /\
    Z.of_nat (e + n) * c < P + c /\
    ((ok = true /\ P <= Z.of_nat (e + n) * c /\ o' = snd st) \/
     (ok = false /\ o' = snd st) \/
     (ok = false /\ Z.of_nat (e + n) * c < P /\
      fst (worker sys config partition in_fd (e + n)) = true /\
      fst (emit_chunk sys config partition in_fd (e + n) st) = false /\
      o' = snd (snd (emit_chunk sys config partition in_fd (e + n) st)))).
Proof.
  induction fuel as [|fuel IH]; intros e s l o ok l' o' Hinv Hrun.
  - simpl in Hrun.
    destruct ((0 <? bytes_left l) || negb (Nat.eqb (length (threads l)) 0)) eqn:Hc;
      [discriminate|].
    injection Hrun as <- <- <-. exists 0%nat. cbn [emit_range emits_ok snd].
    apply orb_false_iff in Hc. destruct Hc as [Hb Hq].
    destruct Hinv as [Hord Hthr Hoff Hleft Hbound].
    rewrite Hthr, length_map, length_seq in Hq.
    apply negb_false_iff, Nat.eqb_eq in Hq.
    replace (e + 0)%nat with s by lia.
    split; [reflexivity|]. split; [assumption|]. left. repeat split. lia.
  - cbn [partition_loop] in Hrun.
    destruct ((0 <? bytes_left l) || negb (Nat.eqb (length (threads l)) 0)) eqn:Hc.
    + destruct (start_processors sys (S fuel) config in_fd l) as [[|] l1| |] eqn:Hfill;
        try discriminate.
      * destruct (start_processors_inv _ _ _ _ _ Hinv Hfill)
          as (s' & Hle & Hinv' & Hcnt & Hlast & _).
        destruct (threads l1) as [|front rest] eqn:Hq; [discriminate|].
        destruct (loop_inv_pop e s' l1 front rest (counter l1) (last_progress_update l1)
                    Hinv' Hq) as (Hfront & Hlt & _).
        subst front. rewrite Wait_queued in Hrun.
        assert (Hbnd : Z.of_nat (e + 0) * c < P /\ Z.of_nat (e + 0) * c < P + c).
        { destruct Hinv' as [_ _ _ _ Hb]. destruct fit as (Hcpos & _).
          replace (e + 0)%nat with e by lia. nia. }
        destruct (fst (worker sys config partition in_fd e)) eqn:Hw.
        -- rewrite Hcnt, Hlast in Hrun.
           destruct (emit_operation sys config partition
                       (snd (worker sys config partition in_fd e))
                       (counter l) (last_progress_update l) o)
             as [[|] [[c1 p1] o1]] eqn:Hemit.
           ++ destruct (loop_inv_pop e s' l1 _ rest c1 p1 Hinv' Hq) as (_ & _ & Hinv'').
              apply (IH _ _ _ _ _ _ _ Hinv'') in Hrun.
              destruct Hrun as (n & Hok & Hb & Hres).
              exists (S n). cbn [emit_range emits_ok].
              cbn [counter last_progress_update with_queue] in Hok, Hres.
              assert (Hec : emit_chunk sys config partition in_fd e
                              (counter l, last_progress_update l, o)
                            = (true, (c1, p1, o1))) by exact Hemit.
              rewrite !Hec, Hw. cbn [fst snd andb].
              replace (e + S n)%nat with (S e + n)%nat by lia.
              split; [assumption|]. split; [assumption|]. exact Hres.
           ++ injection Hrun as <- _ <-. exists 0%nat. cbn [emit_range emits_ok].
              split; [reflexivity|]. split; [tauto|]. right. right.
              unfold emit_chunk. replace (e + 0)%nat with e in * by lia.
              rewrite Hemit. cbn [fst snd]. tauto.
        -- injection Hrun as <- _ <-. exists 0%nat. cbn [emit_range emits_ok snd].
           split; [reflexivity|]. split; [tauto|]. right. left. tauto.
      * injection Hrun as <- _ <-. exists 0%nat. cbn [emit_range emits_ok snd].
        destruct Hinv as [Ho _ _ _ Hb]. replace (e + 0)%nat with e by lia.
        destruct fit as (Hcpos & _).
        split; [reflexivity|]. split; [nia|]. right. left. tauto.
    + injection Hrun as <- <- <-. exists 0%nat. cbn [emit_range emits_ok snd].
      apply orb_false_iff in Hc. destruct Hc as [Hb Hq].
      destruct Hinv as [Hord Hthr Hoff Hleft Hbound].
      rewrite Hthr, length_map, length_seq in Hq.
      apply negb_false_iff, Nat.eqb_eq in Hq.
      replace (e + 0)%nat with s by lia.
      split; [reflexivity|]. split; [assumption|]. left. repeat split. lia.
Qed.

End Loop.

(** ** One emission *)

Lemma update_back_app {A : Type} (f : A -> A) (v : list A) (x : A) :
  update_back f (v ++ [x]) = v ++ [f x].
Proof.
  unfold update_back. rewrite rev_app_distr. simpl. now rewrite rev_involutive.
Qed.

(** What [emit_operation] leaves in each output, for the write that went
    through ([ok = true]) and for the one that did not. *)
Lemma emit_operation_fields (sys : Sys) (config : PayloadGenerationConfig)
    (partition : Z) (p : ChunkProcessor) (cnt last : Z) (o : Outputs)
    (ok : bool) (cnt' last' : Z) (o' : Outputs) :
  emit_operation sys config partition p cnt last o = (ok, (cnt', last', o')) ->
  let x := if ok then operation_of config p (data_file_size o)
           else pending_operation p (data_file_size o) in
  graph o' = (if partition =? 0
              then graph o ++ [ {| file_name := rootfs_operation_name cnt; op := x |} ]
              else graph o) /\
  kernel_ops o' = (if partition =? 0 then kernel_ops o else kernel_ops o ++ [x]) /\
  final_order o' = (if partition =? 0
                    then final_order o ++
                         [to_size_t (Z.of_nat (length (graph o ++ [Vertex_default])) - 1)]
                    else final_order o) /\
  cnt' = (if partition =? 0 then to_off_t (cnt + 1) else cnt) /\
  data_file_size o' = (if ok
                       then to_off_t (data_file_size o + Z.of_nat (length (use_buf p)))
                       else data_file_size o) /\
  (if ok
   then write_fault sys (payload o) (use_buf p) = None /\
        payload o' = payload o ++ use_buf p
   else exists k, write_fault sys (payload o) (use_buf p) = Some k /\
        payload o' = payload o ++ firstn k (use_buf p)).
Proof.
  unfold emit_operation, new_operation, through_op, WriteAll.
  destruct (partition =? 0) eqn:Hp;
    cbn [graph kernel_ops final_order payload data_file_size log set_payload
         set_data_file_size add_log];
    rewrite ?update_back_app; cbn [set_op set_file_name op file_name Vertex_default];
    rewrite ?update_back_app; cbn [set_op set_file_name op file_name Vertex_default];
    rewrite ?update_back_app; cbn [set_op set_file_name op file_name Vertex_default];
    rewrite ?update_back_app; cbn [set_op set_file_name op file_name Vertex_default];
    rewrite ?update_back_app; cbn [set_op set_file_name op file_name Vertex_default];
    (destruct (write_fault sys (payload o) (use_buf p)) as [k|] eqn:Hw;
     [|destruct (should_report last (progress_of p (part_sizes config partition)))]);
    intros H; injection H as <- <- <- <-;
    cbn [graph kernel_ops final_order payload data_file_size log set_payload
         set_data_file_size add_log];
    rewrite ?length_app; cbn [length];
    repeat split; eauto.
Qed.

(** ** What a worker leaves in its processor *)

Lemma blob_store_full (data buf : Blob) :
  length data = length buf -> blob_store data buf = data.
Proof.
  intros H. unfold blob_store. rewrite H, skipn_all. apply app_nil_r.
Qed.

Lemma ReadAndCompress_true (sys : Sys) (p p' : ChunkProcessor) :
  ReadAndCompress sys p = (true, p') ->
  PReadAll sys (fd_ p) (length (buffer_in_ p)) (offset_ p) = Some (buffer_in_ p') /\
  length (buffer_in_ p') = length (buffer_in_ p) /\
  BzipCompress sys (buffer_in_ p') = Some (buffer_compressed_ p') /\
  offset_ p' = offset_ p /\ fd_ p' = fd_ p.
Proof.
  unfold ReadAndCompress.
  destruct (PReadAll sys (fd_ p) (length (buffer_in_ p)) (offset_ p)) as [data|];
    [|discriminate].
  destruct (Nat.eqb (length data) (length (buffer_in_ p))) eqn:Hlen; [|discriminate].
  apply Nat.eqb_eq in Hlen. cbn [buffer_in_ set_buffer_in].
  rewrite (blob_store_full _ _ Hlen).
  destruct (BzipCompress sys data) as [z|] eqn:Hz; [|discriminate].
  intros H. injection H as <-. cbn. auto.
Qed.

(** A read that brings fewer bytes than requested, or fails, makes the
    worker fail. *)
Lemma ReadAndCompress_short (sys : Sys) (p : ChunkProcessor) :
  match PReadAll sys (fd_ p) (length (buffer_in_ p)) (offset_ p) with
  | Some data => length data <> length (buffer_in_ p)
  | None => True
  end ->
  fst (ReadAndCompress sys p) = false.
Proof.
  unfold ReadAndCompress.
  destruct (PReadAll sys (fd_ p) (length (buffer_in_ p)) (offset_ p)) as [data|];
    [|reflexivity].
  intros H. apply Nat.eqb_neq in H. rewrite H. reflexivity.
Qed.

Lemma use_buf_length (p : ChunkProcessor) :
  (length (use_buf p) <= length (buffer_in_ p))%nat.
Proof.
  unfold use_buf, ShouldCompress.
  destruct (Nat.ltb (length (buffer_compressed_ p)) (length (buffer_in_ p))) eqn:H.
  - apply Nat.ltb_lt in H. lia.
  - lia.
Qed.

Section Chunks.
Variable sys : Sys.
Variable config : PayloadGenerationConfig.
Variable partition in_fd : Z.
Hypothesis fit : sizes_fit config partition.

Local Abbreviation P := (part_sizes config partition).
Local Abbreviation c := (chunk_size config).

Lemma worker_offset (j : nat) :
  fst (worker sys config partition in_fd j) = true ->
  offset_ (snd (worker sys config partition in_fd j)) = Z.of_nat j * c.
Proof.
  unfold worker. intros H.
  destruct (ReadAndCompress sys (chunk_processor config partition in_fd j)) as [r p'] eqn:E.
  cbn in H. subst r. apply ReadAndCompress_true in E. cbn [snd].
  destruct E as (_ & _ & _ & E & _). rewrite E. reflexivity.
Qed.

Lemma worker_raw_size (j : nat) :
  fst (worker sys config partition in_fd j) = true ->
  length (buffer_in_ (snd (worker sys config partition in_fd j)))
  = Z.to_nat (Z.min (P - Z.of_nat j * c) c).
Proof.
  unfold worker. intros H.
  destruct (ReadAndCompress sys (chunk_processor config partition in_fd j)) as [r p'] eqn:E.
  cbn in H. subst r. apply ReadAndCompress_true in E. cbn [snd].
  destruct E as (_ & E & _). rewrite E. cbn. apply repeat_length.
Qed.

Lemma worker_written_size (j : nat) :
  fst (worker sys config partition in_fd j) = true ->
  0 <= Z.of_nat (length (use_buf (snd (worker sys config partition in_fd j)))) <= c.
Proof.
  intros H. pose proof (use_buf_length (snd (worker sys config partition in_fd j))) as Hle.
  rewrite (worker_raw_size j H) in Hle. destruct fit as (Hc & _). lia.
Qed.

End Chunks.

(** ** Sequences of emissions *)

Lemma vertices_of_app (n : Z) (a b : list InstallOperation) :
  vertices_of n (a ++ b) = vertices_of n a ++ vertices_of (n + Z.of_nat (length a)) b.
Proof.
  revert n. induction a as [|x a IH]; intros n.
  - simpl. now rewrite Z.add_0_r.
  - cbn [vertices_of app length]. rewrite IH.
    replace (n + Z.of_nat (S (length a))) with (n + 1 + Z.of_nat (length a)) by lia.
    reflexivity.
Qed.

Lemma vertices_of_length (n : Z) (a : list InstallOperation) :
  length (vertices_of n a) = length a.
Proof. revert n. induction a; intros; simpl; auto. Qed.

Lemma map_op_vertices_of (n : Z) (a : list InstallOperation) :
  map op (vertices_of n a) = a.
Proof. revert n. induction a as [|x a IH]; intros; simpl; [|rewrite IH]; auto. Qed.

Lemma extended_refl (partition cnt : Z) (o : Outputs) :
  extended partition cnt o [] [] 0 o.
Proof.
  split; destruct (partition =? 0); cbn [vertices_of length seq map];
    rewrite ?app_nil_r; auto; lia.
Qed.

Lemma extended_trans (partition cnt cnt' : Z) (o o1 o2 : Outputs)
    (r1 r2 : list InstallOperation) (b1 b2 : Blob) (s1 s2 : Z) :
  extended partition cnt o r1 b1 s1 o1 ->
  extended partition cnt' o1 r2 b2 s2 o2 ->
  cnt' = (if partition =? 0 then cnt + Z.of_nat (length r1) else cnt) ->
  extended partition cnt o (r1 ++ r2) (b1 ++ b2) (s1 + s2) o2.
Proof.
  intros [Hg1 Hk1 Hf1 Hd1 Hp1] [Hg2 Hk2 Hf2 Hd2 Hp2] Hc.
  split.
  - rewrite Hg2, Hg1. destruct (partition =? 0).
    + subst cnt'. now rewrite vertices_of_app, app_assoc.
    + now rewrite !app_nil_r.
  - rewrite Hk2, Hk1. destruct (partition =? 0).
    + now rewrite !app_nil_r.
    + now rewrite app_assoc.
  - rewrite Hf2, Hf1, Hg1. destruct (partition =? 0).
    + rewrite length_app, vertices_of_length, (length_app r1 r2), seq_app, map_app.
      now rewrite app_assoc.
    + now rewrite !app_nil_r.
  - lia.
  - rewrite Hp2, Hp1. now rewrite app_assoc.
Qed.

(** One emission, read on values that do not wrap. *)
Lemma emit_operation_extended (sys : Sys) (config : PayloadGenerationConfig)
    (partition : Z) (p : ChunkProcessor) (cnt last : Z) (o : Outputs)
    (ok : bool) (cnt' last' : Z) (o' : Outputs) :
  emit_operation sys config partition p cnt last o = (ok, (cnt', last', o')) ->
  0 <= data_file_size o ->
  data_file_size o + Z.of_nat (length (use_buf p)) <= off_t_max ->
  0 <= cnt < off_t_max ->
  Z.of_nat (length (graph o)) < 2 ^ 64 ->
  cnt' = (if partition =? 0 then cnt + 1 else cnt) /\
  if ok
  then write_fault sys (payload o) (use_buf p) = None /\
       extended partition cnt o [operation_of config p (data_file_size o)]
         (use_buf p) (Z.of_nat (length (use_buf p))) o'
  else exists k, write_fault sys (payload o) (use_buf p) = Some k /\
       extended partition cnt o [pending_operation p (data_file_size o)]
         (firstn k (use_buf p)) 0 o'.
Proof.
  intros H Hd Hmax Hc Hg. apply emit_operation_fields in H.
  destruct H as (Hgr & Hk & Hf & Hcnt & Hdfs & Hpay).
  rewrite length_app in Hf. cbn [length] in Hf.
  rewrite to_size_t_id in Hf by lia.
  replace (Z.of_nat (length (graph o) + 1) - 1) with (Z.of_nat (length (graph o))) in Hf by lia.
  rewrite to_off_t_id in Hcnt by (unfold off_t_max in *; lia).
  split; [exact Hcnt|].
  destruct ok.
  - destruct Hpay as [Hw Hpay]. split; [exact Hw|].
    rewrite to_off_t_id in Hdfs by (unfold off_t_max in *; lia).
    split; cbn [vertices_of length seq map]; destruct (partition =? 0);
      rewrite ?app_nil_r; auto.
  - destruct Hpay as (k & Hw & Hpay). exists k. split; [exact Hw|].
    split; cbn [vertices_of length seq map]; destruct (partition =? 0);
      rewrite ?app_nil_r; auto; lia.
Qed.

Section Emissions.
Variable sys : Sys.
Variable config : PayloadGenerationConfig.
Variable partition in_fd : Z.
Hypothesis fit : sizes_fit config partition.

Local Abbreviation P := (part_sizes config partition).
Local Abbreviation c := (chunk_size config).

Lemma workers_S (j n : nat) :
  workers sys config partition in_fd j (S n)
  = snd (worker sys config partition in_fd j) :: workers sys config partition in_fd (S j) n.
Proof. reflexivity. Qed.

(** The state after [n] successful emissions from chunk [j] on. *)
Lemma emit_range_extended (n : nat) : forall (j : nat) (cnt last : Z) (o : Outputs),
  emits_ok sys config partition in_fd j n (cnt, last, o) = true ->
  0 <= data_file_size o ->
  data_file_size o + Z.of_nat n * c <= off_t_max ->
  0 <= cnt -> cnt + Z.of_nat n <= off_t_max ->
  Z.of_nat (length (graph o)) + Z.of_nat n <= 2 ^ 64 ->
  let st := emit_range sys config partition in_fd j n (cnt, last, o) in
  let ws := workers sys config partition in_fd j n in
  fst (fst st) = (if partition =? 0 then cnt + Z.of_nat n else cnt) /\
  extended partition cnt o (operations_of config (data_file_size o) ws)
    (concat (map use_buf ws)) (total_length ws) (snd st) /\
  0 <= total_length ws <= Z.of_nat n * c /\
  (forall i, (j <= i < j + n)%nat -> fst (worker sys config partition in_fd i) = true).
Proof.
  induction n as [|n IH]; intros j cnt last o Hok Hd Hmax Hc Hcmax Hg.
  - cbn [emit_range workers seq map concat operations_of total_length fst snd].
    split; [destruct (partition =? 0); lia|].
    split; [apply extended_refl|]. split; [lia|]. intros i Hi. lia.
  - cbn [emits_ok] in Hok.
    apply andb_true_iff in Hok. destruct Hok as [Hok Hrest].
    apply andb_true_iff in Hok. destruct Hok as [Hw Hemit].
    cbn [emit_range]. rewrite workers_S.
    destruct (emit_chunk sys config partition in_fd j (cnt, last, o))
      as [ok1 [[c1 p1] o1]] eqn:E.
    cbn [fst snd] in Hemit, Hrest |- *. subst ok1.
    pose proof (worker_written_size sys config partition in_fd fit j Hw) as Hlen.
    unfold emit_chunk in E.
    assert (Hnc : 0 <= Z.of_nat n * c).
    { destruct fit as (Hcpos & _). apply Z.mul_nonneg_nonneg; lia. }
    apply emit_operation_extended in E; try lia.
    destruct E as (Hc1 & _ & Hext).
    pose proof (ext_data_file_size _ _ _ _ _ _ _ Hext) as Hd1.
    pose proof (ext_graph _ _ _ _ _ _ _ Hext) as Hg1.
    assert (Hlg : (length (graph o1) <= length (graph o) + 1)%nat).
    { rewrite Hg1, length_app. destruct (partition =? 0); simpl; lia. }
    destruct (IH (S j) c1 p1 o1 Hrest) as (Hcnt & Hext' & Htot & Hall); try lia.
    { destruct (partition =? 0); lia. }
    { destruct (partition =? 0); lia. }
    cbn [operations_of total_length map concat].
    split; [rewrite Hcnt, Hc1; destruct (partition =? 0); lia|].
    split.
    + rewrite Hd1 in Hext'.
      refine (extended_trans partition cnt c1 o o1 _ _ _ _ _ _ _ Hext Hext' _).
      rewrite Hc1. cbn [length]. destruct (partition =? 0); lia.
    + split; [lia|]. intros i Hi.
      destruct (Nat.eq_dec i j) as [->|Hne]; [assumption|]. apply Hall. lia.
Qed.

End Emissions.

(** ** Progress lines *)

Lemma emit_operation_log (sys : Sys) (config : PayloadGenerationConfig)
    (partition : Z) (p : ChunkProcessor) (cnt last : Z) (o : Outputs)
    (ok : bool) (cnt' last' : Z) (o' : Outputs) :
  emit_operation sys config partition p cnt last o = (ok, (cnt', last', o')) ->
  let progress := progress_of p (part_sizes config partition) in
  if ok && should_report last progress
  then last' = progress /\
       log o' = log o ++ [LogProgress progress (data_file_size o')]
  else last' = last /\ log o' = log o.
Proof.
  unfold emit_operation, new_operation, through_op, WriteAll.
  destruct (partition =? 0) eqn:Hp;
    cbn [graph kernel_ops final_order payload data_file_size log set_payload
         set_data_file_size add_log];
    (destruct (write_fault sys (payload o) (use_buf p)) as [k|] eqn:Hw;
     [|destruct (should_report last (progress_of p (part_sizes config partition)))]);
    intros H; injection H as <- <- <- <-;
    cbn [graph kernel_ops final_order payload data_file_size log set_payload
         set_data_file_size add_log andb];
    auto.
Qed.

Lemma should_report_reports (last progress : Z) :
  last < 100 -> should_report last progress = reports last progress.
Proof.
  intros Hlast. unfold should_report, reports.
  destruct (Z.ltb_spec last progress), (Z.leb_spec (last + 10) progress),
    (Z.eqb_spec progress 100); cbn; try reflexivity; lia.
Qed.

Section Progress.
Variable sys : Sys.
Variable config : PayloadGenerationConfig.
Variable partition in_fd : Z.
Hypothesis fit : sizes_fit config partition.
Hypothesis small : part_sizes config partition < 2 ^ 46.

Local Abbreviation P := (part_sizes config partition).
Local Abbreviation c := (chunk_size config).

(** For a chunk that was read in full, the percentage computed in binary64
    is the integer quotient of the specification; it is below 100 as long
    as chunks remain. *)
Lemma progress_of_worker (j : nat) :
  fst (worker sys config partition in_fd j) = true ->
  Z.of_nat j * c < P ->
  let w := snd (worker sys config partition in_fd j) in
  progress_of w P = reported_progress (offset_ w + Z.of_nat (length (buffer_in_ w))) P /\
  (Z.of_nat (S j) * c < P -> progress_of w P < 100).
Proof.
  intros Hok Hj. cbn zeta. destruct fit as (Hc & HP & Hmax).
  rewrite (worker_offset sys config partition in_fd j Hok).
  rewrite (worker_raw_size sys config partition in_fd j Hok).
  unfold progress_of.
  rewrite (worker_offset sys config partition in_fd j Hok).
  rewrite (worker_raw_size sys config partition in_fd j Hok).
  assert (Hnn : 0 <= Z.of_nat j * c) by (apply Z.mul_nonneg_nonneg; lia).
  set (x := Z.of_nat j * c + Z.of_nat (Z.to_nat (Z.min (P - Z.of_nat j * c) c))).
  assert (Hx : 0 < x <= P) by (unfold x; lia).
  rewrite to_size_t_id by (change (2 ^ 46) with 70368744177664 in small;
                           change (2 ^ 64) with 18446744073709551616; lia).
  rewrite double_progress_exact by assumption.
  split; [reflexivity|]. intros Hnext.
  apply Z.div_lt_upper_bound; [lia|]. unfold x. nia.
Qed.

(** The log after [n] successful emissions from chunk [j] on. *)
Lemma emit_range_log (n : nat) : forall (j : nat) (cnt last : Z) (o : Outputs),
  emits_ok sys config partition in_fd j n (cnt, last, o) = true ->
  Z.of_nat (j + n) * c < P + c ->
  0 <= data_file_size o ->
  data_file_size o + Z.of_nat n * c <= off_t_max ->
  0 <= cnt -> cnt + Z.of_nat n <= off_t_max ->
  Z.of_nat (length (graph o)) + Z.of_nat n <= 2 ^ 64 ->
  ((0 < n)%nat -> last < 100) ->
  log (snd (emit_range sys config partition in_fd j n (cnt, last, o)))
  = log o ++ progress_report P last (data_file_size o)
               (workers sys config partition in_fd j n).
Proof.
  pose proof fit as (Hcpos & HP & HPmax).
  induction n as [|n IH]; intros j cnt last o Hok Hjn Hd Hmax Hc Hcmax Hg Hlast.
  - cbn [emit_range workers seq map progress_report snd]. now rewrite app_nil_r.
  - cbn [emits_ok] in Hok.
    apply andb_true_iff in Hok. destruct Hok as [Hok Hrest].
    apply andb_true_iff in Hok. destruct Hok as [Hw Hemit].
    cbn [emit_range]. rewrite workers_S. cbn [progress_report].
    destruct (emit_chunk sys config partition in_fd j (cnt, last, o))
      as [ok1 [[c1 p1] o1]] eqn:E.
    cbn [fst snd] in Hemit, Hrest |- *. subst ok1.
    pose proof (worker_written_size sys config partition in_fd fit j Hw) as Hlen.
    assert (Hnc : 0 <= Z.of_nat n * c) by (apply Z.mul_nonneg_nonneg; lia).
    assert (Hj : Z.of_nat j * c < P) by nia.
    destruct (progress_of_worker j Hw Hj) as [Hprog Hbelow]. cbn zeta in Hprog.
    unfold emit_chunk in E.
    pose proof (emit_operation_log _ _ _ _ _ _ _ _ _ _ _ E) as Hlog.
    cbn zeta in Hlog. cbn [andb] in Hlog.
    apply emit_operation_extended in E; try lia.
    destruct E as (Hc1 & _ & Hext).
    pose proof (ext_data_file_size _ _ _ _ _ _ _ Hext) as Hd1.
    pose proof (ext_graph _ _ _ _ _ _ _ Hext) as Hg1.
    assert (Hlg : (length (graph o1) <= length (graph o) + 1)%nat).
    { rewrite Hg1, length_app. destruct (partition =? 0); simpl; lia. }
    rewrite should_report_reports in Hlog by (apply Hlast; lia).
    rewrite Hprog in Hlog.
    assert (Hnext : (0 < n)%nat ->
              reported_progress
                (offset_ (snd (worker sys config partition in_fd j)) +
                 Z.of_nat (length (buffer_in_ (snd (worker sys config partition in_fd j)))))
                P < 100).
    { intros Hn. rewrite <- Hprog. apply Hbelow. nia. }
    assert (Hjn' : Z.of_nat (S j + n) * c < P + c).
    { replace (S j + n)%nat with (j + S n)%nat by lia. assumption. }
    assert (Hc1' : 0 <= c1 /\ c1 + Z.of_nat n <= off_t_max).
    { destruct (partition =? 0); lia. }
    assert (Hlast' : (0 < n)%nat -> p1 < 100).
    { intros Hn. destruct (reports last _); destruct Hlog as [-> _].
      - now apply Hnext.
      - apply Hlast. lia. }
    rewrite (IH (S j) c1 p1 o1 Hrest Hjn' ltac:(lia) ltac:(lia) ltac:(lia) ltac:(lia)
               ltac:(lia) Hlast').
    rewrite Hd1.
    destruct (reports last _) eqn:Hrep; destruct Hlog as [-> Hl]; rewrite Hl.
    + rewrite Hd1, <- app_assoc. reflexivity.
    + reflexivity.
Qed.

End Progress.

(** ** One pass over a partition *)

Lemma operations_of_length (config : PayloadGenerationConfig) (ps : list ChunkProcessor) :
  forall dfs, length (operations_of config dfs ps) = length ps.
Proof. induction ps as [|p r IH]; intros; simpl; auto. Qed.

Lemma workers_length (sys : Sys) (config : PayloadGenerationConfig)
    (partition in_fd : Z) (j n : nat) :
  length (workers sys config partition in_fd j n) = n.
Proof. unfold workers. now rewrite length_map, length_seq. Qed.

Lemma extended_add_log (partition cnt : Z) (line : LogLine) (o o' : Outputs)
    (r : list InstallOperation) (b : Blob) (sz : Z) :
  extended partition cnt (add_log line o) r b sz o' -> extended partition cnt o r b sz o'.
Proof. intros [Hg Hk Hf Hd Hp]. split; assumption. Qed.

Lemma run_partition_pass (sys : Sys) (fuel : nat) (config : PayloadGenerationConfig)
    (partition : Z) (o : Outputs) (ok : bool) (o' : Outputs) :
  run_partition sys fuel config partition o = Returned ok o' ->
  sizes_fit config partition ->
  0 <= data_file_size o ->
  data_file_size o + part_sizes config partition + chunk_size config <= off_t_max ->
  Z.of_nat (length (graph o)) + part_sizes config partition + chunk_size config <= 2 ^ 64 ->
  exists n pend rest,
    partition_pass sys config partition ok o o' n pend rest /\
    (part_sizes config partition < 2 ^ 46 ->
     log o' =
     log o ++
     LogCompressing (paths config partition) ::
     progress_report (part_sizes config partition) INT_MIN (data_file_size o)
       (workers sys config partition (open_rdonly sys (paths config partition)) 0 n)).
Proof.
  intros Hrun Hfit Hd Hmax Hg. unfold run_partition in Hrun.
  pose proof Hfit as (Hc & HP & HPmax).
  set (in_fd := open_rdonly sys (paths config partition)) in *.
  destruct (0 <=? in_fd) eqn:Hfd.
  - destruct (partition_loop sys fuel config partition in_fd
                (Locals_init (part_sizes config partition))
                (add_log (LogCompressing (paths config partition)) o))
      as [ok1 [l2 o2]| |] eqn:Hloop; try discriminate.
    injection Hrun as <- <-.
    apply (partition_loop_trace sys config partition in_fd Hfit fuel 0 0) in Hloop;
      [|apply loop_inv_init; assumption].
    destruct Hloop as (n & Hok & Hn & Hres).
    cbn [counter last_progress_update Locals_init Nat.add] in Hok, Hn, Hres.
    assert (Hnn : Z.of_nat n <= Z.of_nat n * chunk_size config) by nia.
    destruct (emit_range_extended sys config partition in_fd Hfit n 0 0 INT_MIN _ Hok)
      as (Hcnt & Hext & Htot & Hall);
      cbn [data_file_size graph add_log]; try lia.
    cbn [data_file_size add_log] in Hext.
    assert (Hlog : part_sizes config partition < 2 ^ 46 ->
              log (snd (emit_range sys config partition in_fd 0 n
                          (0, INT_MIN,
                           add_log (LogCompressing (paths config partition)) o)))
              = log o ++
                LogCompressing (paths config partition) ::
                progress_report (part_sizes config partition) INT_MIN (data_file_size o)
                  (workers sys config partition in_fd 0 n)).
    { intros Hsmall.
      rewrite (emit_range_log sys config partition in_fd Hfit Hsmall n 0 0 INT_MIN _ Hok);
        cbn [data_file_size graph add_log log Nat.add]; try lia.
      - now rewrite <- app_assoc.
      - intros _. unfold INT_MIN. lia. }
    set (ws := workers sys config partition in_fd 0 n) in *.
    set (st := emit_range sys config partition in_fd 0 n
                 (0, INT_MIN, add_log (LogCompressing (paths config partition)) o)) in *.
    apply extended_add_log in Hext.
    destruct Hres as [(-> & Hfull & ->) | [(-> & ->) | (-> & Hlt & Hw & Hfail & ->)]].
    + exists n, [], []. split; [|exact Hlog].
      split; fold in_fd; fold ws; cbn zeta; rewrite ?app_nil_r; auto.
      intros i Hi. apply Hall. lia.
    + exists n, [], []. split; [|exact Hlog].
      split; fold in_fd; fold ws; cbn zeta; rewrite ?app_nil_r; auto.
      * intros i Hi. apply Hall. lia.
      * discriminate.
    + destruct st as [[cn ln] on] eqn:Hst. cbn [fst snd] in Hcnt, Hext, Hlog.
      destruct (emit_chunk sys config partition in_fd n (cn, ln, on))
        as [okn [[c1 p1] o1]] eqn:E.
      cbn [fst snd] in Hfail |- *. subst okn.
      unfold emit_chunk in E.
      pose proof (emit_operation_log _ _ _ _ _ _ _ _ _ _ _ E) as Hl1.
      cbn zeta in Hl1. cbn [andb] in Hl1. destruct Hl1 as [_ Hl1].
      pose proof (ext_data_file_size _ _ _ _ _ _ _ Hext) as Hdn.
      pose proof (ext_graph _ _ _ _ _ _ _ Hext) as Hgn.
      pose proof (ext_payload _ _ _ _ _ _ _ Hext) as Hpn.
      pose proof (worker_written_size sys config partition in_fd Hfit n Hw) as Hlen.
      assert (Hgl : (length (graph on) <= length (graph o) + n)%nat).
      { rewrite Hgn, length_app. destruct (partition =? 0); cbn [length]; [|lia].
        rewrite vertices_of_length, operations_of_length. unfold ws.
        rewrite workers_length. lia. }
      apply emit_operation_extended in E; try (destruct (partition =? 0); lia).
      destruct E as (_ & k & Hk & Hpend).
      exists n, [pending_operation (snd (worker sys config partition in_fd n))
                   (data_file_size o + total_length ws)],
             (firstn k (use_buf (snd (worker sys config partition in_fd n)))).
      split; [|rewrite Hl1; exact Hlog].
      split; fold in_fd; fold ws; cbn zeta; auto.
      * intros i Hi. apply Hall. lia.
      * rewrite Hdn in Hpend.
        replace (total_length ws) with (total_length ws + 0) at 2 by lia.
        eapply extended_trans; [exact Hext|exact Hpend|].
        rewrite Hcnt, operations_of_length. unfold ws. rewrite workers_length.
        destruct (partition =? 0); lia.
      * discriminate.
      * right. repeat split; auto. exists k. rewrite <- Hpn. auto.
  - injection Hrun as <- <-. exists 0%nat, [], [].
    split; [|intros _; reflexivity].
    split; fold in_fd; cbn [workers seq map concat operations_of total_length app];
      cbn zeta; auto; try lia.
    + split; cbn [graph kernel_ops final_order data_file_size payload add_log
                  vertices_of length seq map];
        destruct (partition =? 0); rewrite ?app_nil_r; auto; lia.
Qed.

(** ** The whole run *)

Lemma partition_pass_none (sys : Sys) (config : PayloadGenerationConfig)
    (partition : Z) (o : Outputs) :
  sizes_fit config partition ->
  partition_pass sys config partition false o o 0 [] [].
Proof.
  intros (Hc & HP & _).
  split; cbn [workers seq map concat operations_of total_length app]; cbn zeta;
    auto; try lia; try discriminate.
  apply extended_refl.
Qed.

Lemma run_fits_sizes (config : PayloadGenerationConfig) (o : Outputs) :
  run_fits config o -> sizes_fit config 0 /\ sizes_fit config 1.
Proof.
  unfold run_fits, sizes_fit, part_sizes. cbn [Z.eqb].
  intros (Hc & H0 & H1 & Hd & Hmax & Hg). repeat split; lia.
Qed.

Lemma progress_lines_app (a b : list LogLine) :
  progress_lines (a ++ b) = progress_lines a ++ progress_lines b.
Proof. apply filter_app. Qed.

Lemma progress_lines_report (ws : list ChunkProcessor) : forall P last dfs,
  progress_lines (progress_report P last dfs ws) = progress_report P last dfs ws.
Proof.
  induction ws as [|w r IH]; intros P last dfs; cbn [progress_report]; [reflexivity|].
  destruct (reports last _).
  - unfold progress_lines in *. cbn [filter is_progress]. now rewrite IH.
  - apply IH.
Qed.

(** A run is a pass over the root filesystem followed, when that pass
    succeeded, by a pass over the kernel. *)
Lemma Run_passes (sys : Sys) (fuel : nat) (config : PayloadGenerationConfig)
    (o : Outputs) (ok : bool) (o' : Outputs) :
  Run sys fuel config o = Returned ok o' ->
  run_fits config o ->
  exists mid ok0 n0 pend0 rest0 n1 pend1 rest1,
    partition_pass sys config 0 ok0 o mid n0 pend0 rest0 /\
    partition_pass sys config 1 ok mid o' n1 pend1 rest1 /\
    (ok0 = false -> ok = false /\ o' = mid /\ n1 = 0%nat /\ pend1 = [] /\ rest1 = []) /\
    (ok = true -> ok0 = true) /\
    (rootfs_size (target config) < 2 ^ 46 -> kernel_size (target config) < 2 ^ 46 ->
     progress_lines (log o') =
     progress_lines (log o) ++
     progress_report (rootfs_size (target config)) INT_MIN (data_file_size o)
       (workers sys config 0 (open_rdonly sys (paths config 0)) 0 n0) ++
     progress_report (kernel_size (target config)) INT_MIN (data_file_size mid)
       (workers sys config 1 (open_rdonly sys (paths config 1)) 0 n1)).
Proof.
  intros Hrun Hfits.
  destruct (run_fits_sizes _ _ Hfits) as (Hfit0 & Hfit1).
  destruct Hfits as (Hc & H0 & H1 & Hd & Hmax & Hg).
  unfold Run in Hrun.
  assert (Hnone : Returned false o = Returned ok o' ->
            exists mid ok0 n0 pend0 rest0 n1 pend1 rest1,
              partition_pass sys config 0 ok0 o mid n0 pend0 rest0 /\
              partition_pass sys config 1 ok mid o' n1 pend1 rest1 /\
              (ok0 = false -> ok = false /\ o' = mid /\ n1 = 0%nat /\ pend1 = [] /\ rest1 = []) /\
              (ok = true -> ok0 = true) /\
              (rootfs_size (target config) < 2 ^ 46 -> kernel_size (target config) < 2 ^ 46 ->
               progress_lines (log o') =
               progress_lines (log o) ++
               progress_report (rootfs_size (target config)) INT_MIN (data_file_size o)
                 (workers sys config 0 (open_rdonly sys (paths config 0)) 0 n0) ++
               progress_report (kernel_size (target config)) INT_MIN (data_file_size mid)
                 (workers sys config 1 (open_rdonly sys (paths config 1)) 0 n1))).
  { intros Hx. injection Hx as <- <-.
    exists o, false, 0%nat, [], [], 0%nat, [], [].
    split; [now apply partition_pass_none|].
    split; [now apply partition_pass_none|]. split; [auto|]. split; [discriminate|].
    intros _ _. cbn [workers seq map progress_report]. now rewrite !app_nil_r. }
  destruct (Validate sys config); [|now apply Hnone].
  destruct (0 <? chunk_size config); [|now apply Hnone].
  clear Hnone.
  destruct (run_partition sys fuel config 0
              (add_log (LogMaxThreads (max_threads sys)) o)) as [ok0 o2| |] eqn:Hp0;
    try discriminate.
  apply run_partition_pass in Hp0; try assumption;
    cbn [data_file_size graph add_log part_sizes Z.eqb]; unfold off_t_max in *; try lia.
  destruct Hp0 as (n0 & pend0 & rest0 & Hpass0 & Hlog0).
  cbn [part_sizes Z.eqb data_file_size add_log log] in Hlog0.
  assert (Hpass0' : partition_pass sys config 0 ok0 o o2 n0 pend0 rest0).
  { destruct Hpass0 as [Hw Hcount Hout Htot Hcomp Hpend]. split; auto.
    cbn zeta in *. now apply extended_add_log in Hout. }
  clear Hpass0.
  assert (Hlines0 : rootfs_size (target config) < 2 ^ 46 ->
            progress_lines (log o2) =
            progress_lines (log o) ++
            progress_report (rootfs_size (target config)) INT_MIN (data_file_size o)
              (workers sys config 0 (open_rdonly sys (paths config 0)) 0 n0)).
  { intros Hs. rewrite (Hlog0 Hs).
    change (LogCompressing (paths config 0) :: ?r) with ([LogCompressing (paths config 0)] ++ r).
    rewrite !progress_lines_app, progress_lines_report. cbn. now rewrite app_nil_r. }
  destruct ok0.
  - destruct (pass_complete _ _ _ _ _ _ _ _ _ Hpass0' eq_refl) as (Hfull & -> & ->).
    pose proof (pass_outputs _ _ _ _ _ _ _ _ _ Hpass0') as Hext. cbn zeta in Hext.
    pose proof (pass_total _ _ _ _ _ _ _ _ _ Hpass0') as Htot. cbn zeta in Htot.
    pose proof (pass_count _ _ _ _ _ _ _ _ _ Hpass0') as Hcount.
    cbn [part_sizes Z.eqb] in Hcount.
    pose proof (ext_data_file_size _ _ _ _ _ _ _ Hext) as Hd2.
    pose proof (ext_graph _ _ _ _ _ _ _ Hext) as Hg2.
    assert (Hgl : length (graph o2) = (length (graph o) + n0)%nat).
    { rewrite Hg2, length_app. cbn [Z.eqb].
      now rewrite vertices_of_length, app_nil_r, operations_of_length, workers_length. }
    assert (Hnn : Z.of_nat n0 <= Z.of_nat n0 * chunk_size config) by nia.
    apply run_partition_pass in Hrun; try assumption;
      cbn [part_sizes Z.eqb]; unfold off_t_max in *; try lia.
    destruct Hrun as (n1 & pend1 & rest1 & Hpass1 & Hlog1).
    cbn [part_sizes Z.eqb] in Hlog1.
    exists o2, true, n0, [], [], n1, pend1, rest1.
    split; [assumption|]. split; [assumption|]. split; [discriminate|].
    split; [auto|]. intros Hs0 Hs1. rewrite (Hlog1 Hs1).
    change (LogCompressing (paths config 1) :: ?r) with ([LogCompressing (paths config 1)] ++ r).
    rewrite !progress_lines_app, progress_lines_report, (Hlines0 Hs0). cbn.
    now rewrite <- app_assoc.
  - injection Hrun as <- <-.
    exists o2, false, n0, pend0, rest0, 0%nat, [], [].
    split; [assumption|]. split; [now apply partition_pass_none|].
    split; [auto|]. split; [discriminate|].
    intros Hs0 _. rewrite (Hlines0 Hs0). cbn [workers seq map progress_report].
    now rewrite app_nil_r.
Qed.

(** ** Termination *)

Lemma chunk_count_spec (P c : Z) (j : nat) :
  0 < c -> 0 <= P -> (Z.of_nat j * c < P <-> (j < chunk_count P c)%nat).
Proof.
  intros Hc HP. unfold chunk_count.
  pose proof (Z.div_mod (P + c - 1) c ltac:(lia)) as Hdm.
  pose proof (Z.mod_pos_bound (P + c - 1) c Hc) as Hmod.
  assert (Hq : 0 <= (P + c - 1) / c) by (apply Z.div_pos; lia).
  split; intros H.
  - apply Nat2Z.inj_lt. rewrite Z2Nat.id by assumption. nia.
  - apply Nat2Z.inj_lt in H. rewrite Z2Nat.id in H by assumption. nia.
Qed.

Lemma chunk_count_unique (P c : Z) (n : nat) :
  0 < c -> 0 <= P -> Z.of_nat n * c < P + c -> P <= Z.of_nat n * c ->
  n = chunk_count P c.
Proof.
  intros Hc HP Hlt Hge.
  assert (Hn : ~ (n < chunk_count P c)%nat).
  { intros Hn. apply (chunk_count_spec P c n Hc HP) in Hn. lia. }
  destruct n as [|n]; [lia|].
  assert (Hp : (n < chunk_count P c)%nat).
  { apply (chunk_count_spec P c n Hc HP). nia. }
  lia.
Qed.

Section Termination.
Variable sys : Sys.
Variable config : PayloadGenerationConfig.
Variable partition in_fd : Z.
Hypothesis fit : sizes_fit config partition.
Hypothesis room : 0 < max_threads sys.

Local Abbreviation P := (part_sizes config partition).
Local Abbreviation c := (chunk_size config).

Lemma start_processors_returns (fuel : nat) : forall (e s : nat) (l : Locals),
  loop_inv sys config partition in_fd e s l ->
  (chunk_count P c - s <= fuel)%nat ->
  exists ok l1, start_processors sys fuel config in_fd l = Returned ok l1.
Proof.
  destruct fit as (Hc & HP & Hmax).
  induction fuel as [|fuel IH]; intros e s l Hinv Hfuel.
  - simpl.
    destruct ((Z.of_nat (length (threads l)) <? max_threads sys) && (0 <? bytes_left l))
      eqn:Hcond; [|eauto].
    apply andb_true_iff in Hcond. destruct Hcond as [_ Hpos]. apply Z.ltb_lt in Hpos.
    destruct Hinv as [_ _ _ Hleft _]. rewrite Hleft in Hpos.
    assert (Hlt : Z.of_nat s * c < P) by lia.
    apply (chunk_count_spec P c s Hc HP) in Hlt. lia.
  - simpl.
    destruct ((Z.of_nat (length (threads l)) <? max_threads sys) && (0 <? bytes_left l))
      eqn:Hcond; [|eauto].
    apply andb_true_iff in Hcond. destruct Hcond as [_ Hpos]. apply Z.ltb_lt in Hpos.
    destruct Hinv as [Hord Hthr Hoff Hleft Hbound].
    rewrite (new_processor_is_chunk config partition in_fd fit s l Hoff Hleft Hpos).
    rewrite Start_chunk.
    destruct (g_thread_try_new sys in_fd (Z.of_nat s * c)); [|eauto].
    assert (Hnn : 0 <= Z.of_nat s * c) by (apply Z.mul_nonneg_nonneg; lia).
    apply (IH e (S s)); [|lia].
    split; cbn [threads offset bytes_left].
    + lia.
    + rewrite Hthr. apply queue_push. assumption.
    + rewrite Hoff. rewrite to_off_t_id; unfold off_t_max in *; lia.
    + rewrite Hleft. rewrite to_off_t_id; unfold off_t_max in *; lia.
    + lia.
Qed.

Lemma partition_loop_returns (fuel : nat) : forall (e s : nat) (l : Locals) (o : Outputs),
  loop_inv sys config partition in_fd e s l ->
  (chunk_count P c - e <= fuel)%nat ->
  exists ok l' o',
    partition_loop sys fuel config partition in_fd l o = Returned ok (l', o') /\
    (ok = true -> bytes_left l' <= 0 /\ threads l' = []).
Proof.
  pose proof fit as (Hc & HP & Hmax).
  induction fuel as [|fuel IH]; intros e s l o Hinv Hfuel.
  - simpl.
    destruct ((0 <? bytes_left l) || negb (Nat.eqb (length (threads l)) 0)) eqn:Hcond.
    + exfalso. destruct Hinv as [Hord Hthr Hoff Hleft Hbound].
      rewrite Hthr, length_map, length_seq, Hleft in Hcond.
      assert (Hlt : Z.of_nat e * c < P).
      { apply orb_true_iff in Hcond. destruct Hcond as [H|H].
        - apply Z.ltb_lt in H. nia.
        - apply negb_true_iff, Nat.eqb_neq in H. nia. }
      apply (chunk_count_spec P c e Hc HP) in Hlt. lia.
    + exists true, l, o. split; [reflexivity|]. intros _.
      apply orb_false_iff in Hcond. destruct Hcond as [Hb Hq].
      apply negb_false_iff, Nat.eqb_eq in Hq. apply Z.ltb_ge in Hb.
      split; [assumption|]. now apply length_zero_iff_nil.
  - cbn [partition_loop].
    destruct ((0 <? bytes_left l) || negb (Nat.eqb (length (threads l)) 0)) eqn:Hcond.
    + destruct (start_processors_returns (S fuel) e s l Hinv) as (ok1 & l1 & Hfill).
      { destruct Hinv as [Hord _ _ _ _]. lia. }
      rewrite Hfill. destruct ok1; [|exists false; eexists; eexists; split; [reflexivity|discriminate]].
      destruct (start_processors_inv sys config partition in_fd fit _ _ _ _ _ Hinv Hfill)
        as (s' & Hle & Hinv' & Hcnt & Hlast & Hstop).
      assert (Hes : (e < s')%nat).
      { destruct Hinv as [Hord Hthr Hoff Hleft Hbound].
        destruct Hinv' as [Hord' Hthr' Hoff' Hleft' Hbound'].
        rewrite Hthr, length_map, length_seq, Hleft in Hcond.
        rewrite Hthr', length_map, length_seq, Hleft' in Hstop.
        apply orb_true_iff in Hcond.
        destruct (Nat.eq_dec e s') as [->|Hne]; [exfalso|lia].
        assert (s = s') by lia. subst s.
        destruct Hcond as [H|H].
        - apply Z.ltb_lt in H. lia.
        - apply negb_true_iff, Nat.eqb_neq in H. lia. }
      pose proof Hinv' as [Hord' Hthr' Hoff' Hleft' Hbound'].
      destruct (s' - e)%nat as [|m] eqn:Hm; [lia|].
      rewrite Hthr'. cbn [seq map]. rewrite Wait_queued.
      destruct (fst (worker sys config partition in_fd e));
        [|exists false; eexists; eexists; split; [reflexivity|discriminate]].
      destruct (emit_operation sys config partition
                  (snd (worker sys config partition in_fd e))
                  (counter l1) (last_progress_update l1) o) as [[|] [[c1 p1] o1]];
        [|exists false; eexists; eexists; split; [reflexivity|discriminate]].
      apply (IH (S e) s').
      * split; cbn [threads offset bytes_left with_queue]; try assumption; try lia.
        replace (s' - S e)%nat with m by lia. reflexivity.
      * assert (Hlt : Z.of_nat e * c < P) by nia.
        apply (chunk_count_spec P c e Hc HP) in Hlt. lia.
    + exists true, l, o. split; [reflexivity|]. intros _.
      apply orb_false_iff in Hcond. destruct Hcond as [Hb Hq].
      apply negb_false_iff, Nat.eqb_eq in Hq. apply Z.ltb_ge in Hb.
      split; [assumption|]. now apply length_zero_iff_nil.
Qed.

End Termination.

Lemma skipn_length_app {A : Type} (a b : list A) : skipn (length a) (a ++ b) = b.
Proof. induction a; simpl; auto. Qed.

Lemma Run_records (sys : Sys) (fuel : nat) (config : PayloadGenerationConfig)
    (o : Outputs) (ok : bool) (o' : Outputs) :
  Run sys fuel config o = Returned ok o' ->
  run_fits config o ->
  exists n0 n1 pend0 pend1, run_records sys config ok o o' n0 n1 pend0 pend1.
Proof.
  intros Hrun Hfits.
  destruct (Run_passes _ _ _ _ _ _ Hrun Hfits)
    as (mid & ok0 & n0 & pend0 & rest0 & n1 & pend1 & rest1 & H0 & H1 & Hfail & Hok & Hlog).
  exists n0, n1, pend0, pend1.
  destruct H0 as [Hw0 Hc0 Hout0 Htot0 Hcomp0 Hpend0].
  destruct H1 as [Hw1 Hc1 Hout1 Htot1 Hcomp1 Hpend1].
  cbn zeta in *. fold (in_fd_of sys config 0) in *. fold (in_fd_of sys config 1) in *.
  cbn [part_sizes Z.eqb] in *.
  destruct Hout0 as [Hg0 Hk0 Hf0 Hd0 Hp0]. destruct Hout1 as [Hg1 Hk1 Hf1 Hd1 Hp1].
  cbn [Z.eqb] in *. rewrite app_nil_r in Hg1, Hk0, Hf1.
  set (ws0 := workers sys config 0 (in_fd_of sys config 0) 0 n0) in *.
  set (ws1 := workers sys config 1 (in_fd_of sys config 1) 0 n1) in *.
  split; fold ws0; fold ws1; auto.
  - unfold rootfs_operations. rewrite Hg1, Hg0, skipn_length_app.
    apply map_op_vertices_of.
  - unfold kernel_operations. rewrite Hk1, Hk0, skipn_length_app, Hd0. reflexivity.
  - now rewrite Hg1.
  - rewrite Hf1, Hf0, length_app, operations_of_length. unfold ws0.
    now rewrite workers_length.
  - lia.
  - intros ->. specialize (Hok eq_refl). subst ok0.
    destruct (Hcomp0 eq_refl) as (Hfull0 & -> & ->).
    destruct (Hcomp1 eq_refl) as (Hfull1 & -> & ->).
    repeat split; auto.
  - rewrite Hp1, Hp0, map_app, concat_app.
    destruct Hpend0 as [[-> ->] | (-> & _)].
    + exists rest1. rewrite app_nil_r, <- !app_assoc. split; [reflexivity|].
      intros ->. now destruct (Hcomp1 eq_refl) as (_ & _ & ->).
    + destruct (Hfail eq_refl) as (-> & _ & Hn1 & _ & ->).
      exists rest0. unfold ws1. rewrite Hn1. cbn [workers seq map concat].
      cbn [app]. rewrite !app_nil_r. split; [reflexivity|discriminate].
  - intros Hs0 Hs1. rewrite <- Hd0. now apply Hlog.
  - destruct Hpend0 as [[-> ->] | (-> & Hlt & Hw & -> & _)]; [now left|right].
    destruct (Hfail eq_refl) as (-> & -> & -> & -> & ->).
    repeat split; auto. rewrite Hd0. reflexivity.
  - destruct Hpend1 as [[-> ->] | (-> & Hlt & Hw & -> & _)]; [now left|right].
    repeat split; auto. rewrite Hd1, Hd0. reflexivity.
Qed.

Lemma run_partition_returns (sys : Sys) (fuel : nat) (config : PayloadGenerationConfig)
    (partition : Z) (o : Outputs) :
  sizes_fit config partition ->
  0 < max_threads sys ->
  (chunk_count (part_sizes config partition) (chunk_size config) <= fuel)%nat ->
  exists ok o', run_partition sys fuel config partition o = Returned ok o'.
Proof.
  intros Hfit Hroom Hfuel. unfold run_partition.
  destruct (0 <=? open_rdonly sys (paths config partition)); [|eauto].
  destruct (partition_loop_returns sys config partition
              (open_rdonly sys (paths config partition)) Hfit Hroom fuel 0 0
              (Locals_init (part_sizes config partition))
              (add_log (LogCompressing (paths config partition)) o))
    as (ok & l' & o' & Hrun & _).
  - apply loop_inv_init. assumption.
  - lia.
  - rewrite Hrun. eauto.
Qed.

(** With one unit of fuel per chunk of the larger partition, [Run] returns. *)
Lemma Run_returns (sys : Sys) (fuel : nat) (config : PayloadGenerationConfig)
    (o : Outputs) :
  run_fits config o ->
  sysconf_nprocessors_onln sys < 2 ^ 63 ->
  (chunk_count (rootfs_size (target config)) (chunk_size config) <= fuel)%nat ->
  (chunk_count (kernel_size (target config)) (chunk_size config) <= fuel)%nat ->
  exists ok o', Run sys fuel config o = Returned ok o'.
Proof.
  intros Hfits Hsys Hf0 Hf1.
  destruct (run_fits_sizes _ _ Hfits) as (Hfit0 & Hfit1).
  assert (Hroom : 0 < max_threads sys).
  { pose proof (max_threads_ge_4 sys ltac:(lia)). lia. }
  unfold Run.
  destruct (Validate sys config); [|eauto].
  destruct (0 <? chunk_size config); [|eauto].
  destruct (run_partition_returns sys fuel config 0
              (add_log (LogMaxThreads (max_threads sys)) o) Hfit0 Hroom Hf0)
    as (ok0 & o2 & H0).
  rewrite H0. destruct ok0; [|eauto].
  apply run_partition_returns; assumption.
Qed.

Lemma nth_error_workers (sys : Sys) (config : PayloadGenerationConfig)
    (partition in_fd : Z) (j n i : nat) :
  (i < n)%nat ->
  nth_error (workers sys config partition in_fd j n) i
  = Some (snd (worker sys config partition in_fd (j + i))).
Proof.
  intros Hi. unfold workers.
  rewrite nth_error_map, nth_error_seq.
  destruct (Nat.ltb_spec i n); [reflexivity|lia].
Qed.


Lemma operations_of_nth_error (config : PayloadGenerationConfig)
    (ps : list ChunkProcessor) : forall (d : Z) (i : nat) (x : InstallOperation),
  nth_error (operations_of config d ps) i = Some x ->
  exists w d', nth_error ps i = Some w /\ x = operation_of config w d'.
Proof.
  induction ps as [|p r IH]; intros d i x Hi.
  - destruct i; discriminate.
  - destruct i as [|i]; cbn [nth_error operations_of] in *.
    + injection Hi as <-. eauto.
    + eapply IH. eassumption.
Qed.

(** ** Data offsets along the operations *)

Lemma operations_of_app (config : PayloadGenerationConfig) (a b : list ChunkProcessor) :
  forall d,
  operations_of config d (a ++ b)
  = operations_of config d a ++ operations_of config (d + total_length a) b.
Proof.
  induction a as [|p r IH]; intros d; cbn [app operations_of total_length].
  - now rewrite Z.add_0_r.
  - rewrite IH. now rewrite Z.add_assoc.
Qed.

Lemma total_length_app (a b : list ChunkProcessor) :
  total_length (a ++ b) = total_length a + total_length b.
Proof. induction a as [|p r IH]; cbn [app total_length]; lia. Qed.

Lemma total_length_concat (ps : list ChunkProcessor) :
  total_length ps = Z.of_nat (length (concat (map use_buf ps))).
Proof.
  induction ps as [|p r IH]; cbn [map concat total_length]; [reflexivity|].
  rewrite length_app. lia.
Qed.

(** Completed operations written from [d] on, possibly followed by the
    record of a failed write: each starts where the previous one ends. *)
Lemma operations_chain (config : PayloadGenerationConfig) (ps : list ChunkProcessor) :
  forall (d : Z) (pend : list InstallOperation),
  Forall (fun w => (0 < length (use_buf w))%nat) ps ->
  pend = [] \/ (exists w, pend = [pending_operation w (d + total_length ps)]) ->
  let ops := operations_of config d ps ++ pend in
  (forall x, nth_error ops 0 = Some x -> data_offset x = Some d) /\
  (forall i a b, nth_error ops i = Some a -> nth_error ops (S i) = Some b ->
     exists off len, data_offset a = Some off /\ data_length a = Some len /\
       0 < len /\ data_offset b = Some (off + len)) /\
  (forall i a, nth_error ops i = Some a -> nth_error ops (S i) = None ->
     exists off, data_offset a = Some off /\
       d + total_length ps = off + match data_length a with Some len => len | None => 0 end).
Proof.
  induction ps as [|p r IH]; intros d pend Hpos Hpend; cbn zeta.
  - cbn [operations_of total_length app].
    destruct Hpend as [-> | (w & ->)].
    + split; [|split].
      * intros x Hx. discriminate.
      * intros i a b Ha. destruct i; discriminate.
      * intros i a Ha. destruct i; discriminate.
    + rewrite Z.add_0_r. split; [|split].
      * intros x Hx. injection Hx as <-. reflexivity.
      * intros i a b _ Hb. destruct i; discriminate.
      * intros i a Ha _. destruct i as [|i]; [|destruct i; discriminate].
        injection Ha as <-. cbn. exists d. split; [reflexivity|lia].
  - cbn [operations_of total_length app].
    inversion Hpos as [|? ? Hp Hr]; subst.
    destruct (IH (d + Z.of_nat (length (use_buf p))) pend Hr) as (Hfirst & Hpairs & Hlast).
    { destruct Hpend as [-> | (w & ->)]; [now left|right].
      exists w. cbn [total_length]. now rewrite Z.add_assoc. }
    split; [|split].
    + intros x Hx. injection Hx as <-. reflexivity.
    + intros i a b Ha Hb. destruct i as [|i].
      * cbn [nth_error] in Ha, Hb. injection Ha as <-.
        exists d, (Z.of_nat (length (use_buf p))). cbn [operation_of data_offset data_length].
        repeat split; [lia|]. now apply Hfirst.
      * cbn [nth_error] in Ha, Hb. now apply (Hpairs i).
    + intros i a Ha Hn. destruct i as [|i].
      * cbn [nth_error] in Ha, Hn. injection Ha as <-.
        destruct (operations_of config (d + Z.of_nat (length (use_buf p))) r ++ pend)
          as [|y ys] eqn:Hrest; [|discriminate].
        apply app_eq_nil in Hrest. destruct Hrest as [Hr0 ->].
        assert (r = []) as -> by (destruct r; [reflexivity|discriminate]).
        exists d. cbn. split; [reflexivity|lia].
      * cbn [nth_error] in Ha, Hn. destruct (Hlast i a Ha Hn) as (off & Ho & He).
        exists off. split; [assumption|]. cbn [total_length]. lia.
Qed.

Section Written.
Variable sys : Sys.
Variable config : PayloadGenerationConfig.
Variable partition in_fd : Z.
Hypothesis fit : sizes_fit config partition.
Hypothesis nonempty : compress_nonempty sys.

(** A chunk that exists and was read and compressed gives bytes to write. *)
Lemma worker_writes_something (j : nat) :
  Z.of_nat j * chunk_size config < part_sizes config partition ->
  fst (worker sys config partition in_fd j) = true ->
  (0 < length (use_buf (snd (worker sys config partition in_fd j))))%nat.
Proof.
  intros Hj Hok. destruct fit as (Hc & HP & Hmax).
  pose proof (worker_raw_size sys config partition in_fd j Hok) as Hraw.
  unfold worker in *.
  destruct (ReadAndCompress sys (chunk_processor config partition in_fd j))
    as [r p'] eqn:E.
  cbn [fst snd] in *. subst r. apply ReadAndCompress_true in E.
  destruct E as (_ & _ & Hz & _).
  assert (Hin : (0 < length (buffer_in_ p'))%nat) by lia.
  unfold use_buf. destruct (ShouldCompress p'); [|assumption].
  destruct (buffer_compressed_ p') as [|b z] eqn:Hbz; [|simpl; lia].
  exfalso. apply (nonempty _ _ Hz); [|reflexivity].
  intros Hnil. rewrite Hnil in Hin. simpl in Hin. lia.
Qed.

Lemma workers_write_something (n : nat) :
  Z.of_nat n * chunk_size config < part_sizes config partition + chunk_size config ->
  (forall i, (i < n)%nat -> fst (worker sys config partition in_fd i) = true) ->
  Forall (fun w => (0 < length (use_buf w))%nat)
    (workers sys config partition in_fd 0 n).
Proof.
  intros Hn Hok. unfold workers. apply Forall_map, Forall_forall.
  intros i Hi. apply in_seq in Hi. apply worker_writes_something.
  - destruct fit as (Hc & _). nia.
  - apply Hok. lia.
Qed.

End Written.

(** The operations of both partitions, in the order of emission, are those
    of a list of processors that all gave bytes to write. *)
Lemma Run_operations (sys : Sys) (fuel : nat) (config : PayloadGenerationConfig)
    (o : Outputs) (ok : bool) (o' : Outputs) :
  Run sys fuel config o = Returned ok o' ->
  run_fits config o ->
  compress_nonempty sys ->
  exists ws pend,
    rootfs_operations o o' ++ kernel_operations o o'
    = operations_of config (data_file_size o) ws ++ pend /\
    Forall (fun w => (0 < length (use_buf w))%nat) ws /\
    (pend = [] \/
     exists w, pend = [pending_operation w (data_file_size o + total_length ws)]) /\
    data_file_size o' = data_file_size o + total_length ws /\
    (ok = true -> payload o' = payload o ++ concat (map use_buf ws)).
Proof.
  intros Hrun Hfits Hne.
  destruct (run_fits_sizes _ _ Hfits) as (Hfit0 & Hfit1).
  destruct (Run_records _ _ _ _ _ _ Hrun Hfits) as (n0 & n1 & pend0 & pend1 & R).
  destruct R as [Hr Hk Hg Hf Hd Hw0 Hw1 Hc0 Hc1 Hcomp Hpay Hprog Hp0 Hp1].
  set (ws0 := workers sys config 0 (in_fd_of sys config 0) 0 n0) in *.
  set (ws1 := workers sys config 1 (in_fd_of sys config 1) 0 n1) in *.
  assert (Hpos0 : Forall (fun w => (0 < length (use_buf w))%nat) ws0).
  { apply workers_write_something; assumption. }
  assert (Hpos1 : Forall (fun w => (0 < length (use_buf w))%nat) ws1).
  { apply workers_write_something; assumption. }
  destruct Hpay as (rest & Hpay & Hrest).
  destruct Hp0 as [-> | (-> & Hn1 & -> & _ & _ & ->)].
  - exists (ws0 ++ ws1), pend1.
    rewrite Hr, Hk, app_nil_r, operations_of_app, total_length_app, app_assoc.
    split; [reflexivity|]. split; [now apply Forall_app|].
    split; [|split; [lia|]].
    + destruct Hp1 as [-> | (_ & _ & _ & ->)]; [now left|right].
      eexists. rewrite Hd, Z.add_assoc. reflexivity.
    + intros Hok. rewrite Hpay, (Hrest Hok). now rewrite app_nil_r.
  - exists ws0, [pending_operation (snd (worker sys config 0 (in_fd_of sys config 0) n0))
                   (data_file_size o')].
    rewrite Hr, Hk. unfold ws1 in *. rewrite Hn1 in *.
    cbn [workers seq map operations_of total_length app] in *.
    rewrite app_nil_r. split; [reflexivity|]. split; [assumption|].
    split; [|split; [lia|discriminate]].
    right. eexists. rewrite Hd, Z.add_0_r. reflexivity.
Qed.

(** ** The scenarios *)

Lemma pack_nonempty : compress_nonempty Scenario.sys.
Proof.
  intros b z Hz Hb. cbn in Hz. unfold Scenario.pack in Hz.
  destruct b as [|x r]; [contradiction|].
  destruct (forallb (Byte.eqb x) r); injection Hz as <-; discriminate.
Qed.

Example scenario_of_the_specification :
  exists o',
    Run Scenario.sys_40 4 Scenario.config_40 Scenario.empty = Returned true o' /\
    map (fun v => type (op v)) (graph o') = [Some REPLACE; Some REPLACE; Some REPLACE; Some REPLACE] /\
    map (fun v => data_offset (op v)) (graph o') = [Some 0; Some 10; Some 20; Some 30] /\
    map (fun v => dst_extents (op v)) (graph o')
    = [ [ {| start_block := 0; num_blocks := 1 |} ]; [ {| start_block := 1; num_blocks := 1 |} ];
        [ {| start_block := 2; num_blocks := 1 |} ]; [ {| start_block := 3; num_blocks := 1 |} ] ] /\
    final_order o' = [0; 1; 2; 3] /\ data_file_size o' = 40.
Proof. eexists. vm_compute. repeat split; reflexivity. Qed.

Lemma scenario_run :
  Run Scenario.sys 6 Scenario.config Scenario.empty = Returned true Scenario.final.
Proof. vm_compute. reflexivity. Qed.

(** ** The choice between the raw and the compressed buffer *)

(** What the code writes, [use_buf], is the buffer the specification
    calls chosen. *)
Lemma use_buf_chosen (w : ChunkProcessor) : use_buf w = chosen w.
Proof.
  unfold use_buf, ShouldCompress, chosen, chosen_buffer.
  destruct (Nat.ltb_spec (length (buffer_compressed_ w)) (length (buffer_in_ w)));
    reflexivity.
Qed.

Lemma map_use_buf_chosen (ws : list ChunkProcessor) : map use_buf ws = map chosen ws.
Proof. apply map_ext. exact use_buf_chosen. Qed.

Lemma operation_of_choice (sys : Sys) (config : PayloadGenerationConfig)
    (w : ChunkProcessor) (d : Z) :
  BzipCompress sys (buffer_in_ w) = Some (buffer_compressed_ w) ->
  records_choice sys (operation_of config w d) w.
Proof.
  intros Hz. unfold records_choice, operation_of. cbn [type data_length].
  rewrite use_buf_chosen. unfold chosen, chosen_buffer, ShouldCompress.
  split; [assumption|].
  destruct (Nat.ltb_spec (length (buffer_compressed_ w)) (length (buffer_in_ w))) as [H|H].
  - repeat split; auto; try lia; intros; discriminate.
  - repeat split; auto; try lia; intros; discriminate.
Qed.

Lemma operations_of_choice (sys : Sys) (config : PayloadGenerationConfig)
    (ws : list ChunkProcessor) : forall d,
  Forall (fun w => BzipCompress sys (buffer_in_ w) = Some (buffer_compressed_ w)) ws ->
  Forall2 (records_choice sys) (operations_of config d ws) ws.
Proof.
  induction ws as [|w r IH]; intros d Hall; cbn [operations_of]; constructor.
  - apply operation_of_choice. now inversion Hall.
  - apply IH. now inversion Hall.
Qed.

Lemma workers_compressed (sys : Sys) (config : PayloadGenerationConfig)
    (partition in_fd : Z) (n : nat) :
  (forall i, (i < n)%nat -> fst (worker sys config partition in_fd i) = true) ->
  Forall (fun w => BzipCompress sys (buffer_in_ w) = Some (buffer_compressed_ w))
    (workers sys config partition in_fd 0 n).
Proof.
  intros Hok. unfold workers. apply Forall_map, Forall_forall.
  intros i Hi. apply in_seq in Hi. specialize (Hok i ltac:(lia)).
  unfold worker in *.
  destruct (ReadAndCompress sys (chunk_processor config partition in_fd i)) as [r p'] eqn:E.
  cbn [fst snd] in *. subst r. apply ReadAndCompress_true in E. tauto.
Qed.

Lemma firstn_length_app {A : Type} (a b : list A) : firstn (length a) (a ++ b) = a.
Proof. induction a; simpl; [destruct b|f_equal]; auto. Qed.

(** ** Vertices and their labels *)


Example rootfs_operation_name_0 : rootfs_operation_name 0 = "<rootfs-operation-0>"%string.
Proof. reflexivity. Qed.

Example rootfs_operation_name_12 : rootfs_operation_name 12 = "<rootfs-operation-12>"%string.
Proof. reflexivity. Qed.

(** ** Completed operations *)

Lemma filter_completed_operations_of (config : PayloadGenerationConfig)
    (ws : list ChunkProcessor) : forall d,
  filter is_completed (operations_of config d ws) = operations_of config d ws.
Proof.
  induction ws as [|w r IH]; intros d; cbn [operations_of filter]; [reflexivity|].
  cbn [is_completed operation_of data_length]. now rewrite IH.
Qed.

(** Among the records of a partition, the completed ones are those of the
    chunks whose write went through. *)
Lemma filter_completed_records (config : PayloadGenerationConfig)
    (ws : list ChunkProcessor) (d : Z) (pend : list InstallOperation) :
  pend = [] \/ (exists w d', pend = [pending_operation w d']) ->
  filter is_completed (operations_of config d ws ++ pend) = operations_of config d ws.
Proof.
  intros Hpend. rewrite filter_app, filter_completed_operations_of.
  destruct Hpend as [-> | (w & d' & ->)]; cbn; apply app_nil_r.
Qed.

(** * The claims *)

(** C10.  With a positive chunk size and partition sizes that fit in
    [off_t], the scheduling loop of a partition terminates: one unit of
    fuel per chunk is enough for it to return, and when it returns
    normally no bytes are left and the queue is empty.  The measure is the
    number of chunks not yet emitted: a step of the inner loop either
    makes [Run] fail or takes [chunk_size] off [bytes_left] and queues one
    processor; an iteration of the outer loop either makes [Run] fail or
    goes on with the queue less its front; and with no bytes left and an
    empty queue the loop returns at once. *)
Theorem partition_loop_terminates (sys : Sys) (config : PayloadGenerationConfig)
    (partition in_fd : Z) (o : Outputs) (fuel : nat) :
  sizes_fit config partition ->
  0 < block_size config ->
  sysconf_nprocessors_onln sys < 2 ^ 63 ->
  (chunk_count (part_sizes config partition) (chunk_size config) <= fuel)%nat ->
  (exists ok l' o',
     partition_loop sys fuel config partition in_fd
       (Locals_init (part_sizes config partition)) o = Returned ok (l', o') /\
     (ok = true -> bytes_left l' <= 0 /\ threads l' = [])) /\
  (forall f l,
     Z.of_nat (length (threads l)) < max_threads sys ->
     0 < bytes_left l <= off_t_max ->
     (exists l1, start_processors sys (S f) config in_fd l = Returned false l1) \/
     (exists l1,
        start_processors sys (S f) config in_fd l = start_processors sys f config in_fd l1 /\
        bytes_left l1 = bytes_left l - chunk_size config /\
        length (threads l1) = S (length (threads l)))) /\
  (forall f l o1 l1 front rest,
     (0 <? bytes_left l) || negb (Nat.eqb (length (threads l)) 0) = true ->
     start_processors sys (S f) config in_fd l = Returned true l1 ->
     threads l1 = front :: rest ->
     (exists r, partition_loop sys (S f) config partition in_fd l o1 = Returned false r) \/
     (exists l2 o2,
        partition_loop sys (S f) config partition in_fd l o1
        = partition_loop sys f config partition in_fd l2 o2 /\
        threads l2 = rest /\ bytes_left l2 = bytes_left l1)) /\
  (forall f l o1,
     bytes_left l <= 0 -> threads l = [] ->
     partition_loop sys f config partition in_fd l o1 = Returned true (l, o1)).
Proof.
  intros Hfit Hblock Hsys Hfuel.
  assert (Hroom : 0 < max_threads sys).
  { pose proof (max_threads_ge_4 sys ltac:(lia)). lia. }
  split; [|split; [|split]].
  - apply (partition_loop_returns sys config partition in_fd Hfit Hroom fuel 0 0).
    + apply loop_inv_init. assumption.
    + lia.
  - intros f l Hq Hb. destruct Hfit as (Hc & HP & Hmax).
    cbn [start_processors].
    replace ((Z.of_nat (length (threads l)) <? max_threads sys) && (0 <? bytes_left l))
      with true by (symmetry; apply andb_true_iff; split; apply Z.ltb_lt; lia).
    destruct (Start sys _) as [started processor'].
    destruct started; [right|left; eauto].
    eexists. split; [reflexivity|]. cbn [bytes_left threads].
    split; [apply to_off_t_id; unfold off_t_max in *; lia|].
    rewrite length_app. cbn [length]. lia.
  - intros f l o1 l1 front rest Hcond Hfill Hq.
    cbn [partition_loop]. rewrite Hcond, Hfill, Hq.
    destruct (Wait front) as [waited processor].
    destruct waited; [|left; eauto].
    destruct (emit_operation sys config partition processor (counter l1)
                (last_progress_update l1) o1) as [[|] [[c1 p1] o2]]; [right|left; eauto].
    eexists. exists o2. split; [reflexivity|]. split; reflexivity.
  - intros f l o1 Hb Hq.
    destruct f; cbn [partition_loop]; rewrite Hq; cbn [length Nat.eqb negb orb];
      replace (0 <? bytes_left l) with false by (symmetry; apply Z.ltb_ge; lia);
      reflexivity.
Qed.

Lemma partition_loop_terminates_witness :
  (exists ok l' o',
     partition_loop Scenario.sys 6 Scenario.config 0 3
       (Locals_init (part_sizes Scenario.config 0)) Scenario.empty
     = Returned ok (l', o') /\
     (ok = true -> bytes_left l' <= 0 /\ threads l' = [])) /\
  (forall f l,
     Z.of_nat (length (threads l)) < max_threads Scenario.sys ->
     0 < bytes_left l <= off_t_max ->
     (exists l1, start_processors Scenario.sys (S f) Scenario.config 3 l = Returned false l1) \/
     (exists l1,
        start_processors Scenario.sys (S f) Scenario.config 3 l
        = start_processors Scenario.sys f Scenario.config 3 l1 /\
        bytes_left l1 = bytes_left l - chunk_size Scenario.config /\
        length (threads l1) = S (length (threads l)))) /\
  (forall f l o1 l1 front rest,
     (0 <? bytes_left l) || negb (Nat.eqb (length (threads l)) 0) = true ->
     start_processors Scenario.sys (S f) Scenario.config 3 l = Returned true l1 ->
     threads l1 = front :: rest ->
     (exists r, partition_loop Scenario.sys (S f) Scenario.config 0 3 l o1 = Returned false r) \/
     (exists l2 o2,
        partition_loop Scenario.sys (S f) Scenario.config 0 3 l o1
        = partition_loop Scenario.sys f Scenario.config 0 3 l2 o2 /\
        threads l2 = rest /\ bytes_left l2 = bytes_left l1)) /\
  (forall f l o1,
     bytes_left l <= 0 -> threads l = [] ->
     partition_loop Scenario.sys f Scenario.config 0 3 l o1 = Returned true (l, o1)).
Proof.
  apply (partition_loop_terminates Scenario.sys Scenario.config 0 3 Scenario.empty 6).
  - unfold sizes_fit, off_t_max. cbn. lia.
  - cbn. lia.
  - cbn. lia.
  - vm_compute. lia.
Defined.



(** C3.  [Run] returns, and every completed operation it leaves (all of
    them after a successful run) has exactly one destination extent, with
    [start_block = chunk_offset / block_size], the [i]-th chunk sitting at
    offset [i * chunk_size], and [num_blocks = chunk_size / block_size]:
    the nominal chunk size, also for a final chunk that is shorter. *)
Theorem destination_extent_of_each_operation (sys : Sys) (fuel : nat)
    (config : PayloadGenerationConfig) (o : Outputs) :
  run_fits config o ->
  0 < block_size config ->
  sysconf_nprocessors_onln sys < 2 ^ 63 ->
  (chunk_count (rootfs_size (target config)) (chunk_size config) <= fuel)%nat ->
  (chunk_count (kernel_size (target config)) (chunk_size config) <= fuel)%nat ->
  exists ok o',
    Run sys fuel config o = Returned ok o' /\
    forall partition, partition = 0 \/ partition = 1 ->
      let ops := if partition =? 0 then rootfs_operations o o' else kernel_operations o o' in
      forall i x, nth_error ops i = Some x ->
        ok = true \/ data_length x <> None ->
        dst_extents x =
        [ {| start_block := Z.of_nat i * chunk_size config / block_size config;
             num_blocks := chunk_size config / block_size config |} ].
Proof.
  intros Hfits Hbs Hsys Hfuel0 Hfuel1.
  destruct (Run_returns sys fuel config o Hfits Hsys Hfuel0 Hfuel1) as (ok & o' & Hrun).
  exists ok, o'. split; [exact Hrun|].
  destruct (run_fits_sizes _ _ Hfits) as (Hfit0 & Hfit1).
  destruct (Run_records _ _ _ _ _ _ Hrun Hfits) as (n0 & n1 & pend0 & pend1 & R).
  pose proof (rec_rootfs _ _ _ _ _ _ _ _ _ R) as Hr.
  pose proof (rec_kernel _ _ _ _ _ _ _ _ _ R) as Hkn.
  pose proof (rec_workers0 _ _ _ _ _ _ _ _ _ R) as Hw0.
  pose proof (rec_workers1 _ _ _ _ _ _ _ _ _ R) as Hw1.
  pose proof (rec_pending0 _ _ _ _ _ _ _ _ _ R) as Hp0.
  pose proof (rec_pending1 _ _ _ _ _ _ _ _ _ R) as Hp1.
  assert (Hgen : forall partition n d pend ops,
            sizes_fit config partition ->
            ops = operations_of config d
                    (workers sys config partition (in_fd_of sys config partition) 0 n) ++ pend ->
            (forall i, (i < n)%nat ->
               fst (worker sys config partition (in_fd_of sys config partition) i) = true) ->
            (pend = [] \/ ok = false /\ exists w d', pend = [pending_operation w d']) ->
            forall i x, nth_error ops i = Some x ->
              ok = true \/ data_length x <> None ->
              dst_extents x =
              [ {| start_block := Z.of_nat i * chunk_size config / block_size config;
                   num_blocks := chunk_size config / block_size config |} ]).
  { intros partition n d pend ops Hfit -> Hw Hpend i x Hi Hdone.
    destruct (Nat.lt_ge_cases i n) as [Hlt|Hge].
    - rewrite nth_error_app1 in Hi by now rewrite operations_of_length, workers_length.
      apply operations_of_nth_error in Hi. destruct Hi as (w & d' & Hnth & ->).
      rewrite nth_error_workers in Hnth by assumption. injection Hnth as <-.
      cbn [dst_extents operation_of Nat.add].
      rewrite (worker_offset sys config partition _ i) by now apply Hw.
      reflexivity.
    - rewrite nth_error_app2 in Hi by now rewrite operations_of_length, workers_length.
      rewrite operations_of_length, workers_length in Hi.
      destruct Hpend as [-> | (-> & w & d' & ->)].
      + destruct (i - n)%nat; discriminate.
      + destruct (i - n)%nat as [|m]; [|destruct m; discriminate].
        injection Hi as <-. destruct Hdone as [Hd|Hd]; [discriminate|].
        exfalso. apply Hd. reflexivity. }
  intros partition [-> | ->]; cbn [Z.eqb].
  - apply (Hgen 0 n0 _ pend0 _ Hfit0 Hr Hw0).
    destruct Hp0 as [->|(-> & _ & _ & _ & _ & ->)]; [now left|right; eauto].
  - apply (Hgen 1 n1 _ pend1 _ Hfit1 Hkn Hw1).
    destruct Hp1 as [->|(-> & _ & _ & ->)]; [now left|right; eauto].
Qed.

Lemma destination_extent_of_each_operation_witness :
  exists ok o',
    Run Scenario.sys 6 Scenario.config Scenario.empty = Returned ok o' /\
    forall partition, partition = 0 \/ partition = 1 ->
      let ops := if partition =? 0 then rootfs_operations Scenario.empty o'
                 else kernel_operations Scenario.empty o' in
      forall i x, nth_error ops i = Some x ->
        ok = true \/ data_length x <> None ->
        dst_extents x =
        [ {| start_block := Z.of_nat i * 10 / 5; num_blocks := 10 / 5 |} ].
Proof.
  apply (destination_extent_of_each_operation Scenario.sys 6 Scenario.config Scenario.empty).
  - unfold run_fits, off_t_max. cbn. lia.
  - cbn. lia.
  - cbn. lia.
  - vm_compute. lia.
  - vm_compute. lia.
Defined.

(** C1.  [Run] returns, and the operations it leaves, those of the root
    filesystem followed by those of the kernel, have contiguous, strictly
    increasing data offsets: the first one starts at the initial
    [data_file_size], each next one starts where the previous one ends
    ([data_offset + data_length], a positive length), and the last one ends
    at the final [data_file_size]; after a successful run the cursor has
    advanced by the number of bytes written to the payload. *)
Theorem data_offsets_contiguous (sys : Sys) (fuel : nat)
    (config : PayloadGenerationConfig) (o : Outputs) :
  run_fits config o ->
  0 < block_size config ->
  compress_nonempty sys ->
  sysconf_nprocessors_onln sys < 2 ^ 63 ->
  (chunk_count (rootfs_size (target config)) (chunk_size config) <= fuel)%nat ->
  (chunk_count (kernel_size (target config)) (chunk_size config) <= fuel)%nat ->
  exists ok o',
    Run sys fuel config o = Returned ok o' /\
    let ops := rootfs_operations o o' ++ kernel_operations o o' in
    (forall x, nth_error ops 0 = Some x -> data_offset x = Some (data_file_size o)) /\
    (forall i a b, nth_error ops i = Some a -> nth_error ops (S i) = Some b ->
       exists off len, data_offset a = Some off /\ data_length a = Some len /\
         0 < len /\ data_offset b = Some (off + len)) /\
    (forall i a, nth_error ops i = Some a -> nth_error ops (S i) = None ->
       exists off, data_offset a = Some off /\
         data_file_size o' =
         off + match data_length a with Some len => len | None => 0 end) /\
    (ok = true ->
     data_file_size o' =
     data_file_size o + (Z.of_nat (length (payload o')) - Z.of_nat (length (payload o)))).
Proof.
  intros Hfits Hblock Hne Hsys Hfuel0 Hfuel1.
  destruct (Run_returns sys fuel config o Hfits Hsys Hfuel0 Hfuel1) as (ok & o' & Hrun).
  exists ok, o'. split; [exact Hrun|].
  destruct (Run_operations _ _ _ _ _ _ Hrun Hfits Hne)
    as (ws & pend & Hops & Hpos & Hpend & Hd & Hpay).
  cbn zeta. rewrite Hops, Hd.
  destruct (operations_chain config ws (data_file_size o) pend Hpos Hpend)
    as (Hfirst & Hpairs & Hlast).
  repeat split; try assumption.
  intros Hok. rewrite (Hpay Hok), length_app, total_length_concat. lia.
Qed.

Lemma data_offsets_contiguous_witness :
  exists ok o',
    Run Scenario.sys 6 Scenario.config Scenario.empty = Returned ok o' /\
    let ops := rootfs_operations Scenario.empty o' ++ kernel_operations Scenario.empty o' in
    (forall x, nth_error ops 0 = Some x -> data_offset x = Some 0) /\
    (forall i a b, nth_error ops i = Some a -> nth_error ops (S i) = Some b ->
       exists off len, data_offset a = Some off /\ data_length a = Some len /\
         0 < len /\ data_offset b = Some (off + len)) /\
    (forall i a, nth_error ops i = Some a -> nth_error ops (S i) = None ->
       exists off, data_offset a = Some off /\
         data_file_size o' =
         off + match data_length a with Some len => len | None => 0 end) /\
    (ok = true ->
     data_file_size o' = 0 + (Z.of_nat (length (payload o')) - Z.of_nat 0)).
Proof.
  apply (data_offsets_contiguous Scenario.sys 6 Scenario.config Scenario.empty).
  - unfold run_fits, off_t_max. cbn. lia.
  - cbn. lia.
  - exact pack_nonempty.
  - cbn. lia.
  - vm_compute. lia.
  - vm_compute. lia.
Defined.

(** C4.  [Run] returns, and the operations of the chunks it completed
    (those with a data length: after a successful run all the operations,
    one per chunk of each partition) match the processors of these chunks
    one for one: the type is the compressed kind if and only if the
    compressed buffer is strictly smaller than the raw one, [data_length]
    is then the length of the compressed buffer and otherwise that of the
    raw one, and the payload grows by the chosen buffers in order, the
    compressed bytes for the one kind and the raw bytes for the other
    (followed, in a failed run, by what a failed write let through).  When
    compression never gives a strictly smaller buffer, every such
    operation is uncompressed and its [data_length] is the raw size of its
    chunk: [chunk_size], and the remainder for a last chunk that is
    shorter. *)
Theorem compression_choice (sys : Sys) (fuel : nat)
    (config : PayloadGenerationConfig) (o : Outputs) :
  run_fits config o ->
  0 < block_size config ->
  sysconf_nprocessors_onln sys < 2 ^ 63 ->
  (chunk_count (rootfs_size (target config)) (chunk_size config) <= fuel)%nat ->
  (chunk_count (kernel_size (target config)) (chunk_size config) <= fuel)%nat ->
  exists ok o',
    Run sys fuel config o = Returned ok o' /\
    let completed0 := filter is_completed (rootfs_operations o o') in
    let completed1 := filter is_completed (kernel_operations o o') in
    let ws := workers sys config 0 (in_fd_of sys config 0) 0 (length completed0) ++
              workers sys config 1 (in_fd_of sys config 1) 0 (length completed1) in
    Forall2 (records_choice sys) (completed0 ++ completed1) ws /\
    (exists rest,
       payload o' = payload o ++ concat (map chosen ws) ++ rest /\
       (ok = true -> rest = [])) /\
    (ok = true ->
     completed0 = rootfs_operations o o' /\ completed1 = kernel_operations o o' /\
     length completed0 = chunk_count (rootfs_size (target config)) (chunk_size config) /\
     length completed1 = chunk_count (kernel_size (target config)) (chunk_size config)) /\
    ((forall b z, BzipCompress sys b = Some z -> (length b <= length z)%nat) ->
     forall partition, partition = 0 \/ partition = 1 ->
       forall i x,
         nth_error (if partition =? 0 then completed0 else completed1) i = Some x ->
         type x = Some REPLACE /\
         data_length x
         = Some (Z.min (part_sizes config partition - Z.of_nat i * chunk_size config)
                       (chunk_size config))).
Proof.
  intros Hfits Hblock Hsys Hfuel0 Hfuel1.
  destruct (Run_returns sys fuel config o Hfits Hsys Hfuel0 Hfuel1) as (ok & o' & Hrun).
  exists ok, o'. split; [exact Hrun|].
  destruct (run_fits_sizes _ _ Hfits) as (Hfit0 & Hfit1).
  destruct (Run_records _ _ _ _ _ _ Hrun Hfits) as (n0 & n1 & pend0 & pend1 & R).
  destruct R as [Hr Hk Hg Hf Hd Hw0 Hw1 Hc0 Hc1 Hcomp Hpay Hprog Hp0 Hp1].
  set (ws0 := workers sys config 0 (in_fd_of sys config 0) 0 n0) in *.
  set (ws1 := workers sys config 1 (in_fd_of sys config 1) 0 n1) in *.
  assert (Hf0 : filter is_completed (rootfs_operations o o')
                = operations_of config (data_file_size o) ws0).
  { rewrite Hr. apply filter_completed_records.
    destruct Hp0 as [->|(_ & _ & _ & _ & _ & ->)]; [now left|right; eauto]. }
  assert (Hf1 : filter is_completed (kernel_operations o o')
                = operations_of config (data_file_size o + total_length ws0) ws1).
  { rewrite Hk. apply filter_completed_records.
    destruct Hp1 as [->|(_ & _ & _ & ->)]; [now left|right; eauto]. }
  assert (Hl0 : length (operations_of config (data_file_size o) ws0) = n0).
  { rewrite operations_of_length. apply workers_length. }
  assert (Hl1 : length (operations_of config (data_file_size o + total_length ws0) ws1)
                = n1).
  { rewrite operations_of_length. apply workers_length. }
  cbn zeta. rewrite Hf0, Hf1, Hl0, Hl1. fold ws0 ws1.
  assert (Hall : Forall2 (records_choice sys)
                   (operations_of config (data_file_size o) ws0 ++
                    operations_of config (data_file_size o + total_length ws0) ws1)
                   (ws0 ++ ws1)).
  { apply Forall2_app; apply operations_of_choice; now apply workers_compressed. }
  split; [exact Hall|]. split; [now rewrite <- map_use_buf_chosen|]. split.
  - intros Hok. destruct (Hcomp Hok) as (Hfull0 & Hfull1 & -> & ->).
    rewrite Hr, Hk, !app_nil_r.
    pose proof Hfit0 as (Hc & HP0 & _). pose proof Hfit1 as (_ & HP1 & _).
    cbn [part_sizes Z.eqb] in HP0, HP1.
    repeat split; [|]; apply chunk_count_unique; assumption.
  - intros Hnever.
    assert (Hgen : forall partition n d,
              sizes_fit config partition ->
              (forall i, (i < n)%nat ->
                 fst (worker sys config partition (in_fd_of sys config partition) i) = true) ->
              Z.of_nat n * chunk_size config < part_sizes config partition + chunk_size config ->
              forall i x,
                nth_error (operations_of config d
                             (workers sys config partition
                                (in_fd_of sys config partition) 0 n)) i = Some x ->
                type x = Some REPLACE /\
                data_length x
                = Some (Z.min (part_sizes config partition - Z.of_nat i * chunk_size config)
                              (chunk_size config))).
    { intros partition n d Hfit Hw Hn i x Hi. pose proof Hfit as (Hc & HP & _).
      assert (Hlt : (i < n)%nat).
      { rewrite <- (workers_length sys config partition (in_fd_of sys config partition) 0 n),
          <- (operations_of_length config _ d).
        apply nth_error_Some. now rewrite Hi. }
      apply operations_of_nth_error in Hi. destruct Hi as (w & d' & Hnth & ->).
      rewrite nth_error_workers in Hnth by assumption. injection Hnth as <-.
      cbn [Nat.add operation_of type data_length].
      pose proof (workers_compressed sys config partition _ n Hw) as Hz.
      rewrite Forall_forall in Hz.
      specialize (Hz (snd (worker sys config partition (in_fd_of sys config partition) i))).
      assert (Hin : In (snd (worker sys config partition (in_fd_of sys config partition) i))
                      (workers sys config partition (in_fd_of sys config partition) 0 n)).
      { eapply nth_error_In. now apply (nth_error_workers sys config partition _ 0 n i). }
      specialize (Hz Hin). specialize (Hnever _ _ Hz).
      rewrite use_buf_chosen. unfold chosen, chosen_buffer, ShouldCompress.
      destruct (Nat.ltb_spec
                  (length (buffer_compressed_
                             (snd (worker sys config partition
                                     (in_fd_of sys config partition) i))))
                  (length (buffer_in_
                             (snd (worker sys config partition
                                     (in_fd_of sys config partition) i)))));
        [lia|].
      split; [reflexivity|].
      rewrite (worker_raw_size sys config partition _ i (Hw i Hlt)). f_equal. nia. }
    intros partition [-> | ->]; cbn [Z.eqb].
    + now apply (Hgen 0 n0 _ Hfit0 Hw0).
    + now apply (Hgen 1 n1 _ Hfit1 Hw1).
Qed.

Lemma compression_choice_witness :
  exists ok o',
    Run Scenario.sys 6 Scenario.config Scenario.empty = Returned ok o' /\
    let completed0 := filter is_completed (rootfs_operations Scenario.empty o') in
    let completed1 := filter is_completed (kernel_operations Scenario.empty o') in
    let ws := workers Scenario.sys Scenario.config 0
                (in_fd_of Scenario.sys Scenario.config 0) 0 (length completed0) ++
              workers Scenario.sys Scenario.config 1
                (in_fd_of Scenario.sys Scenario.config 1) 0 (length completed1) in
    Forall2 (records_choice Scenario.sys) (completed0 ++ completed1) ws /\
    (exists rest,
       payload o' = [] ++ concat (map chosen ws) ++ rest /\
       (ok = true -> rest = [])) /\
    (ok = true ->
     completed0 = rootfs_operations Scenario.empty o' /\
     completed1 = kernel_operations Scenario.empty o' /\
     length completed0 = chunk_count 60 10 /\
     length completed1 = chunk_count 25 10) /\
    ((forall b z, Scenario.pack b = Some z -> (length b <= length z)%nat) ->
     forall partition, partition = 0 \/ partition = 1 ->
       forall i x,
         nth_error (if partition =? 0 then completed0 else completed1) i = Some x ->
         type x = Some REPLACE /\
         data_length x
         = Some (Z.min (part_sizes Scenario.config partition - Z.of_nat i * 10) 10)).
Proof.
  apply (compression_choice Scenario.sys 6 Scenario.config Scenario.empty).
  - unfold run_fits, off_t_max. cbn. lia.
  - cbn. lia.
  - cbn. lia.
  - vm_compute. lia.
  - vm_compute. lia.
Defined.



(** C6, as stated, fails: a worker that was started and whose work
    succeeded reports success at the first [Wait] and failure at the
    second. *)
Lemma second_wait_differs :
  let p := snd (Start Scenario.sys (chunk_processor Scenario.config 0 3 0)) in
  fst (Wait p) = true /\ fst (Wait (snd (Wait p))) = false /\
  fst (Wait (snd (Wait p))) <> fst (Wait p).
Proof. vm_compute. split; [reflexivity|]. split; [reflexivity|discriminate]. Qed.

(** C6, amended.  A [Wait] that follows a [Wait] joins nothing and runs
    nothing: it leaves the processor and its buffers as they are and
    returns false, the thread handle having been cleared by the first
    one; the two results agree exactly when the first one was a failure. *)
Theorem second_wait_returns_false (p : ChunkProcessor) :
  let p1 := snd (Wait p) in
  thread_ p1 = None /\
  Wait p1 = (false, p1) /\
  buffer_in_ p1 = buffer_in_ p /\
  buffer_compressed_ p1 = buffer_compressed_ p /\
  (fst (Wait p1) = fst (Wait p) <-> fst (Wait p) = false).
Proof.
  unfold Wait. destruct p as [[r|] f off bi bc]; cbn.
  - repeat split; auto.
  - repeat split; auto.
Qed.

(** C7, as stated, fails: when the descriptor fills up during the fourth
    chunk of the root filesystem, the run fails with [data_file_size]
    still at the 24 bytes of the first three chunks, and the graph holds a
    fourth vertex, for the chunk whose write failed. *)
Lemma failed_write_leaves_record :
  Run Scenario.sys_disk_full 6 Scenario.config Scenario.empty
  = Returned false Scenario.final_disk_full /\
  fst (WriteAll Scenario.sys_disk_full (payload Scenario.final_disk_full)
         (use_buf (snd (worker Scenario.sys_disk_full Scenario.config 0 3 3)))) = false /\
  data_file_size Scenario.final_disk_full = 24 /\
  length (payload Scenario.final_disk_full) = 24%nat /\
  length (graph Scenario.final_disk_full) = 4%nat /\
  nth_error (graph Scenario.final_disk_full) 3
  = Some {| file_name := "<rootfs-operation-3>";
            op := {| type := Some REPLACE; data_offset := Some 24;
                     data_length := None; dst_extents := [] |} |} /\
  final_order Scenario.final_disk_full = [0; 1; 2; 3].
Proof. vm_compute. repeat split; reflexivity. Qed.

(** C7, amended.  When the write of the chunk at the front of the queue
    fails, the loop returns false at once; [data_file_size] is unchanged
    and the payload holds what the failed write let through; the record of
    the chunk has already been added (a vertex and its index for the root
    filesystem, a kernel operation otherwise) with its type and its data
    offset, and without data length or destination extent. *)
Theorem failed_write_aborts (sys : Sys) (fuel : nat) (config : PayloadGenerationConfig)
    (partition in_fd : Z) (l l1 : Locals) (o : Outputs)
    (front : ChunkProcessor) (rest : list ChunkProcessor) (k : nat) :
  (0 <? bytes_left l) || negb (Nat.eqb (length (threads l)) 0) = true ->
  start_processors sys (S fuel) config in_fd l = Returned true l1 ->
  threads l1 = front :: rest ->
  fst (Wait front) = true ->
  write_fault sys (payload o) (use_buf (snd (Wait front))) = Some k ->
  exists l' o',
    partition_loop sys (S fuel) config partition in_fd l o = Returned false (l', o') /\
    data_file_size o' = data_file_size o /\
    payload o' = payload o ++ firstn k (use_buf (snd (Wait front))) /\
    graph o' =
      (if partition =? 0
       then graph o ++
            [ {| file_name := rootfs_operation_name (counter l1);
                 op := pending_operation (snd (Wait front)) (data_file_size o) |} ]
       else graph o) /\
    kernel_ops o' =
      (if partition =? 0 then kernel_ops o
       else kernel_ops o ++ [pending_operation (snd (Wait front)) (data_file_size o)]) /\
    final_order o' =
      (if partition =? 0
       then final_order o ++
            [to_size_t (Z.of_nat (length (graph o ++ [Vertex_default])) - 1)]
       else final_order o).
Proof.
  intros Hcond Hfill Hq Hwait Hfault.
  cbn [partition_loop]. rewrite Hcond, Hfill, Hq.
  destruct (Wait front) as [waited p] eqn:Hw. cbn [fst snd] in *. subst waited.
  destruct (emit_operation sys config partition p (counter l1)
              (last_progress_update l1) o) as [ok [[c1 p1] o1]] eqn:Hemit.
  pose proof (emit_operation_fields _ _ _ _ _ _ _ _ _ _ _ Hemit)
    as (Hg & Hk & Hf & Hc & Hd & Hp).
  destruct ok.
  - destruct Hp as [Hnone _]. congruence.
  - destruct Hp as (k' & Hsome & Hpay).
    assert (k' = k) as -> by congruence.
    eexists. exists o1. split; [reflexivity|]. auto.
Qed.

Lemma failed_write_aborts_witness :
  exists l' o',
    partition_loop Scenario.sys_closed 6 Scenario.config 0 3 (Locals_init 60)
      Scenario.empty = Returned false (l', o') /\
    data_file_size o' = 0 /\
    payload o' = [] ++ firstn 0 (use_buf (snd (Wait Scenario.front))) /\
    graph o' =
      [] ++ [ {| file_name := rootfs_operation_name 0;
                 op := pending_operation (snd (Wait Scenario.front)) 0 |} ] /\
    kernel_ops o' = [] /\
    final_order o' = [] ++ [to_size_t (Z.of_nat (length ([] ++ [Vertex_default])) - 1)].
Proof.
  apply (failed_write_aborts Scenario.sys_closed 5 Scenario.config 0 3
           (Locals_init 60) Scenario.filled Scenario.empty Scenario.front
           (tl (threads Scenario.filled)) 0).
  - vm_compute. reflexivity.
  - vm_compute. reflexivity.
  - vm_compute. reflexivity.
  - vm_compute. reflexivity.
  - vm_compute. reflexivity.
Defined.

(** C8.  When the positioned read of a chunk of a partition brings fewer
    bytes than requested, the [Wait] on the worker of that chunk reports
    failure, [Run] returns false, and the partition has no record for that
    chunk: with [j] the index of the chunk, at most [j] records, those of
    chunks before it. *)
Theorem short_read_fails_run (sys : Sys) (fuel : nat)
    (config : PayloadGenerationConfig) (o : Outputs) (partition : Z) (j : nat) :
  run_fits config o ->
  0 < block_size config ->
  sysconf_nprocessors_onln sys < 2 ^ 63 ->
  (chunk_count (rootfs_size (target config)) (chunk_size config) <= fuel)%nat ->
  (chunk_count (kernel_size (target config)) (chunk_size config) <= fuel)%nat ->
  partition = 0 \/ partition = 1 ->
  Z.of_nat j * chunk_size config < part_sizes config partition ->
  match PReadAll sys (in_fd_of sys config partition)
          (Z.to_nat (Z.min (part_sizes config partition - Z.of_nat j * chunk_size config)
                           (chunk_size config)))
          (Z.of_nat j * chunk_size config) with
  | Some data =>
      (length data <
       Z.to_nat (Z.min (part_sizes config partition - Z.of_nat j * chunk_size config)
                       (chunk_size config)))%nat
  | None => False
  end ->
  fst (Wait (queued sys config partition (in_fd_of sys config partition) j)) = false /\
  exists o',
    Run sys fuel config o = Returned false o' /\
    (length (if (partition =? 0)%Z
             then rootfs_operations o o' else kernel_operations o o') <= j)%nat.
Proof.
  intros Hfits Hblock Hsys Hfuel0 Hfuel1 Hpart Hj Hshort.
  assert (Hc : 0 < chunk_size config) by apply Hfits.
  assert (Hfail : fst (worker sys config partition (in_fd_of sys config partition) j) = false).
  { unfold worker. apply ReadAndCompress_short.
    cbn [fd_ offset_ buffer_in_ chunk_processor ChunkProcessor_new].
    rewrite repeat_length.
    destruct (PReadAll sys (in_fd_of sys config partition)
                (Z.to_nat (Z.min (part_sizes config partition - Z.of_nat j * chunk_size config)
                                 (chunk_size config)))
                (Z.of_nat j * chunk_size config)); [lia|exact I]. }
  split; [rewrite Wait_queued; exact Hfail|].
  destruct (Run_returns sys fuel config o Hfits Hsys Hfuel0 Hfuel1) as (ok & o' & Hrun).
  destruct (Run_records _ _ _ _ _ _ Hrun Hfits) as (n0 & n1 & pend0 & pend1 & R).
  destruct R as [Hr Hk Hg Hf Hd Hw0 Hw1 Hc0 Hc1 Hcomp Hpay Hprog Hp0 Hp1].
  assert (Hok : ok = false).
  { destruct ok; [|reflexivity]. exfalso.
    destruct (Hcomp eq_refl) as (Hfull0 & Hfull1 & _).
    destruct Hpart as [-> | ->]; cbn [part_sizes Z.eqb] in *.
    - rewrite Hw0 in Hfail; [discriminate|nia].
    - rewrite Hw1 in Hfail; [discriminate|nia]. }
  subst ok. exists o'. split; [exact Hrun|].
  destruct Hpart as [-> | ->]; cbn [part_sizes Z.eqb] in *.
  - rewrite Hr, length_app, operations_of_length, workers_length.
    assert (Hn : (n0 <= j)%nat).
    { destruct (Nat.le_gt_cases n0 j); [assumption|].
      rewrite Hw0 in Hfail; [discriminate|assumption]. }
    destruct Hp0 as [-> | (_ & _ & _ & _ & Hwn & ->)]; cbn [length]; [lia|].
    assert (n0 <> j) by (intros ->; congruence). lia.
  - rewrite Hk, length_app, operations_of_length, workers_length.
    assert (Hn : (n1 <= j)%nat).
    { destruct (Nat.le_gt_cases n1 j); [assumption|].
      rewrite Hw1 in Hfail; [discriminate|assumption]. }
    destruct Hp1 as [-> | (_ & _ & Hwn & ->)]; cbn [length]; [lia|].
    assert (n1 <> j) by (intros ->; congruence). lia.
Qed.

Lemma short_read_fails_run_witness :
  fst (Wait (queued Scenario.sys_truncated Scenario.config 0
               (in_fd_of Scenario.sys_truncated Scenario.config 0) 4)) = false /\
  exists o',
    Run Scenario.sys_truncated 6 Scenario.config Scenario.empty = Returned false o' /\
    (length (rootfs_operations Scenario.empty o') <= 4)%nat.
Proof.
  apply (short_read_fails_run Scenario.sys_truncated 6 Scenario.config Scenario.empty 0 4).
  - unfold run_fits, off_t_max. cbn. lia.
  - cbn. lia.
  - cbn. lia.
  - vm_compute. lia.
  - vm_compute. lia.
  - left. reflexivity.
  - cbn. lia.
  - vm_compute. lia.
Defined.

(** C9.  [Run] returns, and the progress lines it logs are those of the
    specification's reporter run over the completed chunks of the root
    filesystem (as many as it has operations with a data length) and then,
    from a fresh watermark, over those of the kernel: after each chunk the
    progress is [100 * (offset + raw size) / partition size] rounded down,
    a line is logged exactly when this is at least 10 above the last
    reported value or equals 100, and the last reported value starts anew
    ([INT_MIN]) with each partition.  After a successful run the completed
    chunks are all the chunks of both partitions. *)
Theorem progress_lines_follow_reporter (sys : Sys) (fuel : nat)
    (config : PayloadGenerationConfig) (o : Outputs) :
  run_fits config o ->
  0 < block_size config ->
  rootfs_size (target config) < 2 ^ 46 ->
  kernel_size (target config) < 2 ^ 46 ->
  sysconf_nprocessors_onln sys < 2 ^ 63 ->
  (chunk_count (rootfs_size (target config)) (chunk_size config) <= fuel)%nat ->
  (chunk_count (kernel_size (target config)) (chunk_size config) <= fuel)%nat ->
  exists ok o',
    Run sys fuel config o = Returned ok o' /\
    let n0 := length (filter is_completed (rootfs_operations o o')) in
    let n1 := length (filter is_completed (kernel_operations o o')) in
    let ws0 := workers sys config 0 (in_fd_of sys config 0) 0 n0 in
    let ws1 := workers sys config 1 (in_fd_of sys config 1) 0 n1 in
    progress_lines (log o') =
    progress_lines (log o) ++
    progress_report (rootfs_size (target config)) INT_MIN (data_file_size o) ws0 ++
    progress_report (kernel_size (target config)) INT_MIN
      (data_file_size o + total_length ws0) ws1 /\
    (ok = true ->
     n0 = chunk_count (rootfs_size (target config)) (chunk_size config) /\
     n1 = chunk_count (kernel_size (target config)) (chunk_size config)).
Proof.
  intros Hfits Hblock Hs0 Hs1 Hsys Hfuel0 Hfuel1.
  destruct (Run_returns sys fuel config o Hfits Hsys Hfuel0 Hfuel1) as (ok & o' & Hrun).
  exists ok, o'. split; [exact Hrun|].
  destruct (Run_records _ _ _ _ _ _ Hrun Hfits) as (n0 & n1 & pend0 & pend1 & R).
  destruct R as [Hr Hk Hg Hf Hd Hw0 Hw1 Hc0 Hc1 Hcomp Hpay Hprog Hp0 Hp1].
  assert (Hl0 : length (filter is_completed (rootfs_operations o o')) = n0).
  { rewrite Hr, filter_completed_records, operations_of_length; [apply workers_length|].
    destruct Hp0 as [->|(_ & _ & _ & _ & _ & ->)]; [now left|right; eauto]. }
  assert (Hl1 : length (filter is_completed (kernel_operations o o')) = n1).
  { rewrite Hk, filter_completed_records, operations_of_length; [apply workers_length|].
    destruct Hp1 as [->|(_ & _ & _ & ->)]; [now left|right; eauto]. }
  cbn zeta. rewrite Hl0, Hl1.
  split; [now apply Hprog|].
  intros Hok. destruct (Hcomp Hok) as (Hge0 & Hge1 & _ & _).
  destruct Hfits as (Hc & HP0 & HP1 & _).
  assert (Hcount : forall P n, 0 <= P ->
            Z.of_nat n * chunk_size config < P + chunk_size config ->
            P <= Z.of_nat n * chunk_size config ->
            n = chunk_count P (chunk_size config)).
  { intros P n HP Hlt Hge.
    assert (Hn : ~ (n < chunk_count P (chunk_size config))%nat).
    { intros Hn. apply (chunk_count_spec P (chunk_size config) n Hc HP) in Hn. lia. }
    destruct n as [|n]; [lia|].
    assert (Hp : (n < chunk_count P (chunk_size config))%nat).
    { apply (chunk_count_spec P (chunk_size config) n Hc HP). nia. }
    lia. }
  split; apply Hcount; assumption.
Qed.

Lemma progress_lines_follow_reporter_witness :
  exists ok o',
    Run Scenario.sys 6 Scenario.config Scenario.empty = Returned ok o' /\
    let n0 := length (filter is_completed (rootfs_operations Scenario.empty o')) in
    let n1 := length (filter is_completed (kernel_operations Scenario.empty o')) in
    let ws0 := workers Scenario.sys Scenario.config 0
                 (in_fd_of Scenario.sys Scenario.config 0) 0 n0 in
    let ws1 := workers Scenario.sys Scenario.config 1
                 (in_fd_of Scenario.sys Scenario.config 1) 0 n1 in
    progress_lines (log o') =
    progress_lines [] ++
    progress_report 60 INT_MIN 0 ws0 ++
    progress_report 25 INT_MIN (0 + total_length ws0) ws1 /\
    (ok = true -> n0 = chunk_count 60 10 /\ n1 = chunk_count 25 10).
Proof.
  apply (progress_lines_follow_reporter Scenario.sys 6 Scenario.config Scenario.empty).
  - unfold run_fits, off_t_max. cbn. lia.
  - cbn. lia.
  - cbn. lia.
  - cbn. lia.
  - cbn. lia.
  - vm_compute. lia.
  - vm_compute. lia.
Defined.

(** * Further properties of the code *)

(** ** The queue between the two loops *)

(** The inner loop only adds to the queue, never beyond [max_threads], and
    leaves [counter] and [last_progress_update] alone. *)
Lemma start_processors_queue (sys : Sys) (config : PayloadGenerationConfig) (in_fd : Z)
    (fuel : nat) : forall (l : Locals) (ok : bool) (l1 : Locals),
  start_processors sys fuel config in_fd l = Returned ok l1 ->
  (length (threads l) <= length (threads l1))%nat /\
  (Z.of_nat (length (threads l)) <= max_threads sys ->
   Z.of_nat (length (threads l1)) <= max_threads sys) /\
  (ok = true ->
   (max_threads sys <= Z.of_nat (length (threads l1)) \/ bytes_left l1 <= 0) /\
   (Z.of_nat (length (threads l)) < max_threads sys -> 0 < bytes_left l ->
    (length (threads l) < length (threads l1))%nat)) /\
  counter l1 = counter l /\
  last_progress_update l1 = last_progress_update l.
Proof.
  induction fuel as [|fuel IH]; intros l ok l1 Hrun; cbn [start_processors] in Hrun;
    destruct ((Z.of_nat (length (threads l)) <? max_threads sys) && (0 <? bytes_left l))
      eqn:Hcond; try discriminate.
  - injection Hrun as <- <-. apply andb_false_iff in Hcond.
    assert (Hstop : max_threads sys <= Z.of_nat (length (threads l)) \/ bytes_left l <= 0).
    { destruct Hcond as [H|H]; apply Z.ltb_ge in H; auto. }
    repeat split; auto; intros; lia.
  - apply andb_true_iff in Hcond. destruct Hcond as [Hroom Hleft].
    apply Z.ltb_lt in Hroom. apply Z.ltb_lt in Hleft.
    destruct (Start sys _) as [started processor'].
    destruct started.
    + apply IH in Hrun. cbn [threads counter last_progress_update bytes_left] in Hrun.
      rewrite length_app in Hrun. cbn [length] in Hrun.
      destruct Hrun as (Hlen & Hbound & Hstop & Hcnt & Hlast).
      split; [lia|]. split; [intros _; apply Hbound; lia|].
      split; [|auto]. intros Hok. destruct (Hstop Hok) as [Hfull _].
      split; [exact Hfull|]. intros _ _. lia.
    + injection Hrun as <- <-. cbn [threads counter last_progress_update bytes_left].
      rewrite length_app. cbn [length].
      split; [lia|]. split; [lia|]. split; [discriminate|auto].
  - injection Hrun as <- <-. apply andb_false_iff in Hcond.
    assert (Hstop : max_threads sys <= Z.of_nat (length (threads l)) \/ bytes_left l <= 0).
    { destruct Hcond as [H|H]; apply Z.ltb_ge in H; auto. }
    repeat split; auto; intros; lia.
Qed.

Lemma start_processors_defined (sys : Sys) (config : PayloadGenerationConfig) (in_fd : Z)
    (fuel : nat) : forall (l : Locals),
  start_processors sys fuel config in_fd l <> Undefined.
Proof.
  induction fuel as [|fuel IH]; intros l; cbn [start_processors];
    destruct ((Z.of_nat (length (threads l)) <? max_threads sys) && (0 <? bytes_left l));
    try discriminate.
  destruct (Start sys _) as [[|] processor']; [apply IH|discriminate].
Qed.

(** The outer loop never asks for the front of an empty queue. *)
Lemma partition_loop_defined (sys : Sys) (config : PayloadGenerationConfig)
    (partition in_fd : Z) (fuel : nat) : forall (l : Locals) (o : Outputs),
  0 < max_threads sys ->
  partition_loop sys fuel config partition in_fd l o <> Undefined.
Proof.
  induction fuel as [|fuel IH]; intros l o Hroom; cbn [partition_loop];
    destruct ((0 <? bytes_left l) || negb (Nat.eqb (length (threads l)) 0)) eqn:Hcond;
    try discriminate.
  destruct (start_processors sys (S fuel) config in_fd l) as [[|] l1| |] eqn:Hfill;
    try discriminate.
  - destruct (start_processors_queue _ _ _ _ _ _ _ Hfill) as (Hlen & _ & Hstop & _).
    destruct (Hstop eq_refl) as [_ Hgrow].
    destruct (threads l1) as [|front rest] eqn:Hq.
    + exfalso. cbn [length] in *. apply orb_true_iff in Hcond. destruct Hcond as [H|H].
      * apply Z.ltb_lt in H. assert (length (threads l) = 0%nat) as H0 by lia.
        rewrite H0 in Hgrow. cbn in Hgrow. specialize (Hgrow Hroom H). lia.
      * apply negb_true_iff, Nat.eqb_neq in H. lia.
    + destruct (Wait front) as [[|] processor]; [|discriminate].
      destruct (emit_operation sys config partition processor (counter l1)
                  (last_progress_update l1) o) as [[|] [[c1 p1] o1]]; [|discriminate].
      apply IH. assumption.
  - exfalso. now apply (start_processors_defined sys config in_fd (S fuel) l).
Qed.

(** The inner loop pushes at the back: what was queued stays in front. *)
Lemma start_processors_keeps (sys : Sys) (config : PayloadGenerationConfig) (in_fd : Z)
    (fuel : nat) : forall (l : Locals) (ok : bool) (l1 : Locals),
  start_processors sys fuel config in_fd l = Returned ok l1 ->
  firstn (length (threads l)) (threads l1) = threads l.
Proof.
  induction fuel as [|fuel IH]; intros l ok l1 Hrun; cbn [start_processors] in Hrun;
    destruct ((Z.of_nat (length (threads l)) <? max_threads sys) && (0 <? bytes_left l));
    try discriminate; try (injection Hrun as <- <-; apply firstn_all).
  destruct (Start sys _) as [started processor'].
  destruct started.
  - apply IH in Hrun. cbn [threads] in Hrun.
    apply (f_equal (firstn (length (threads l)))) in Hrun.
    rewrite firstn_firstn, length_app, Nat.min_l in Hrun by lia.
    rewrite Hrun. rewrite firstn_app, firstn_all, Nat.sub_diag. cbn. apply app_nil_r.
  - injection Hrun as <- <-. cbn [threads].
    rewrite firstn_app, firstn_all, Nat.sub_diag. cbn. apply app_nil_r.
Qed.

(** It comes back after at most as many steps as the queue has room. *)
Lemma start_processors_total (sys : Sys) (config : PayloadGenerationConfig) (in_fd : Z)
    (fuel : nat) : forall (l : Locals),
  (Z.to_nat (max_threads sys - Z.of_nat (length (threads l))) <= fuel)%nat ->
  exists ok l1, start_processors sys fuel config in_fd l = Returned ok l1.
Proof.
  induction fuel as [|fuel IH]; intros l Hfuel; cbn [start_processors];
    destruct ((Z.of_nat (length (threads l)) <? max_threads sys) && (0 <? bytes_left l))
      eqn:Hcond; eauto.
  - apply andb_true_iff in Hcond. destruct Hcond as [Hroom _]. apply Z.ltb_lt in Hroom. lia.
  - apply andb_true_iff in Hcond. destruct Hcond as [Hroom _]. apply Z.ltb_lt in Hroom.
    destruct (Start sys _) as [[|] processor']; [|eauto].
    apply IH. cbn [threads]. rewrite length_app. cbn [length]. lia.
Qed.

(** ** Why a pass fails *)

Section Verdict.
Variable sys : Sys.
Variable config : PayloadGenerationConfig.
Variable partition in_fd : Z.
Hypothesis fit : sizes_fit config partition.

Local Abbreviation P := (part_sizes config partition).
Local Abbreviation c := (chunk_size config).
Local Abbreviation granted := (fun j : nat => g_thread_try_new sys in_fd (Z.of_nat j * c)).

(** The inner loop starts the chunks in order until the queue is full or
    no bytes are left, and fails at the first chunk that gets no thread. *)
Lemma start_processors_starts (fuel : nat) : forall (e s : nat) (l : Locals) ok l1,
  loop_inv sys config partition in_fd e s l ->
  (forall k, (k < s)%nat -> granted k = true) ->
  start_processors sys fuel config in_fd l = Returned ok l1 ->
  exists s', (s <= s')%nat /\ (forall k, (k < s')%nat -> granted k = true) /\
    if ok
    then loop_inv sys config partition in_fd e s' l1 /\
         counter l1 = counter l /\ last_progress_update l1 = last_progress_update l /\
         (max_threads sys <= Z.of_nat (s' - e) \/ P <= Z.of_nat s' * c)
    else Z.of_nat s' * c < P /\ Z.of_nat (s' - e) < max_threads sys /\ granted s' = false.
Proof.
  pose proof fit as (Hcpos & HP & Hmax).
  induction fuel as [|fuel IH]; intros e s l ok l1 Hinv Hs Hrun; cbn [start_processors] in Hrun;
    destruct ((Z.of_nat (length (threads l)) <? max_threads sys) && (0 <? bytes_left l))
      eqn:Hcond; try discriminate.
  - injection Hrun as <- <-. exists s. split; [lia|]. split; [exact Hs|].
    split; [exact Hinv|]. split; [reflexivity|]. split; [reflexivity|].
    destruct Hinv as [Hord Hthr Hoff Hleft Hbound].
    rewrite Hthr, length_map, length_seq, Hleft in Hcond.
    apply andb_false_iff in Hcond. destruct Hcond as [H|H]; apply Z.ltb_ge in H; lia.
  - apply andb_true_iff in Hcond. destruct Hcond as [Hroom Hpos].
    apply Z.ltb_lt in Hroom. apply Z.ltb_lt in Hpos.
    pose proof Hinv as [Hord Hthr Hoff Hleft Hbound].
    rewrite (new_processor_is_chunk config partition in_fd fit s l Hoff Hleft Hpos) in Hrun.
    rewrite Start_chunk in Hrun.
    rewrite Hthr, length_map, length_seq in Hroom.
    assert (Hnn : 0 <= Z.of_nat s * c) by (apply Z.mul_nonneg_nonneg; lia).
    destruct (g_thread_try_new sys in_fd (Z.of_nat s * c)) eqn:Hg.
    + apply (IH e (S s)) in Hrun.
      * destruct Hrun as (s' & Hle & Hall & Hres). exists s'. split; [lia|].
        split; [exact Hall|]. destruct ok; [|exact Hres].
        cbn [counter last_progress_update] in Hres. exact Hres.
      * split; cbn [threads offset bytes_left].
        -- lia.
        -- rewrite Hthr. apply queue_push. assumption.
        -- rewrite Hoff. rewrite to_off_t_id; unfold off_t_max in *; lia.
        -- rewrite Hleft. rewrite to_off_t_id; unfold off_t_max in *; lia.
        -- lia.
      * intros k Hk. destruct (Nat.eq_dec k s) as [->|Hne]; [exact Hg|apply Hs; lia].
    + injection Hrun as <- <-. exists s. split; [lia|]. split; [exact Hs|].
      split; [lia|]. split; [lia|exact Hg].
  - injection Hrun as <- <-. exists s. split; [lia|]. split; [exact Hs|].
    split; [exact Hinv|]. split; [reflexivity|]. split; [reflexivity|].
    destruct Hinv as [Hord Hthr Hoff Hleft Hbound].
    rewrite Hthr, length_map, length_seq, Hleft in Hcond.
    apply andb_false_iff in Hcond. destruct Hcond as [H|H]; apply Z.ltb_ge in H; lia.
Qed.

(** What the outer loop returns, with the reason of a failure: the first
    chunk without a thread, a worker that failed, or a write that failed.
    Before a chunk is emitted, every chunk less than [max_threads] ahead of
    it has been given a thread. *)
Lemma partition_loop_verdict (fuel : nat) :
  forall (e s : nat) (l : Locals) (o : Outputs) ok l' o',
  loop_inv sys config partition in_fd e s l ->
  (forall k, (k < s)%nat -> granted k = true) ->
  partition_loop sys fuel config partition in_fd l o = Returned ok (l', o') ->
  exists n : nat,
    let st0 := (counter l, last_progress_update l, o) in
    let st := emit_range sys config partition in_fd e n st0 in
    emits_ok sys config partition in_fd e n st0 = true /\
    Z.of_nat (e + n) * c < P + c /\
    (forall i k, (e <= i < e + n)%nat ->
       Z.of_nat k < Z.of_nat i + max_threads sys -> Z.of_nat k * c < P ->
       granted k = true) /\
    ((ok = true /\ P <= Z.of_nat (e + n) * c /\ o' = snd st /\
      (forall k, Z.of_nat k * c < P -> granted k = true)) \/
     (ok = false /\ o' = snd st /\
      exists j, (e + n <= j)%nat /\ Z.of_nat j < Z.of_nat (e + n) + max_threads sys /\
        Z.of_nat j * c < P /\ granted j = false /\
        forall k, (k < j)%nat -> granted k = true) \/
     (ok = false /\ o' = snd st /\ Z.of_nat (e + n) * c < P /\
      fst (worker sys config partition in_fd (e + n)) = false /\
      (forall k, Z.of_nat k < Z.of_nat (e + n) + max_threads sys -> Z.of_nat k * c < P ->
         granted k = true)) \/
     (ok = false /\ Z.of_nat (e + n) * c < P /\
      fst (worker sys config partition in_fd (e + n)) = true /\
      fst (emit_chunk sys config partition in_fd (e + n) st) = false /\
      o' = snd (snd (emit_chunk sys config partition in_fd (e + n) st)) /\
      (forall k, Z.of_nat k < Z.of_nat (e + n) + max_threads sys -> Z.of_nat k * c < P ->
         granted k = true))).
Proof.
  pose proof fit as (Hcpos & HP & Hmax).
  assert (Hexit : forall (e s : nat) (l : Locals) (o : Outputs),
            loop_inv sys config partition in_fd e s l ->
            (forall k, (k < s)%nat -> granted k = true) ->
            (0 <? bytes_left l) || negb (Nat.eqb (length (threads l)) 0) = false ->
            Z.of_nat (e + 0) * c < P + c /\
            P <= Z.of_nat (e + 0) * c /\
            (forall k, Z.of_nat k * c < P -> granted k = true)).
  { intros e s l o [Hord Hthr Hoff Hleft Hbound] Hs Hc.
    apply orb_false_iff in Hc. destruct Hc as [Hb Hq].
    rewrite Hthr, length_map, length_seq in Hq.
    apply negb_false_iff, Nat.eqb_eq in Hq. apply Z.ltb_ge in Hb.
    replace (e + 0)%nat with s by lia. split; [assumption|]. split; [lia|].
    intros k Hk. apply Hs. nia. }
  induction fuel as [|fuel IH]; intros e s l o ok l' o' Hinv Hs Hrun.
  - simpl in Hrun.
    destruct ((0 <? bytes_left l) || negb (Nat.eqb (length (threads l)) 0)) eqn:Hc;
      [discriminate|].
    injection Hrun as <- <- <-. exists 0%nat. cbn [emit_range emits_ok snd].
    destruct (Hexit e s l o Hinv Hs Hc) as (Hb & Hfull & Hall).
    split; [reflexivity|]. split; [exact Hb|]. split; [intros i k Hi; lia|]. left. auto.
  - cbn [partition_loop] in Hrun.
    destruct ((0 <? bytes_left l) || negb (Nat.eqb (length (threads l)) 0)) eqn:Hc.
    + destruct (start_processors sys (S fuel) config in_fd l) as [ok1 l1| |] eqn:Hfill;
        try discriminate.
      destruct (start_processors_starts _ _ _ _ _ _ Hinv Hs Hfill)
        as (s' & Hle & Hs' & Hres).
      destruct ok1.
      * destruct Hres as (Hinv' & Hcnt & Hlast & Hstop).
        destruct (threads l1) as [|front rest] eqn:Hq; [discriminate|].
        destruct (loop_inv_pop sys config partition in_fd e s' l1 front rest (counter l1)
                    (last_progress_update l1) Hinv' Hq) as (Hfront & Hlt & _).
        subst front. rewrite Wait_queued in Hrun.
        assert (Hbnd : Z.of_nat (e + 0) * c < P).
        { destruct Hinv' as [_ _ _ _ Hb]. replace (e + 0)%nat with e by lia. nia. }
        assert (Hahead : forall k, Z.of_nat k < Z.of_nat e + max_threads sys ->
                  Z.of_nat k * c < P -> granted k = true).
        { intros k Hk HkP. apply Hs'. destruct Hstop as [Hfull|Hdone]; [lia|nia]. }
        destruct (fst (worker sys config partition in_fd e)) eqn:Hw.
        -- rewrite Hcnt, Hlast in Hrun.
           destruct (emit_operation sys config partition
                       (snd (worker sys config partition in_fd e))
                       (counter l) (last_progress_update l) o)
             as [[|] [[c1 p1] o1]] eqn:Hemit.
           ++ destruct (loop_inv_pop sys config partition in_fd e s' l1 _ rest c1 p1 Hinv' Hq)
                as (_ & _ & Hinv'').
              apply (IH _ _ _ _ _ _ _ Hinv'' Hs') in Hrun.
              destruct Hrun as (n & Hok & Hb & Hlook & Hres).
              exists (S n). cbn [emit_range emits_ok].
              cbn [counter last_progress_update with_queue] in Hok, Hres.
              assert (Hec : emit_chunk sys config partition in_fd e
                              (counter l, last_progress_update l, o)
                            = (true, (c1, p1, o1))) by exact Hemit.
              rewrite !Hec, Hw. cbn [fst snd andb].
              replace (e + S n)%nat with (S e + n)%nat by lia.
              split; [assumption|]. split; [assumption|]. split; [|exact Hres].
              intros i k Hi Hk HkP.
              destruct (Nat.eq_dec i e) as [->|Hne]; [now apply Hahead|].
              apply (Hlook i k); [lia|assumption|assumption].
           ++ injection Hrun as <- _ <-. exists 0%nat. cbn [emit_range emits_ok].
              split; [reflexivity|]. split; [lia|].
              split; [intros i k Hi; lia|]. right. right. right.
              unfold emit_chunk. replace (e + 0)%nat with e in * by lia.
              rewrite Hemit. cbn [fst snd]. auto 10.
        -- injection Hrun as <- _ <-. exists 0%nat. cbn [emit_range emits_ok snd].
           split; [reflexivity|]. split; [lia|].
           split; [intros i k Hi; lia|]. right. right. left.
           replace (e + 0)%nat with e in * by lia. auto 10.
      * injection Hrun as <- _ <-. exists 0%nat. cbn [emit_range emits_ok snd].
        destruct Hres as (HsP & Hroom & Hg).
        destruct Hinv as [Ho _ _ _ Hb0].
        split; [reflexivity|]. split; [replace (e + 0)%nat with e by lia; nia|].
        split; [intros i k Hi; lia|]. right. left.
        split; [reflexivity|]. split; [reflexivity|]. exists s'.
        repeat split; try assumption; lia.
    + injection Hrun as <- <- <-. exists 0%nat. cbn [emit_range emits_ok snd].
      destruct (Hexit e s l o Hinv Hs Hc) as (Hb & Hfull & Hall).
      split; [reflexivity|]. split; [exact Hb|]. split; [intros i k Hi; lia|]. left. auto.
Qed.

End Verdict.

(** ** Emissions, one more at the end *)

Section Snoc.
Variable sys : Sys.
Variable config : PayloadGenerationConfig.
Variable partition in_fd : Z.

Lemma emit_range_snoc (n : nat) : forall (j : nat) (st : emit_state),
  emit_range sys config partition in_fd j (S n) st
  = snd (emit_chunk sys config partition in_fd (j + n)
           (emit_range sys config partition in_fd j n st)).
Proof.
  induction n as [|n IH]; intros j st.
  - cbn [emit_range]. now rewrite Nat.add_0_r.
  - cbn [emit_range] in *. rewrite IH. now replace (S j + n)%nat with (j + S n)%nat by lia.
Qed.

Lemma emits_ok_snoc (n : nat) : forall (j : nat) (st : emit_state),
  emits_ok sys config partition in_fd j (S n) st
  = emits_ok sys config partition in_fd j n st &&
    (fst (worker sys config partition in_fd (j + n)) &&
     fst (emit_chunk sys config partition in_fd (j + n)
            (emit_range sys config partition in_fd j n st))).
Proof.
  induction n as [|n IH]; intros j st.
  - cbn [emits_ok emit_range]. rewrite Nat.add_0_r. now rewrite andb_true_r.
  - change (emits_ok sys config partition in_fd j (S (S n)) st)
      with (fst (worker sys config partition in_fd j) &&
            fst (emit_chunk sys config partition in_fd j st) &&
            emits_ok sys config partition in_fd (S j) (S n)
              (snd (emit_chunk sys config partition in_fd j st))).
    rewrite IH. cbn [emits_ok emit_range].
    replace (S j + n)%nat with (j + S n)%nat by lia.
    now rewrite !andb_assoc.
Qed.

Lemma emits_ok_prefix (n : nat) : forall (m j : nat) (st : emit_state),
  emits_ok sys config partition in_fd j n st = true -> (m <= n)%nat ->
  emits_ok sys config partition in_fd j m st = true.
Proof.
  induction n as [|n IH]; intros m j st Hok Hm.
  - now replace m with 0%nat by lia.
  - destruct (Nat.eq_dec m (S n)) as [->|Hne]; [assumption|].
    rewrite emits_ok_snoc in Hok. apply andb_true_iff in Hok.
    apply IH; [tauto|lia].
Qed.

End Snoc.

Section Writes.
Variable sys : Sys.
Variable config : PayloadGenerationConfig.
Variable partition in_fd : Z.
Hypothesis fit : sizes_fit config partition.

Local Abbreviation P := (part_sizes config partition).
Local Abbreviation c := (chunk_size config).

(** The write of a chunk emitted after [n] others sees the buffers of
    these on the output descriptor. *)
Lemma emit_chunk_write (n : nat) (cnt last : Z) (o : Outputs) :
  emits_ok sys config partition in_fd 0 n (cnt, last, o) = true ->
  0 <= data_file_size o ->
  data_file_size o + Z.of_nat n * c <= off_t_max ->
  0 <= cnt -> cnt + Z.of_nat n <= off_t_max ->
  Z.of_nat (length (graph o)) + Z.of_nat n <= 2 ^ 64 ->
  let w := snd (worker sys config partition in_fd n) in
  let out := payload o ++ concat (map use_buf (workers sys config partition in_fd 0 n)) in
  fst (emit_chunk sys config partition in_fd n
         (emit_range sys config partition in_fd 0 n (cnt, last, o)))
  = match write_fault sys out (use_buf w) with
    | None => true
    | Some _ => false
    end.
Proof.
  intros Hok Hd Hmax Hc Hcmax Hg. cbn zeta.
  destruct (emit_range_extended sys config partition in_fd fit n 0 cnt last o Hok)
    as (_ & Hext & _); try assumption.
  rewrite <- (ext_payload _ _ _ _ _ _ _ Hext).
  destruct (emit_range sys config partition in_fd 0 n (cnt, last, o)) as [[cn ln] on].
  cbn [snd]. unfold emit_chunk.
  destruct (emit_operation sys config partition (snd (worker sys config partition in_fd n))
              cn ln on) as [ok1 [[c1 p1] o1]] eqn:E.
  apply emit_operation_fields in E. destruct E as (_ & _ & _ & _ & _ & Hpay).
  cbn [fst]. destruct ok1.
  - destruct Hpay as [-> _]. reflexivity.
  - destruct Hpay as (k & -> & _). reflexivity.
Qed.

End Writes.

(** ** The verdict of a pass *)

Lemma forallb_seq_false {f : nat -> bool} (n j : nat) :
  (j < n)%nat -> f j = false -> forallb f (seq 0 n) = false.
Proof.
  intros Hj Hf. destruct (forallb f (seq 0 n)) eqn:H; [|reflexivity].
  rewrite forallb_forall in H. rewrite <- Hf. symmetry. apply H, in_seq. lia.
Qed.

(** What a pass over a partition returns and why: [n] chunks went through;
    then either no chunk is left, or the partition could not be opened, or
    a chunk less than [max_threads] ahead got no thread, or chunk [n]
    itself could not be read, compressed or written. *)
Lemma run_partition_verdict (sys : Sys) (fuel : nat) (config : PayloadGenerationConfig)
    (partition : Z) (o : Outputs) (ok : bool) (o' : Outputs) :
  run_partition sys fuel config partition o = Returned ok o' ->
  sizes_fit config partition ->
  0 < max_threads sys ->
  0 <= data_file_size o ->
  data_file_size o + part_sizes config partition + chunk_size config <= off_t_max ->
  Z.of_nat (length (graph o)) + part_sizes config partition + chunk_size config <= 2 ^ 64 ->
  exists n : nat,
    (forall i, (i < n)%nat -> chunk_succeeds sys config partition (payload o) i = true) /\
    (forall i k, (i < n)%nat -> Z.of_nat k < Z.of_nat i + max_threads sys ->
       Z.of_nat k * chunk_size config < part_sizes config partition ->
       thread_granted sys config partition k = true) /\
    Z.of_nat n * chunk_size config < part_sizes config partition + chunk_size config /\
    ((ok = true /\ 0 <= in_fd_of sys config partition /\
      part_sizes config partition <= Z.of_nat n * chunk_size config) \/
     (ok = false /\ in_fd_of sys config partition < 0 /\ n = 0%nat) \/
     (ok = false /\ 0 <= in_fd_of sys config partition /\
      (let ws := workers sys config partition (in_fd_of sys config partition) 0 n in
       extended partition 0 o (operations_of config (data_file_size o) ws)
         (concat (map use_buf ws)) (total_length ws) o') /\
      exists j, (n <= j)%nat /\ Z.of_nat j < Z.of_nat n + max_threads sys /\
        Z.of_nat j * chunk_size config < part_sizes config partition /\
        thread_granted sys config partition j = false /\
        forall k, (k < j)%nat -> thread_granted sys config partition k = true) \/
     (ok = false /\ 0 <= in_fd_of sys config partition /\
      Z.of_nat n * chunk_size config < part_sizes config partition /\
      (forall k, Z.of_nat k < Z.of_nat n + max_threads sys ->
         Z.of_nat k * chunk_size config < part_sizes config partition ->
         thread_granted sys config partition k = true) /\
      chunk_succeeds sys config partition (payload o) n = false /\
      (fst (worker sys config partition (in_fd_of sys config partition) n) = false ->
       let ws := workers sys config partition (in_fd_of sys config partition) 0 n in
       extended partition 0 o (operations_of config (data_file_size o) ws)
         (concat (map use_buf ws)) (total_length ws) o') /\
      (fst (worker sys config partition (in_fd_of sys config partition) n) = true ->
       let w := snd (worker sys config partition (in_fd_of sys config partition) n) in
       let ws := workers sys config partition (in_fd_of sys config partition) 0 n in
       exists k,
         write_fault sys (written_before sys config partition (payload o) n) (use_buf w)
         = Some k /\
         extended partition 0 o
           (operations_of config (data_file_size o) ws ++
            [pending_operation w (data_file_size o + total_length ws)])
           (concat (map use_buf ws) ++ firstn k (use_buf w)) (total_length ws) o'))).
Proof.
  intros Hrun Hfit Hroom Hd Hmax Hg. unfold run_partition in Hrun.
  pose proof Hfit as (Hc & HP & HPmax).
  unfold chunk_succeeds, written_before, thread_granted.
  fold (in_fd_of sys config partition) in Hrun.
  set (in_fd := in_fd_of sys config partition) in *.
  destruct (0 <=? in_fd) eqn:Hfd.
  - apply Z.leb_le in Hfd.
    destruct (partition_loop sys fuel config partition in_fd
                (Locals_init (part_sizes config partition))
                (add_log (LogCompressing (paths config partition)) o))
      as [ok1 [l2 o2]| |] eqn:Hloop; try discriminate.
    injection Hrun as <- <-.
    apply (partition_loop_verdict sys config partition in_fd Hfit fuel 0 0) in Hloop;
      [|apply loop_inv_init; assumption|intros k Hk; lia].
    destruct Hloop as (n & Hok & Hn & Hlook & Hres).
    cbn [counter last_progress_update Locals_init Nat.add] in Hok, Hn, Hlook, Hres.
    set (o1 := add_log (LogCompressing (paths config partition)) o) in *.
    assert (Hnn : Z.of_nat n <= Z.of_nat n * chunk_size config) by nia.
    destruct (emit_range_extended sys config partition in_fd Hfit n 0 0 INT_MIN o1 Hok)
      as (Hcnt & Hext & Htot & Hall); cbn [data_file_size graph add_log o1]; try lia.
    apply extended_add_log in Hext. cbn [data_file_size add_log o1] in Hext.
    assert (Hwrite : forall i, (i <= n)%nat ->
              fst (emit_chunk sys config partition in_fd i
                     (emit_range sys config partition in_fd 0 i (0, INT_MIN, o1)))
              = match write_fault sys
                        (payload o ++
                         concat (map use_buf (workers sys config partition in_fd 0 i)))
                        (use_buf (snd (worker sys config partition in_fd i))) with
                | None => true
                | Some _ => false
                end).
    { intros i Hi.
      apply (emit_chunk_write sys config partition in_fd Hfit i 0 INT_MIN o1);
        cbn [data_file_size graph add_log o1]; try nia.
      now apply (emits_ok_prefix sys config partition in_fd n). }
    exists n. split; [|split; [|split; [exact Hn|]]].
    + intros i Hi.
      assert (HiP : Z.of_nat i * chunk_size config < part_sizes config partition) by nia.
      rewrite (Hlook i i) by lia. rewrite (Hall i) by lia. cbn [andb].
      rewrite <- (Hwrite i) by lia.
      pose proof (emits_ok_prefix sys config partition in_fd n (S i) 0 _ Hok ltac:(lia))
        as Hpre.
      rewrite emits_ok_snoc in Hpre. cbn [Nat.add] in Hpre.
      apply andb_true_iff in Hpre. destruct Hpre as [_ Hpre].
      apply andb_true_iff in Hpre. tauto.
    + intros i k Hi. apply Hlook. lia.
    + destruct Hres as [(-> & Hfull & _) | [(-> & -> & j & Hj & Hjm & HjP & Hgj & Hbelow) |
                         [(-> & Ho2 & HnP & Hw & Hahead) |
                          (-> & HnP & Hw & Hfail & Ho2 & Hahead)]]].
      * left. auto.
      * right. right. left. split; [reflexivity|]. split; [assumption|].
        split; [exact Hext|]. exists j. auto.
      * right. right. right. split; [reflexivity|]. split; [assumption|].
        split; [assumption|]. split; [exact Hahead|].
        rewrite (Hahead n) by lia. rewrite Hw. split; [reflexivity|].
        split; [|discriminate]. intros _. rewrite Ho2. exact Hext.
      * right. right. right. split; [reflexivity|]. split; [assumption|].
        split; [assumption|]. split; [exact Hahead|].
        rewrite (Hahead n) by lia. rewrite Hw. cbn [andb].
        rewrite <- (Hwrite n) by lia. split; [assumption|]. split; [discriminate|].
        intros _. cbn zeta. rewrite Ho2. clear Hwrite Ho2.
        set (ws := workers sys config partition in_fd 0 n) in *.
        destruct (emit_range sys config partition in_fd 0 n (0, INT_MIN, o1))
          as [[cn ln] on] eqn:Hst.
        cbn [fst snd] in Hcnt, Hext, Hfail |- *.
        destruct (emit_chunk sys config partition in_fd n (cn, ln, on))
          as [okn [[c1 p1] o3]] eqn:E.
        cbn [fst snd] in Hfail |- *. subst okn. unfold emit_chunk in E.
        pose proof (ext_data_file_size _ _ _ _ _ _ _ Hext) as Hdn.
        pose proof (ext_graph _ _ _ _ _ _ _ Hext) as Hgn.
        pose proof (ext_payload _ _ _ _ _ _ _ Hext) as Hpn.
        pose proof (worker_written_size sys config partition in_fd Hfit n Hw) as Hlen.
        assert (Hgl : (length (graph on) <= length (graph o) + n)%nat).
        { rewrite Hgn, length_app. destruct (partition =? 0); cbn [length]; [|lia].
          rewrite vertices_of_length, operations_of_length. unfold ws.
          rewrite workers_length. lia. }
        apply emit_operation_extended in E; try (destruct (partition =? 0); lia).
        destruct E as (_ & k & Hk & Hpend).
        exists k. split; [rewrite <- Hpn; exact Hk|].
        rewrite Hdn in Hpend.
        replace (total_length ws) with (total_length ws + 0) at 2 by lia.
        eapply extended_trans; [exact Hext|exact Hpend|].
        rewrite Hcnt, operations_of_length. unfold ws. rewrite workers_length.
        destruct (partition =? 0); lia.
  - apply Z.leb_gt in Hfd. injection Hrun as <- <-. exists 0%nat.
    split; [intros i Hi; lia|]. split; [intros i k Hi; lia|]. split; [lia|].
    right. left. auto.
Qed.

(** A pass succeeds exactly when the partition opens and none of its
    chunks fails. *)
Lemma run_partition_succeeds (sys : Sys) (fuel : nat) (config : PayloadGenerationConfig)
    (partition : Z) (o : Outputs) (ok : bool) (o' : Outputs) :
  run_partition sys fuel config partition o = Returned ok o' ->
  sizes_fit config partition ->
  0 < max_threads sys ->
  0 <= data_file_size o ->
  data_file_size o + part_sizes config partition + chunk_size config <= off_t_max ->
  Z.of_nat (length (graph o)) + part_sizes config partition + chunk_size config <= 2 ^ 64 ->
  ok = partition_succeeds sys config partition (payload o).
Proof.
  intros Hrun Hfit Hroom Hd Hmax Hg. pose proof Hfit as (Hc & HP & HPmax).
  destruct (run_partition_verdict _ _ _ _ _ _ _ Hrun Hfit Hroom Hd Hmax Hg)
    as (n & Hchunks & _ & Hn & Hres).
  unfold partition_succeeds.
  destruct Hres as [(-> & Hfd & Hfull) | [(-> & Hfd & _) |
                     [(-> & Hfd & _ & j & _ & _ & HjP & Hgj & _) |
                      (-> & Hfd & HnP & _ & Hfail & _ & _)]]].
  - symmetry. apply andb_true_iff. split; [now apply Z.leb_le|].
    apply forallb_forall. intros i Hi. apply in_seq in Hi. apply Hchunks.
    assert (Hlt : Z.of_nat i * chunk_size config < part_sizes config partition).
    { apply chunk_count_spec; [assumption|assumption|lia]. }
    nia.
  - symmetry. apply andb_false_iff. left. now apply Z.leb_gt.
  - symmetry. apply andb_false_iff. right. apply (forallb_seq_false _ j).
    + now apply chunk_count_spec.
    + unfold chunk_succeeds. now rewrite Hgj.
  - symmetry. apply andb_false_iff. right. apply (forallb_seq_false _ n).
    + now apply chunk_count_spec.
    + assumption.
Qed.

(** ** The verdict of a run *)

(** After a pass that succeeded, the outputs are those before it extended
    by the operations of all the chunks of the partition. *)
Lemma run_partition_complete (sys : Sys) (fuel : nat) (config : PayloadGenerationConfig)
    (partition : Z) (o o' : Outputs) :
  run_partition sys fuel config partition o = Returned true o' ->
  sizes_fit config partition ->
  0 <= data_file_size o ->
  data_file_size o + part_sizes config partition + chunk_size config <= off_t_max ->
  Z.of_nat (length (graph o)) + part_sizes config partition + chunk_size config <= 2 ^ 64 ->
  let n := chunk_count (part_sizes config partition) (chunk_size config) in
  let ws := workers sys config partition (in_fd_of sys config partition) 0 n in
  extended partition 0 o (operations_of config (data_file_size o) ws)
    (concat (map use_buf ws)) (total_length ws) o' /\
  0 <= total_length ws <= Z.of_nat n * chunk_size config /\
  Z.of_nat n * chunk_size config < part_sizes config partition + chunk_size config /\
  (forall i, (i < n)%nat ->
     fst (worker sys config partition (in_fd_of sys config partition) i) = true).
Proof.
  intros Hrun Hfit Hd Hmax Hg. pose proof Hfit as (Hc & HP & HPmax).
  destruct (run_partition_pass _ _ _ _ _ _ _ Hrun Hfit Hd Hmax Hg)
    as (n & pend & rest & Hpass & _).
  destruct (pass_complete _ _ _ _ _ _ _ _ _ Hpass eq_refl) as (Hfull & -> & ->).
  pose proof (pass_count _ _ _ _ _ _ _ _ _ Hpass) as Hcount.
  pose proof (pass_outputs _ _ _ _ _ _ _ _ _ Hpass) as Hext.
  pose proof (pass_total _ _ _ _ _ _ _ _ _ Hpass) as Htot.
  pose proof (pass_workers _ _ _ _ _ _ _ _ _ Hpass) as Hw.
  cbn zeta in *. rewrite !app_nil_r in Hext.
  rewrite <- (chunk_count_unique _ _ n Hc HP Hcount Hfull).
  unfold in_fd_of. auto.
Qed.

(** The two passes of a run that got past the checks of its configuration. *)
Lemma Run_two_passes (sys : Sys) (fuel : nat) (config : PayloadGenerationConfig)
    (o : Outputs) (ok : bool) (o' : Outputs) :
  Run sys fuel config o = Returned ok o' ->
  run_fits config o ->
  Validate sys config = true ->
  let o1 := add_log (LogMaxThreads (max_threads sys)) o in
  exists ok0 mid,
    run_partition sys fuel config 0 o1 = Returned ok0 mid /\
    if ok0
    then run_partition sys fuel config 1 mid = Returned ok o' /\
         (let n := chunk_count (rootfs_size (target config)) (chunk_size config) in
          let ws := workers sys config 0 (in_fd_of sys config 0) 0 n in
          extended 0 0 o (operations_of config (data_file_size o) ws)
            (concat (map use_buf ws)) (total_length ws) mid) /\
         0 <= data_file_size mid /\
         data_file_size mid + kernel_size (target config) + chunk_size config <= off_t_max /\
         Z.of_nat (length (graph mid)) + kernel_size (target config) + chunk_size config
         <= 2 ^ 64
    else ok = false /\ o' = mid.
Proof.
  intros Hrun Hfits Hval. cbn zeta.
  destruct (run_fits_sizes _ _ Hfits) as (Hfit0 & Hfit1).
  destruct Hfits as (Hc & H0 & H1 & Hd & Hmax & Hg).
  unfold Run in Hrun. rewrite Hval in Hrun.
  replace (0 <? chunk_size config) with true in Hrun by (symmetry; now apply Z.ltb_lt).
  destruct (run_partition sys fuel config 0
              (add_log (LogMaxThreads (max_threads sys)) o)) as [ok0 mid| |] eqn:Hp0;
    try discriminate.
  exists ok0, mid. split; [reflexivity|].
  destruct ok0; [|now injection Hrun as <- <-].
  split; [exact Hrun|].
  destruct (run_partition_complete _ _ _ _ _ _ Hp0 Hfit0) as (Hext & Htot & Hn & _);
    cbn [data_file_size graph add_log part_sizes Z.eqb]; unfold off_t_max in *; try lia.
  cbn [part_sizes Z.eqb data_file_size add_log] in Hext, Htot, Hn.
  apply extended_add_log in Hext.
  split; [exact Hext|].
  pose proof (ext_data_file_size _ _ _ _ _ _ _ Hext) as Hd2.
  pose proof (ext_graph _ _ _ _ _ _ _ Hext) as Hg2.
  cbn [Z.eqb] in Hg2.
  rewrite Hg2, length_app, vertices_of_length, operations_of_length, workers_length.
  set (n := chunk_count (rootfs_size (target config)) (chunk_size config)) in *.
  assert (Hnn : Z.of_nat n <= Z.of_nat n * chunk_size config) by nia.
  lia.
Qed.

Lemma Run_verdict (sys : Sys) (fuel : nat) (config : PayloadGenerationConfig)
    (o : Outputs) (ok : bool) (o' : Outputs) :
  Run sys fuel config o = Returned ok o' ->
  run_fits config o ->
  0 < max_threads sys ->
  ok = run_succeeds sys config (payload o).
Proof.
  intros Hrun Hfits Hroom. unfold run_succeeds.
  destruct (run_fits_sizes _ _ Hfits) as (Hfit0 & Hfit1).
  destruct (Validate sys config) eqn:Hval.
  - destruct (Run_two_passes _ _ _ _ _ _ Hrun Hfits Hval) as (ok0 & mid & Hp0 & Hrest).
    destruct Hfits as (Hc & H0 & H1 & Hd & Hmax & Hg).
    replace (0 <? chunk_size config) with true by (symmetry; now apply Z.ltb_lt).
    cbn [andb].
    apply run_partition_succeeds in Hp0; try assumption;
      cbn [data_file_size graph add_log part_sizes Z.eqb]; unfold off_t_max in *; try lia.
    cbn [payload add_log] in Hp0. rewrite <- Hp0.
    destruct ok0.
    + destruct Hrest as (Hp1 & Hext & Hd2 & Hmax2 & Hg2). cbn [andb].
      apply run_partition_succeeds in Hp1; try assumption; cbn [part_sizes Z.eqb]; try lia.
      rewrite (ext_payload _ _ _ _ _ _ _ Hext) in Hp1. exact Hp1.
    + destruct Hrest as (-> & _). reflexivity.
  - unfold Run in Hrun. rewrite Hval in Hrun. now injection Hrun as <- _.
Qed.

(** ** The log *)

Lemma partition_loop_log (sys : Sys) (config : PayloadGenerationConfig)
    (partition in_fd : Z) (fuel : nat) :
  forall (l : Locals) (o : Outputs) ok l' o',
  partition_loop sys fuel config partition in_fd l o = Returned ok (l', o') ->
  exists lines, log o' = log o ++ lines /\ paced (last_progress_update l) lines = true.
Proof.
  assert (Hnone : forall (o : Outputs) last,
            exists lines, log o = log o ++ lines /\ paced last lines = true).
  { intros o last. exists []. now rewrite app_nil_r. }
  induction fuel as [|fuel IH]; intros l o ok l' o' Hrun; cbn [partition_loop] in Hrun;
    destruct ((0 <? bytes_left l) || negb (Nat.eqb (length (threads l)) 0));
    try discriminate; try (injection Hrun as <- <- <-; apply Hnone).
  destruct (start_processors sys (S fuel) config in_fd l) as [[|] l1| |] eqn:Hfill;
    try discriminate; [|injection Hrun as <- <- <-; apply Hnone].
  destruct (start_processors_queue _ _ _ _ _ _ _ Hfill) as (_ & _ & _ & _ & Hlast).
  destruct (threads l1) as [|front rest]; [discriminate|].
  destruct (Wait front) as [[|] processor]; [|injection Hrun as <- <- <-; apply Hnone].
  rewrite Hlast in Hrun.
  destruct (emit_operation sys config partition processor (counter l1)
              (last_progress_update l) o) as [ok1 [[c1 p1] o1]] eqn:Hemit.
  apply emit_operation_log in Hemit. cbn zeta in Hemit.
  destruct ok1; cbn [andb] in Hemit.
  - apply IH in Hrun. cbn [last_progress_update with_queue] in Hrun.
    destruct Hrun as (lines & Hlog & Hpaced).
    destruct (should_report (last_progress_update l)
                (progress_of processor (part_sizes config partition))) eqn:Hrep;
      destruct Hemit as [-> Hl].
    + eexists. rewrite Hlog, Hl, <- app_assoc. split; [reflexivity|].
      cbn [app paced]. now rewrite Hrep.
    + exists lines. now rewrite Hlog, Hl.
  - injection Hrun as <- <- <-. destruct Hemit as [_ ->]. apply Hnone.
Qed.

Lemma run_partition_log (sys : Sys) (fuel : nat) (config : PayloadGenerationConfig)
    (partition : Z) (o : Outputs) ok o' :
  run_partition sys fuel config partition o = Returned ok o' ->
  exists lines,
    log o' = log o ++ LogCompressing (paths config partition) :: lines /\
    paced INT_MIN lines = true.
Proof.
  unfold run_partition. intros Hrun.
  destruct (0 <=? open_rdonly sys (paths config partition)).
  - destruct (partition_loop sys fuel config partition _ _ _) as [ok1 [l2 o2]| |] eqn:Hloop;
      try discriminate.
    injection Hrun as <- <-. apply partition_loop_log in Hloop.
    destruct Hloop as (lines & Hlog & Hpaced). exists lines.
    rewrite Hlog. cbn [log add_log Locals_init last_progress_update] in *.
    now rewrite <- app_assoc.
  - injection Hrun as <- <-. exists []. auto.
Qed.

(** The log of a run: nothing when the configuration is turned down,
    otherwise the number of threads, then for each partition reached its
    path and its progress lines. *)
Lemma Run_log (sys : Sys) (fuel : nat) (config : PayloadGenerationConfig)
    (o : Outputs) (ok : bool) (o' : Outputs) :
  Run sys fuel config o = Returned ok o' ->
  (Validate sys config && (0 <? chunk_size config) = false /\ ok = false /\ o' = o) \/
  (Validate sys config && (0 <? chunk_size config) = true /\
   exists lines0 tail,
     log o' =
     log o ++
     LogMaxThreads (max_threads sys) ::
     LogCompressing (rootfs_part (target config)) :: lines0 ++ tail /\
     paced INT_MIN lines0 = true /\
     ((ok = false /\ tail = []) \/
      exists lines1,
        tail = LogCompressing (kernel_part (target config)) :: lines1 /\
        paced INT_MIN lines1 = true)).
Proof.
  unfold Run. intros Hrun.
  destruct (Validate sys config); [|left; now injection Hrun as <- <-].
  destruct (0 <? chunk_size config); [|left; now injection Hrun as <- <-].
  right. split; [reflexivity|].
  destruct (run_partition sys fuel config 0 _) as [ok0 mid| |] eqn:Hp0; try discriminate.
  apply run_partition_log in Hp0. destruct Hp0 as (lines0 & Hlog0 & Hpaced0).
  cbn [log add_log paths Z.eqb] in Hlog0. rewrite <- app_assoc in Hlog0.
  exists lines0. destruct ok0.
  - apply run_partition_log in Hrun. destruct Hrun as (lines1 & Hlog1 & Hpaced1).
    cbn [paths Z.eqb] in Hlog1.
    exists (LogCompressing (kernel_part (target config)) :: lines1).
    split; [|split; [assumption|right; eauto]].
    rewrite Hlog1, Hlog0, <- app_assoc. reflexivity.
  - injection Hrun as <- <-. exists []. rewrite app_nil_r.
    split; [exact Hlog0|]. split; [assumption|now left].
Qed.

(** ** Where the data of an operation lies *)

(** The operations written from [d] on, [d] being the length of what was
    written before, point at the buffers of their processors. *)
Lemma operations_slices (config : PayloadGenerationConfig) (ws : list ChunkProcessor) :
  forall (d : Z) (pre post : Blob) (i : nat) (x : InstallOperation),
  d = Z.of_nat (length pre) ->
  nth_error (operations_of config d ws) i = Some x ->
  exists w off,
    nth_error ws i = Some w /\ x = operation_of config w off /\
    blob_at (pre ++ concat (map use_buf ws) ++ post) off (Z.of_nat (length (use_buf w)))
    = use_buf w.
Proof.
  induction ws as [|w r IH]; intros d pre post i x Hd Hi.
  - destruct i; discriminate.
  - destruct i as [|i]; cbn [nth_error operations_of map concat] in *.
    + injection Hi as <-. exists w, d. split; [reflexivity|]. split; [reflexivity|].
      unfold blob_at. rewrite Hd, !Nat2Z.id, skipn_length_app, <- app_assoc.
      apply firstn_length_app.
    + destruct (IH (d + Z.of_nat (length (use_buf w))) (pre ++ use_buf w) post i x)
        as (w' & off & Hw' & Hx & Hblob); [rewrite length_app; lia|exact Hi|].
      exists w', off. split; [assumption|]. split; [assumption|].
      etransitivity; [|exact Hblob]. now rewrite <- !app_assoc.
Qed.

Section Image.
Variable sys : Sys.
Variable config : PayloadGenerationConfig.
Variable partition in_fd : Z.
Variable image : Blob.
Hypothesis fit : sizes_fit config partition.
Hypothesis content : file_content sys in_fd image.

(** A worker that succeeded holds its chunk of the image, whole, and the
    compression of it. *)
Lemma worker_holds_chunk (j : nat) :
  fst (worker sys config partition in_fd j) = true ->
  let w := snd (worker sys config partition in_fd j) in
  buffer_in_ w = image_chunk config partition image j /\
  BzipCompress sys (buffer_in_ w) = Some (buffer_compressed_ w) /\
  length (buffer_in_ w)
  = Z.to_nat (Z.min (part_sizes config partition - Z.of_nat j * chunk_size config)
                    (chunk_size config)).
Proof.
  intros Hok. cbn zeta.
  pose proof (worker_raw_size sys config partition in_fd j Hok) as Hraw.
  unfold worker in *.
  destruct (ReadAndCompress sys (chunk_processor config partition in_fd j)) as [r p'] eqn:E.
  cbn [fst snd] in *. subst r. apply ReadAndCompress_true in E.
  destruct E as (Hread & _ & Hz & _).
  cbn [chunk_processor ChunkProcessor_new fd_ offset_ buffer_in_] in Hread.
  rewrite repeat_length in Hread. destruct fit as (Hc & _).
  rewrite content in Hread by (apply Z.mul_nonneg_nonneg; lia).
  injection Hread as Hread. split; [|split; assumption].
  symmetry. exact Hread.
Qed.

End Image.

(** The completed operations of a pass carry the chunks of the image, raw
    or compressed, at the place in the payload they point at. *)
Lemma records_carry_image (sys : Sys) (config : PayloadGenerationConfig)
    (partition : Z) (image : Blob) (n : nat) (d : Z) (pre post : Blob)
    (pend : list InstallOperation) (out : Blob) :
  sizes_fit config partition ->
  file_content sys (in_fd_of sys config partition) image ->
  (forall i, (i < n)%nat ->
     fst (worker sys config partition (in_fd_of sys config partition) i) = true) ->
  d = Z.of_nat (length pre) ->
  pend = [] \/ (exists w d', pend = [pending_operation w d']) ->
  out = pre ++
        concat (map use_buf (workers sys config partition (in_fd_of sys config partition) 0 n))
        ++ post ->
  forall i x,
    nth_error (operations_of config d
                 (workers sys config partition (in_fd_of sys config partition) 0 n) ++ pend) i
    = Some x ->
    is_completed x = true ->
    let chunk := image_chunk config partition image i in
    exists off len,
      data_offset x = Some off /\ data_length x = Some len /\
      length chunk
      = Z.to_nat (Z.min (part_sizes config partition - Z.of_nat i * chunk_size config)
                        (chunk_size config)) /\
      ((type x = Some REPLACE /\ blob_at out off len = chunk) \/
       (type x = Some REPLACE_BZ /\ BzipCompress sys chunk = Some (blob_at out off len) /\
        (length (blob_at out off len) < length chunk)%nat)).
Proof.
  intros Hfit Himg Hw Hd Hpend -> i x Hi Hdone. cbn zeta.
  set (in_fd := in_fd_of sys config partition) in *.
  destruct (Nat.lt_ge_cases i n) as [Hlt|Hge].
  - rewrite nth_error_app1 in Hi by now rewrite operations_of_length, workers_length.
    destruct (operations_slices config _ d pre post i x Hd Hi) as (w & off & Hnth & -> & Hblob).
    rewrite nth_error_workers in Hnth by assumption. injection Hnth as <-.
    cbn [Nat.add] in *.
    destruct (worker_holds_chunk sys config partition in_fd image Hfit Himg i (Hw i Hlt))
      as (Hin & Hz & Hlen). cbn zeta in Hin, Hz, Hlen.
    set (w := snd (worker sys config partition in_fd i)) in *.
    exists off, (Z.of_nat (length (use_buf w))).
    cbn [operation_of data_offset data_length type].
    split; [reflexivity|]. split; [reflexivity|].
    rewrite Hblob, <- Hin. split; [exact Hlen|].
    unfold use_buf. destruct (ShouldCompress w) eqn:Hs.
    + right. split; [reflexivity|]. split; [exact Hz|].
      unfold ShouldCompress in Hs. now apply Nat.ltb_lt in Hs.
    + left. auto.
  - exfalso. rewrite nth_error_app2 in Hi by now rewrite operations_of_length, workers_length.
    destruct Hpend as [-> | (w & d' & ->)].
    + destruct (i - _)%nat; discriminate.
    + destruct (i - _)%nat as [|m]; [|destruct m; discriminate].
      injection Hi as <-. discriminate.
Qed.

(** ** The chunks together *)

Lemma firstn_add_skipn {A : Type} (a b : nat) : forall (l : list A),
  firstn a l ++ firstn b (skipn a l) = firstn (a + b) l.
Proof.
  induction a as [|a IH]; intros l; [reflexivity|].
  destruct l as [|x l]; cbn [firstn skipn Nat.add app].
  - now rewrite firstn_nil.
  - now rewrite IH.
Qed.

Lemma total_length_le_raw (ws : list ChunkProcessor) :
  0 <= total_length ws <= Z.of_nat (length (concat (map buffer_in_ ws))).
Proof.
  induction ws as [|w r IH]; cbn [total_length map concat length]; [lia|].
  rewrite length_app. pose proof (use_buf_length w). lia.
Qed.

(** Where compression never gives a shorter buffer, the raw one is used. *)
Lemma use_buf_raw (sys : Sys) (w : ChunkProcessor) :
  (forall b z, BzipCompress sys b = Some z -> (length b <= length z)%nat) ->
  BzipCompress sys (buffer_in_ w) = Some (buffer_compressed_ w) ->
  use_buf w = buffer_in_ w.
Proof.
  intros Hnever Hz. specialize (Hnever _ _ Hz). unfold use_buf, ShouldCompress.
  destruct (Nat.ltb_spec (length (buffer_compressed_ w)) (length (buffer_in_ w)));
    [lia|reflexivity].
Qed.

Section Cover.
Variable sys : Sys.
Variable config : PayloadGenerationConfig.
Variable partition in_fd : Z.
Hypothesis fit : sizes_fit config partition.

Local Abbreviation P := (part_sizes config partition).
Local Abbreviation c := (chunk_size config).

Lemma workers_snoc (n : nat) :
  workers sys config partition in_fd 0 (S n)
  = workers sys config partition in_fd 0 n ++ [snd (worker sys config partition in_fd n)].
Proof. unfold workers. now rewrite seq_S, map_app. Qed.

(** The raw buffers of the first [n] chunks hold [min (n * chunk_size)
    partition_size] bytes: each byte of the partition is read once. *)
Lemma workers_raw_total (n : nat) :
  Z.of_nat n * c < P + c ->
  (forall i, (i < n)%nat -> fst (worker sys config partition in_fd i) = true) ->
  Z.of_nat (length (concat (map buffer_in_ (workers sys config partition in_fd 0 n))))
  = Z.min (Z.of_nat n * c) P.
Proof.
  destruct fit as (Hc & HP & _).
  induction n as [|n IH]; intros Hn Hw; [cbn; lia|].
  rewrite workers_snoc, map_app, concat_app, length_app, Nat2Z.inj_add.
  rewrite IH by (try nia; intros i Hi; apply Hw; lia).
  cbn [map concat]. rewrite app_nil_r.
  rewrite (worker_raw_size sys config partition in_fd n) by (apply Hw; lia).
  nia.
Qed.

(** With the partition read from a file holding [image], they are the
    first bytes of the image, in order. *)
Lemma workers_cover (image : Blob) (n : nat) :
  file_content sys in_fd image ->
  Z.of_nat n * c < P + c ->
  (forall i, (i < n)%nat -> fst (worker sys config partition in_fd i) = true) ->
  concat (map buffer_in_ (workers sys config partition in_fd 0 n))
  = firstn (Z.to_nat (Z.min (Z.of_nat n * c) P)) image.
Proof.
  intros Himg. pose proof fit as (Hc & HP & _).
  induction n as [|n IH]; intros Hn Hw.
  { replace (Z.min (Z.of_nat 0 * c) P) with 0 by lia. reflexivity. }
  rewrite workers_snoc, map_app, concat_app.
  rewrite IH by (try nia; intros i Hi; apply Hw; lia).
  cbn [map concat]. rewrite app_nil_r.
  destruct (worker_holds_chunk sys config partition in_fd image fit Himg n (Hw n ltac:(lia)))
    as (-> & _). unfold image_chunk.
  replace (Z.min (Z.of_nat n * c) P) with (Z.of_nat n * c) by nia.
  rewrite firstn_add_skipn. f_equal. nia.
Qed.

End Cover.

Lemma workers_raw (sys : Sys) (config : PayloadGenerationConfig)
    (partition in_fd : Z) (n : nat) :
  (forall b z, BzipCompress sys b = Some z -> (length b <= length z)%nat) ->
  (forall i, (i < n)%nat -> fst (worker sys config partition in_fd i) = true) ->
  map use_buf (workers sys config partition in_fd 0 n)
  = map buffer_in_ (workers sys config partition in_fd 0 n).
Proof.
  intros Hnever Hok. apply map_ext_in. intros w Hw.
  pose proof (workers_compressed sys config partition in_fd n Hok) as Hall.
  rewrite Forall_forall in Hall. apply (use_buf_raw sys w Hnever). now apply Hall.
Qed.

(** ** How many progress lines *)

(** Percentages between 0 and 100 that pass the test of lines 186-187 one
    after the other are few: eleven at most from [INT_MIN] on, and none
    after 100. *)
Lemma paced_count (lines : list LogLine) : forall (last : Z),
  last <= 100 ->
  paced last lines = true ->
  (forall p d, In (LogProgress p d) lines -> 0 <= p <= 100) ->
  Z.of_nat (length lines) <= (if last <? 0 then 11 else (109 - last) / 10) /\
  (100 <= last -> lines = []).
Proof.
  induction lines as [|line rest IH]; intros last Hlast Hpaced Hrange.
  - cbn [length]. split; [|reflexivity].
    destruct (Z.ltb_spec last 0); [lia|]. Z.div_mod_to_equations. lia.
  - destruct line as [n|path|p d]; try discriminate.
    cbn [paced] in Hpaced. apply andb_true_iff in Hpaced. destruct Hpaced as [Hrep Hpaced].
    unfold should_report in Hrep.
    apply andb_true_iff in Hrep. destruct Hrep as [Hlt Hrep]. apply Z.ltb_lt in Hlt.
    assert (Hp : 0 <= p <= 100) by (apply (Hrange p d); now left).
    destruct (IH p ltac:(lia) Hpaced) as (Hlen & Hend).
    { intros p' d' Hin. apply (Hrange p' d'). now right. }
    split; [|lia]. cbn [length]. rewrite Nat2Z.inj_succ.
    replace (p <? 0) with false in Hlen by (symmetry; apply Z.ltb_ge; lia).
    destruct (Z.ltb_spec last 0).
    + revert Hlen. Z.div_mod_to_equations. lia.
    + apply orb_true_iff in Hrep. destruct Hrep as [Hrep|Hrep].
      * apply Z.leb_le in Hrep. revert Hlen. Z.div_mod_to_equations. lia.
      * apply Z.eqb_eq in Hrep. rewrite (Hend ltac:(lia)). cbn [length].
        Z.div_mod_to_equations. lia.
Qed.

(** The lines of the reporter carry the percentages of the chunks. *)
Lemma progress_report_range (P : Z) (ws : list ChunkProcessor) :
  Forall (fun w => 0 <= reported_progress (offset_ w + Z.of_nat (length (buffer_in_ w))) P
                   <= 100) ws ->
  forall last dfs p d, In (LogProgress p d) (progress_report P last dfs ws) -> 0 <= p <= 100.
Proof.
  induction ws as [|w r IH]; intros Hall last dfs p d Hin; [destruct Hin|].
  inversion Hall as [|? ? Hw Hr]; subst. cbn [progress_report] in Hin.
  destruct (reports last _).
  - destruct Hin as [Hin|Hin]; [now injection Hin as <- _|]. now apply (IH Hr _ _ _ _ Hin).
  - now apply (IH Hr _ _ _ _ Hin).
Qed.

(** A chunk at 100 percent is always reported, and it comes last. *)
Lemma progress_report_last (P : Z) (w : ChunkProcessor) (ws : list ChunkProcessor) :
  reported_progress (offset_ w + Z.of_nat (length (buffer_in_ w))) P = 100 ->
  forall last dfs,
  exists before,
    progress_report P last dfs (ws ++ [w])
    = before ++ [LogProgress 100 (dfs + total_length (ws ++ [w]))].
Proof.
  intros Hw. induction ws as [|v r IH]; intros last dfs.
  - cbn [app progress_report total_length]. rewrite Hw. unfold reports.
    rewrite Z.eqb_refl, orb_true_r. exists []. cbn [app]. now rewrite Z.add_0_r.
  - cbn [app progress_report total_length]. destruct (reports last _).
    + destruct (IH (reported_progress (offset_ v + Z.of_nat (length (buffer_in_ v))) P)
                  (dfs + Z.of_nat (length (use_buf v)))) as (before & ->).
      eexists (_ :: before). cbn [app]. now rewrite Z.add_assoc.
    + destruct (IH last (dfs + Z.of_nat (length (use_buf v)))) as (before & ->).
      exists before. now rewrite Z.add_assoc.
Qed.

Section Lines.
Variable sys : Sys.
Variable config : PayloadGenerationConfig.
Variable partition in_fd : Z.
Hypothesis fit : sizes_fit config partition.

Local Abbreviation P := (part_sizes config partition).
Local Abbreviation c := (chunk_size config).

Lemma worker_percentage (j : nat) :
  fst (worker sys config partition in_fd j) = true ->
  Z.of_nat j * c < P ->
  let w := snd (worker sys config partition in_fd j) in
  0 <= reported_progress (offset_ w + Z.of_nat (length (buffer_in_ w))) P <= 100 /\
  (P <= Z.of_nat (S j) * c ->
   reported_progress (offset_ w + Z.of_nat (length (buffer_in_ w))) P = 100).
Proof.
  intros Hok Hj. cbn zeta. destruct fit as (Hc & HP & _).
  rewrite (worker_offset sys config partition in_fd j Hok).
  rewrite (worker_raw_size sys config partition in_fd j Hok).
  unfold reported_progress.
  assert (Hnn : 0 <= Z.of_nat j * c) by (apply Z.mul_nonneg_nonneg; lia).
  set (x := Z.of_nat j * c + Z.of_nat (Z.to_nat (Z.min (P - Z.of_nat j * c) c))).
  assert (Hx : 0 < x <= P) by (unfold x; lia).
  split.
  - split; [apply Z.div_pos; lia|]. apply Z.div_le_upper_bound; lia.
  - intros Hfull. assert (x = P) as -> by (unfold x; lia).
    apply Z.div_mul. lia.
Qed.

Lemma workers_percentages (n : nat) :
  Z.of_nat n * c < P + c ->
  (forall i, (i < n)%nat -> fst (worker sys config partition in_fd i) = true) ->
  Forall (fun w => 0 <= reported_progress (offset_ w + Z.of_nat (length (buffer_in_ w))) P
                   <= 100)
    (workers sys config partition in_fd 0 n).
Proof.
  intros Hn Hok. unfold workers. apply Forall_map, Forall_forall.
  intros i Hi. apply in_seq in Hi. apply worker_percentage.
  - apply Hok. lia.
  - destruct fit as (Hc & _). nia.
Qed.

End Lines.

(** The progress lines of a pass: at most eleven; none for an empty
    partition; and after a pass that succeeded on a partition that is not
    empty, a last line at 100 percent with the size the payload has
    reached. *)
Lemma run_partition_progress (sys : Sys) (fuel : nat) (config : PayloadGenerationConfig)
    (partition : Z) (o : Outputs) (ok : bool) (o' : Outputs) :
  run_partition sys fuel config partition o = Returned ok o' ->
  sizes_fit config partition ->
  part_sizes config partition < 2 ^ 46 ->
  0 <= data_file_size o ->
  data_file_size o + part_sizes config partition + chunk_size config <= off_t_max ->
  Z.of_nat (length (graph o)) + part_sizes config partition + chunk_size config <= 2 ^ 64 ->
  exists lines,
    log o' = log o ++ LogCompressing (paths config partition) :: lines /\
    paced INT_MIN lines = true /\
    (length lines <= 11)%nat /\
    (part_sizes config partition = 0 -> lines = []) /\
    (ok = true -> 0 < part_sizes config partition ->
     exists before, lines = before ++ [LogProgress 100 (data_file_size o')]).
Proof.
  intros Hrun Hfit Hsmall Hd Hmax Hg. pose proof Hfit as (Hc & HP & _).
  destruct (run_partition_log _ _ _ _ _ _ _ Hrun) as (lines & Hlog & Hpaced).
  destruct (run_partition_pass _ _ _ _ _ _ _ Hrun Hfit Hd Hmax Hg)
    as (n & pend & rest & Hpass & Hrep).
  specialize (Hrep Hsmall). rewrite Hlog in Hrep. apply app_inv_head in Hrep.
  injection Hrep as Hrep.
  pose proof (pass_workers _ _ _ _ _ _ _ _ _ Hpass) as Hw.
  pose proof (pass_count _ _ _ _ _ _ _ _ _ Hpass) as Hcount.
  fold (in_fd_of sys config partition) in *.
  set (in_fd := in_fd_of sys config partition) in *.
  exists lines. split; [exact Hlog|]. split; [exact Hpaced|]. split; [|split].
  - destruct (paced_count lines INT_MIN ltac:(unfold INT_MIN; lia) Hpaced) as (Hlen & _).
    + rewrite Hrep. apply progress_report_range.
      now apply (workers_percentages sys config partition in_fd Hfit).
    + change (INT_MIN <? 0) with true in Hlen. lia.
  - intros Hempty. rewrite Hrep. assert (n = 0%nat) as -> by nia. reflexivity.
  - intros -> Hpos.
    destruct (pass_complete _ _ _ _ _ _ _ _ _ Hpass eq_refl) as (Hfull & -> & ->).
    pose proof (pass_outputs _ _ _ _ _ _ _ _ _ Hpass) as Hext. cbn zeta in Hext.
    change (open_rdonly sys (paths config partition)) with in_fd in Hext.
    rewrite (ext_data_file_size _ _ _ _ _ _ _ Hext).
    destruct n as [|m]; [lia|].
    rewrite Hrep, workers_snoc. apply progress_report_last.
    apply (worker_percentage sys config partition in_fd Hfit m); [apply Hw; lia|nia|lia].
Qed.

(** ** The properties *)

(** X1.  [Run] returns, and it returns true exactly when nothing it relies
    on fails: the configuration is valid and its chunk size positive, both
    partitions open, and every chunk of the root filesystem and then of
    the kernel gets a thread from [g_thread_try_new], is read in full and
    compressed, and has its buffer written out whole after the buffers of
    the chunks before it. *)
Theorem run_succeeds_iff_nothing_fails (sys : Sys) (fuel : nat)
    (config : PayloadGenerationConfig) (o : Outputs) :
  run_fits config o ->
  0 < block_size config ->
  sysconf_nprocessors_onln sys < 2 ^ 63 ->
  (chunk_count (rootfs_size (target config)) (chunk_size config) <= fuel)%nat ->
  (chunk_count (kernel_size (target config)) (chunk_size config) <= fuel)%nat ->
  exists ok o',
    Run sys fuel config o = Returned ok o' /\
    ok = run_succeeds sys config (payload o).
Proof.
  intros Hfits Hblock Hsys Hfuel0 Hfuel1.
  destruct (Run_returns sys fuel config o Hfits Hsys Hfuel0 Hfuel1) as (ok & o' & Hrun).
  exists ok, o'. split; [exact Hrun|].
  apply (Run_verdict _ _ _ _ _ _ Hrun Hfits).
  pose proof (max_threads_ge_4 sys ltac:(lia)). lia.
Qed.

Lemma run_succeeds_iff_nothing_fails_witness :
  exists ok o',
    Run Scenario.sys_disk_full 6 Scenario.config Scenario.empty = Returned ok o' /\
    ok = run_succeeds Scenario.sys_disk_full Scenario.config [].
Proof.
  apply (run_succeeds_iff_nothing_fails Scenario.sys_disk_full 6 Scenario.config
           Scenario.empty).
  - unfold run_fits, off_t_max. cbn. lia.
  - cbn. lia.
  - cbn. lia.
  - vm_compute. lia.
  - vm_compute. lia.
Defined.

(** X2.  [Run] never takes the front of an empty queue (line 152): as
    [max_threads] is at least 4, the inner loop has queued a processor
    whenever the outer loop goes round. *)
Theorem front_of_queue_exists (sys : Sys) (fuel : nat)
    (config : PayloadGenerationConfig) (o : Outputs) :
  sysconf_nprocessors_onln sys < 2 ^ 64 ->
  Run sys fuel config o <> Undefined.
Proof.
  intros Hsys.
  assert (Hroom : 0 < max_threads sys).
  { pose proof (max_threads_ge_4 sys Hsys). lia. }
  assert (Hpart : forall partition o1,
            run_partition sys fuel config partition o1 <> Undefined).
  { intros partition o1. unfold run_partition.
    destruct (0 <=? open_rdonly sys (paths config partition)); [|discriminate].
    pose proof (partition_loop_defined sys config partition
                  (open_rdonly sys (paths config partition)) fuel
                  (Locals_init (part_sizes config partition))
                  (add_log (LogCompressing (paths config partition)) o1) Hroom) as Hdef.
    destruct (partition_loop sys fuel config partition _ _ _) as [ok [l2 o2]| |];
      [discriminate|discriminate|contradiction]. }
  unfold Run.
  destruct (Validate sys config); [|discriminate].
  destruct (0 <? chunk_size config); [|discriminate].
  pose proof (Hpart 0 (add_log (LogMaxThreads (max_threads sys)) o)) as H0.
  destruct (run_partition sys fuel config 0 _) as [[|] o2| |];
    [apply Hpart|discriminate|discriminate|contradiction].
Qed.

Lemma front_of_queue_exists_witness :
  Run Scenario.sys 6 Scenario.config Scenario.empty <> Undefined.
Proof.
  apply (front_of_queue_exists Scenario.sys 6 Scenario.config Scenario.empty).
  cbn. lia.
Defined.

(** X3.  The inner loop (lines 140-148) keeps the queue within
    [max_threads].  Started on a queue that is not longer, it comes back
    after at most as many steps as the queue has room, with a queue that
    is not longer either and still begins with the processors that were
    there; when it comes back without a failure the queue holds exactly
    [max_threads] processors or no bytes are left to hand out. *)
Theorem queue_bounded_by_max_threads (sys : Sys) (config : PayloadGenerationConfig)
    (in_fd : Z) (fuel : nat) (l : Locals) :
  Z.of_nat (length (threads l)) <= max_threads sys ->
  (Z.to_nat (max_threads sys - Z.of_nat (length (threads l))) <= fuel)%nat ->
  exists ok l1,
    start_processors sys fuel config in_fd l = Returned ok l1 /\
    Z.of_nat (length (threads l1)) <= max_threads sys /\
    firstn (length (threads l)) (threads l1) = threads l /\
    (ok = true ->
     Z.of_nat (length (threads l1)) = max_threads sys \/ bytes_left l1 <= 0).
Proof.
  intros Hbound Hfuel.
  destruct (start_processors_total sys config in_fd fuel l Hfuel) as (ok & l1 & Hrun).
  exists ok, l1. split; [exact Hrun|].
  destruct (start_processors_queue _ _ _ _ _ _ _ Hrun) as (_ & Hb & Hstop & _).
  specialize (Hb Hbound). split; [exact Hb|]. split.
  - now apply (start_processors_keeps sys config in_fd fuel l ok l1).
  - intros Hok. destruct (Hstop Hok) as [[H|H] _]; [left; lia|now right].
Qed.

Lemma queue_bounded_by_max_threads_witness :
  exists ok l1,
    start_processors Scenario.sys 4 Scenario.config 3 (Locals_init 60) = Returned ok l1 /\
    Z.of_nat (length (threads l1)) <= max_threads Scenario.sys /\
    firstn (length (threads (Locals_init 60))) (threads l1) = threads (Locals_init 60) /\
    (ok = true ->
     Z.of_nat (length (threads l1)) = max_threads Scenario.sys \/ bytes_left l1 <= 0).
Proof.
  apply (queue_bounded_by_max_threads Scenario.sys Scenario.config 3 4 (Locals_init 60)).
  - vm_compute. discriminate.
  - vm_compute. lia.
Defined.

(** X4.  The queue runs [max_threads] chunks ahead of the writes.  When
    chunk [j] of the root filesystem is the first one that gets no thread,
    and the chunks that are at least [max_threads] before it are read,
    compressed and written without a failure, [Run] returns false having
    emitted exactly the operations of these, [j + 1 - max_threads] of them
    (none if [j < max_threads]): the chunks in between were started, and
    perhaps read and compressed, but their buffers are dropped.  The
    kernel operations are left as they were. *)
Theorem refused_thread_drops_queued_chunks (sys : Sys) (fuel : nat)
    (config : PayloadGenerationConfig) (o : Outputs) (j : nat) :
  run_fits config o ->
  0 < block_size config ->
  sysconf_nprocessors_onln sys < 2 ^ 63 ->
  (chunk_count (rootfs_size (target config)) (chunk_size config) <= fuel)%nat ->
  (chunk_count (kernel_size (target config)) (chunk_size config) <= fuel)%nat ->
  Validate sys config = true ->
  0 <= in_fd_of sys config 0 ->
  (j < chunk_count (rootfs_size (target config)) (chunk_size config))%nat ->
  thread_granted sys config 0 j = false ->
  forallb (thread_granted sys config 0) (seq 0 j) = true ->
  let n := Z.to_nat (Z.of_nat j + 1 - max_threads sys) in
  forallb (chunk_succeeds sys config 0 (payload o)) (seq 0 n) = true ->
  exists o',
    Run sys fuel config o = Returned false o' /\
    rootfs_operations o o'
    = operations_of config (data_file_size o)
        (workers sys config 0 (in_fd_of sys config 0) 0 n) /\
    payload o' = written_before sys config 0 (payload o) n /\
    kernel_ops o' = kernel_ops o.
Proof.
  intros Hfits Hblock Hsys Hfuel0 Hfuel1 Hval Hfd Hj Hgj Hbefore n Hchunks.
  destruct (Run_returns sys fuel config o Hfits Hsys Hfuel0 Hfuel1) as (ok & o' & Hrun).
  destruct (Run_two_passes _ _ _ _ _ _ Hrun Hfits Hval) as (ok0 & mid & Hp0 & Hrest).
  destruct (run_fits_sizes _ _ Hfits) as (Hfit0 & Hfit1).
  pose proof Hfits as (Hc & H0 & H1 & Hd & Hmax & Hg).
  assert (Hroom : 0 < max_threads sys).
  { pose proof (max_threads_ge_4 sys ltac:(lia)). lia. }
  rewrite forallb_forall in Hbefore, Hchunks.
  assert (HjP : Z.of_nat j * chunk_size config < rootfs_size (target config)).
  { now apply chunk_count_spec. }
  destruct (run_partition_verdict _ _ _ _ _ _ _ Hp0 Hfit0 Hroom) as (n' & Hdone & Hlook & Hn & Hres);
    cbn [data_file_size graph add_log part_sizes Z.eqb]; unfold off_t_max in *; try lia.
  cbn [part_sizes Z.eqb payload add_log data_file_size] in Hdone, Hlook, Hn, Hres.
  destruct Hres as [(-> & _ & Hfull) | [(_ & Hneg & _) |
                     [(-> & _ & Hext & j' & Hj' & Hjm & Hj'P & Hgj' & Hbelow) |
                      (-> & _ & HnP & Hahead & Hfail & _ & _)]]].
  - exfalso. assert (Hlt : (j < n')%nat) by nia.
    specialize (Hdone j Hlt). unfold chunk_succeeds in Hdone. rewrite Hgj in Hdone.
    discriminate.
  - lia.
  - destruct Hrest as (-> & ->).
    assert (j' = j) as ->.
    { destruct (Nat.lt_trichotomy j' j) as [Hlt|[Heq|Hgt]]; [exfalso|assumption|exfalso].
      - rewrite (Hbefore j') in Hgj'; [discriminate|apply in_seq; lia].
      - rewrite (Hbelow j Hgt) in Hgj. discriminate. }
    assert (n' = n) as ->.
    { unfold n. destruct n' as [|m]; [lia|].
      assert (Hge : Z.of_nat m + max_threads sys <= Z.of_nat j).
      { destruct (Z.le_gt_cases (Z.of_nat m + max_threads sys) (Z.of_nat j)); [assumption|].
        rewrite (Hlook m j) in Hgj; [discriminate|lia|lia|assumption]. }
      lia. }
    exists mid. split; [exact Hrun|].
    apply extended_add_log in Hext.
    destruct Hext as [Hg2 Hk2 _ _ Hp2]. cbn [Z.eqb] in Hg2, Hk2.
    split; [|split].
    + unfold rootfs_operations. rewrite Hg2, skipn_length_app. apply map_op_vertices_of.
    + exact Hp2.
    + now rewrite Hk2, app_nil_r.
  - exfalso.
    destruct (Z.le_gt_cases (Z.of_nat n' + max_threads sys) (Z.of_nat j)) as [Hle|Hgt].
    + rewrite Hchunks in Hfail; [discriminate|]. apply in_seq. unfold n. lia.
    + rewrite (Hahead j) in Hgj; [discriminate|lia|assumption].
Qed.

Lemma refused_thread_drops_queued_chunks_witness :
  exists o',
    Run Scenario.sys_threads_run_out 6 Scenario.config Scenario.empty = Returned false o' /\
    rootfs_operations Scenario.empty o'
    = operations_of Scenario.config 0
        (workers Scenario.sys_threads_run_out Scenario.config 0
           (in_fd_of Scenario.sys_threads_run_out Scenario.config 0) 0 2) /\
    payload o' = written_before Scenario.sys_threads_run_out Scenario.config 0 [] 2 /\
    kernel_ops o' = [].
Proof.
  apply (refused_thread_drops_queued_chunks Scenario.sys_threads_run_out 6
           Scenario.config Scenario.empty 5).
  - unfold run_fits, off_t_max. cbn. lia.
  - cbn. lia.
  - cbn. lia.
  - vm_compute. lia.
  - vm_compute. lia.
  - reflexivity.
  - vm_compute. discriminate.
  - vm_compute. lia.
  - reflexivity.
  - reflexivity.
  - vm_compute. reflexivity.
Defined.

(** X5.  [Run] returns, and what a run with a valid configuration logs is,
    in this order: the number of threads (line 124); the path of the root
    filesystem (line 131) and its progress lines; and, unless the run
    failed on the root filesystem, the path of the kernel and its progress
    lines.  Within a partition every progress line passes the test of
    lines 186-187 against the line before it, the first one against
    [INT_MIN]: the percentages increase strictly, each by 10 or more
    unless it is 100. *)
Theorem log_of_a_run (sys : Sys) (fuel : nat)
    (config : PayloadGenerationConfig) (o : Outputs) :
  run_fits config o ->
  0 < block_size config ->
  sysconf_nprocessors_onln sys < 2 ^ 63 ->
  (chunk_count (rootfs_size (target config)) (chunk_size config) <= fuel)%nat ->
  (chunk_count (kernel_size (target config)) (chunk_size config) <= fuel)%nat ->
  Validate sys config = true ->
  exists ok o' lines0 tail,
    Run sys fuel config o = Returned ok o' /\
    log o' =
    log o ++
    LogMaxThreads (max_threads sys) ::
    LogCompressing (rootfs_part (target config)) :: lines0 ++ tail /\
    paced INT_MIN lines0 = true /\
    ((ok = false /\ tail = []) \/
     exists lines1,
       tail = LogCompressing (kernel_part (target config)) :: lines1 /\
       paced INT_MIN lines1 = true).
Proof.
  intros Hfits Hblock Hsys Hfuel0 Hfuel1 Hval.
  destruct (Run_returns sys fuel config o Hfits Hsys Hfuel0 Hfuel1) as (ok & o' & Hrun).
  destruct (Run_log _ _ _ _ _ _ Hrun) as [(Hno & _) | (_ & lines0 & tail & H)].
  - destruct Hfits as (Hc & _). rewrite Hval in Hno. cbn [andb] in Hno.
    apply Z.ltb_ge in Hno. lia.
  - exists ok, o', lines0, tail. split; [exact Hrun|exact H].
Qed.

Lemma log_of_a_run_witness :
  exists ok o' lines0 tail,
    Run Scenario.sys 6 Scenario.config Scenario.empty = Returned ok o' /\
    log o' =
    [] ++ LogMaxThreads 4 :: LogCompressing "rootfs.img" :: lines0 ++ tail /\
    paced INT_MIN lines0 = true /\
    ((ok = false /\ tail = []) \/
     exists lines1,
       tail = LogCompressing "kernel.img" :: lines1 /\ paced INT_MIN lines1 = true).
Proof.
  apply (log_of_a_run Scenario.sys 6 Scenario.config Scenario.empty).
  - unfold run_fits, off_t_max. cbn. lia.
  - cbn. lia.
  - cbn. lia.
  - vm_compute. lia.
  - vm_compute. lia.
  - reflexivity.
Defined.

(** X6.  [Run] only adds to its outputs, whether it succeeds or fails:
    the vertices, kernel operations, entries of the final order, payload
    bytes and log lines that were there are still there, in front of what
    the run appended, and [data_file_size] has not gone down. *)
Theorem outputs_only_grow (sys : Sys) (fuel : nat)
    (config : PayloadGenerationConfig) (o : Outputs) :
  run_fits config o ->
  0 < block_size config ->
  sysconf_nprocessors_onln sys < 2 ^ 63 ->
  (chunk_count (rootfs_size (target config)) (chunk_size config) <= fuel)%nat ->
  (chunk_count (kernel_size (target config)) (chunk_size config) <= fuel)%nat ->
  exists ok o',
    Run sys fuel config o = Returned ok o' /\
    firstn (length (graph o)) (graph o') = graph o /\
    firstn (length (kernel_ops o)) (kernel_ops o') = kernel_ops o /\
    firstn (length (final_order o)) (final_order o') = final_order o /\
    firstn (length (payload o)) (payload o') = payload o /\
    firstn (length (log o)) (log o') = log o /\
    data_file_size o <= data_file_size o'.
Proof.
  intros Hfits Hblock Hsys Hfuel0 Hfuel1.
  destruct (Run_returns sys fuel config o Hfits Hsys Hfuel0 Hfuel1) as (ok & o' & Hrun).
  exists ok, o'. split; [exact Hrun|].
  destruct (Run_passes _ _ _ _ _ _ Hrun Hfits)
    as (mid & ok0 & n0 & pend0 & rest0 & n1 & pend1 & rest1 & H0 & H1 & _).
  pose proof (pass_outputs _ _ _ _ _ _ _ _ _ H0) as [Hg0 Hk0 Hf0 Hd0 Hp0].
  pose proof (pass_outputs _ _ _ _ _ _ _ _ _ H1) as [Hg1 Hk1 Hf1 Hd1 Hp1].
  pose proof (pass_total _ _ _ _ _ _ _ _ _ H0) as Ht0.
  pose proof (pass_total _ _ _ _ _ _ _ _ _ H1) as Ht1.
  cbn zeta in Ht0, Ht1.
  rewrite Hg1, Hg0, Hk1, Hk0, Hf1, Hf0, Hp1, Hp0, <- !app_assoc, !firstn_length_app.
  repeat split; try lia.
  destruct (Run_log _ _ _ _ _ _ Hrun) as [(_ & _ & ->) | (_ & lines0 & tail & -> & _)].
  - apply firstn_all.
  - apply firstn_length_app.
Qed.

Lemma outputs_only_grow_witness :
  exists ok o',
    Run Scenario.sys_disk_full 6 Scenario.config Scenario.final = Returned ok o' /\
    firstn (length (graph Scenario.final)) (graph o') = graph Scenario.final /\
    firstn (length (kernel_ops Scenario.final)) (kernel_ops o') = kernel_ops Scenario.final /\
    firstn (length (final_order Scenario.final)) (final_order o')
    = final_order Scenario.final /\
    firstn (length (payload Scenario.final)) (payload o') = payload Scenario.final /\
    firstn (length (log Scenario.final)) (log o') = log Scenario.final /\
    data_file_size Scenario.final <= data_file_size o'.
Proof.
  apply (outputs_only_grow Scenario.sys_disk_full 6 Scenario.config Scenario.final).
  - unfold run_fits, off_t_max. cbn. lia.
  - cbn. lia.
  - cbn. lia.
  - vm_compute. lia.
  - vm_compute. lia.
Defined.

(** X7.  [Run] leaves every output as it was, the log included, and
    returns false, exactly when it turns the configuration down, that is
    when [Validate] fails or the chunk size is not positive (lines
    117-120); nothing has been opened or logged by then. *)
Theorem untouched_iff_configuration_refused (sys : Sys) (fuel : nat)
    (config : PayloadGenerationConfig) (o : Outputs) :
  Run sys fuel config o = Returned false o <->
  Validate sys config = false \/ chunk_size config <= 0.
Proof.
  split.
  - intros Hrun.
    destruct (Run_log _ _ _ _ _ _ Hrun) as [(Hno & _) | (_ & lines0 & tail & Hlog & _)].
    + apply andb_false_iff in Hno. destruct Hno as [H|H]; [now left|right].
      now apply Z.ltb_ge.
    + exfalso. apply (f_equal (@length LogLine)) in Hlog.
      rewrite length_app in Hlog. cbn [length] in Hlog. lia.
  - intros Hno. unfold Run. destruct (Validate sys config); [|reflexivity].
    destruct Hno as [Hno|Hno]; [discriminate|].
    apply Z.ltb_ge in Hno. now rewrite Hno.
Qed.

(** X8.  What the operations say is what the payload holds.  When
    [data_file_size] starts as the length of the payload file and the
    partitions are read from files holding [image0] and [image1], [Run]
    returns, and every completed operation, of a run that succeeded or
    not, has at [data_offset], over [data_length] bytes of the payload,
    the chunk of its partition's image that its index designates (offset
    [i * chunk_size], the last one shorter): as it is for [REPLACE], and
    its compression, strictly shorter, for [REPLACE_BZ]. *)
Theorem operations_carry_the_image (sys : Sys) (fuel : nat)
    (config : PayloadGenerationConfig) (o : Outputs) (image0 image1 : Blob) :
  run_fits config o ->
  0 < block_size config ->
  sysconf_nprocessors_onln sys < 2 ^ 63 ->
  (chunk_count (rootfs_size (target config)) (chunk_size config) <= fuel)%nat ->
  (chunk_count (kernel_size (target config)) (chunk_size config) <= fuel)%nat ->
  data_file_size o = Z.of_nat (length (payload o)) ->
  file_content sys (in_fd_of sys config 0) image0 ->
  file_content sys (in_fd_of sys config 1) image1 ->
  exists ok o',
    Run sys fuel config o = Returned ok o' /\
    forall partition, partition = 0 \/ partition = 1 ->
      let ops := if partition =? 0 then rootfs_operations o o' else kernel_operations o o' in
      let image := if partition =? 0 then image0 else image1 in
      forall i x, nth_error ops i = Some x -> is_completed x = true ->
        let chunk := image_chunk config partition image i in
        exists off len,
          data_offset x = Some off /\ data_length x = Some len /\
          length chunk
          = Z.to_nat (Z.min (part_sizes config partition - Z.of_nat i * chunk_size config)
                            (chunk_size config)) /\
          ((type x = Some REPLACE /\ blob_at (payload o') off len = chunk) \/
           (type x = Some REPLACE_BZ /\
            BzipCompress sys chunk = Some (blob_at (payload o') off len) /\
            (length (blob_at (payload o') off len) < length chunk)%nat)).
Proof.
  intros Hfits Hblock Hsys Hfuel0 Hfuel1 Hdfs Himg0 Himg1.
  destruct (Run_returns sys fuel config o Hfits Hsys Hfuel0 Hfuel1) as (ok & o' & Hrun).
  exists ok, o'. split; [exact Hrun|].
  destruct (run_fits_sizes _ _ Hfits) as (Hfit0 & Hfit1).
  destruct (Run_records _ _ _ _ _ _ Hrun Hfits) as (n0 & n1 & pend0 & pend1 & R).
  destruct R as [Hr Hk Hg Hf Hd Hw0 Hw1 Hc0 Hc1 Hcomp Hpay Hprog Hp0 Hp1].
  destruct Hpay as (rest & Hpay & _).
  rewrite map_app, concat_app in Hpay.
  intros partition [-> | ->]; cbn [Z.eqb].
  - rewrite Hr.
    apply (records_carry_image sys config 0 image0 n0 (data_file_size o) (payload o)
             (concat (map use_buf (workers sys config 1 (in_fd_of sys config 1) 0 n1)) ++ rest));
      try assumption.
    + destruct Hp0 as [->|(_ & _ & _ & _ & _ & ->)]; [now left|right; eauto].
    + rewrite Hpay. now rewrite <- !app_assoc.
  - rewrite Hk.
    apply (records_carry_image sys config 1 image1 n1 _
             (payload o ++ concat (map use_buf (workers sys config 0 (in_fd_of sys config 0) 0 n0)))
             rest); try assumption.
    + rewrite length_app, Nat2Z.inj_add, <- total_length_concat. lia.
    + destruct Hp1 as [->|(_ & _ & _ & ->)]; [now left|right; eauto].
    + rewrite Hpay. now rewrite <- !app_assoc.
Qed.

Lemma operations_carry_the_image_witness :
  exists ok o',
    Run Scenario.sys 6 Scenario.config Scenario.empty = Returned ok o' /\
    forall partition, partition = 0 \/ partition = 1 ->
      let ops := if partition =? 0 then rootfs_operations Scenario.empty o'
                 else kernel_operations Scenario.empty o' in
      let image := if partition =? 0 then Scenario.rootfs_image else Scenario.kernel_image in
      forall i x, nth_error ops i = Some x -> is_completed x = true ->
        let chunk := image_chunk Scenario.config partition image i in
        exists off len,
          data_offset x = Some off /\ data_length x = Some len /\
          length chunk
          = Z.to_nat (Z.min (part_sizes Scenario.config partition - Z.of_nat i * 10) 10) /\
          ((type x = Some REPLACE /\ blob_at (payload o') off len = chunk) \/
           (type x = Some REPLACE_BZ /\
            Scenario.pack chunk = Some (blob_at (payload o') off len) /\
            (length (blob_at (payload o') off len) < length chunk)%nat)).
Proof.
  apply (operations_carry_the_image Scenario.sys 6 Scenario.config Scenario.empty
           Scenario.rootfs_image Scenario.kernel_image).
  - unfold run_fits, off_t_max. cbn. lia.
  - cbn. lia.
  - cbn. lia.
  - vm_compute. lia.
  - vm_compute. lia.
  - reflexivity.
  - intros count off Hoff. reflexivity.
  - intros count off Hoff. reflexivity.
Defined.

(** X9.  The payload never grows by more than the two partitions hold:
    [Run] returns, and [data_file_size] has advanced by at most
    [rootfs_size + kernel_size], each chunk being written in the shorter of
    its two forms; after a successful run with a compressor that never
    gives a shorter buffer it has advanced by exactly that. *)
Theorem payload_no_larger_than_partitions (sys : Sys) (fuel : nat)
    (config : PayloadGenerationConfig) (o : Outputs) :
  run_fits config o ->
  0 < block_size config ->
  sysconf_nprocessors_onln sys < 2 ^ 63 ->
  (chunk_count (rootfs_size (target config)) (chunk_size config) <= fuel)%nat ->
  (chunk_count (kernel_size (target config)) (chunk_size config) <= fuel)%nat ->
  exists ok o',
    Run sys fuel config o = Returned ok o' /\
    data_file_size o <= data_file_size o'
    <= data_file_size o + rootfs_size (target config) + kernel_size (target config) /\
    (ok = true ->
     (forall b z, BzipCompress sys b = Some z -> (length b <= length z)%nat) ->
     data_file_size o'
     = data_file_size o + rootfs_size (target config) + kernel_size (target config)).
Proof.
  intros Hfits Hblock Hsys Hfuel0 Hfuel1.
  destruct (Run_returns sys fuel config o Hfits Hsys Hfuel0 Hfuel1) as (ok & o' & Hrun).
  exists ok, o'. split; [exact Hrun|].
  destruct (run_fits_sizes _ _ Hfits) as (Hfit0 & Hfit1).
  destruct (Run_records _ _ _ _ _ _ Hrun Hfits) as (n0 & n1 & pend0 & pend1 & R).
  destruct R as [Hr Hk Hg Hf Hd Hw0 Hw1 Hc0 Hc1 Hcomp Hpay Hprog Hp0 Hp1].
  pose proof (workers_raw_total sys config 0 (in_fd_of sys config 0) Hfit0 n0 Hc0 Hw0) as Hraw0.
  pose proof (workers_raw_total sys config 1 (in_fd_of sys config 1) Hfit1 n1 Hc1 Hw1) as Hraw1.
  cbn [part_sizes Z.eqb] in Hraw0, Hraw1.
  pose proof (total_length_le_raw (workers sys config 0 (in_fd_of sys config 0) 0 n0)) as Hle0.
  pose proof (total_length_le_raw (workers sys config 1 (in_fd_of sys config 1) 0 n1)) as Hle1.
  split; [lia|].
  intros Hok Hnever. destruct (Hcomp Hok) as (Hfull0 & Hfull1 & _).
  rewrite Hd, !total_length_concat.
  rewrite (workers_raw sys config 0 _ n0 Hnever Hw0), (workers_raw sys config 1 _ n1 Hnever Hw1).
  lia.
Qed.

Lemma payload_no_larger_than_partitions_witness :
  exists ok o',
    Run Scenario.sys 6 Scenario.config Scenario.empty = Returned ok o' /\
    0 <= data_file_size o' <= 0 + 60 + 25 /\
    (ok = true ->
     (forall b z, Scenario.pack b = Some z -> (length b <= length z)%nat) ->
     data_file_size o' = 0 + 60 + 25).
Proof.
  apply (payload_no_larger_than_partitions Scenario.sys 6 Scenario.config Scenario.empty).
  - unfold run_fits, off_t_max. cbn. lia.
  - cbn. lia.
  - cbn. lia.
  - vm_compute. lia.
  - vm_compute. lia.
Defined.

(** X10.  With the partitions read from files holding [image0] and
    [image1], a run succeeds only if each file has at least the bytes the
    configuration declares for its partition; and when moreover the
    compressor never gives a shorter buffer, what a successful run appends
    to the payload is a copy of the two partitions: the first
    [rootfs_size] bytes of [image0] followed by the first [kernel_size]
    bytes of [image1]. *)
Theorem incompressible_images_are_copied (sys : Sys) (fuel : nat)
    (config : PayloadGenerationConfig) (o : Outputs) (image0 image1 : Blob) :
  run_fits config o ->
  0 < block_size config ->
  sysconf_nprocessors_onln sys < 2 ^ 63 ->
  (chunk_count (rootfs_size (target config)) (chunk_size config) <= fuel)%nat ->
  (chunk_count (kernel_size (target config)) (chunk_size config) <= fuel)%nat ->
  file_content sys (in_fd_of sys config 0) image0 ->
  file_content sys (in_fd_of sys config 1) image1 ->
  exists ok o',
    Run sys fuel config o = Returned ok o' /\
    (ok = true ->
     rootfs_size (target config) <= Z.of_nat (length image0) /\
     kernel_size (target config) <= Z.of_nat (length image1) /\
     ((forall b z, BzipCompress sys b = Some z -> (length b <= length z)%nat) ->
      payload o' =
      payload o ++
      firstn (Z.to_nat (rootfs_size (target config))) image0 ++
      firstn (Z.to_nat (kernel_size (target config))) image1)).
Proof.
  intros Hfits Hblock Hsys Hfuel0 Hfuel1 Himg0 Himg1.
  destruct (Run_returns sys fuel config o Hfits Hsys Hfuel0 Hfuel1) as (ok & o' & Hrun).
  exists ok, o'. split; [exact Hrun|]. intros Hok.
  destruct (run_fits_sizes _ _ Hfits) as (Hfit0 & Hfit1).
  pose proof Hfits as (Hc & HP0 & HP1 & _).
  destruct (Run_records _ _ _ _ _ _ Hrun Hfits) as (n0 & n1 & pend0 & pend1 & R).
  destruct R as [Hr Hk Hg Hf Hd Hw0 Hw1 Hc0 Hc1 Hcomp Hpay Hprog Hp0 Hp1].
  destruct (Hcomp Hok) as (Hfull0 & Hfull1 & _).
  pose proof (workers_raw_total sys config 0 (in_fd_of sys config 0) Hfit0 n0 Hc0 Hw0) as Hraw0.
  pose proof (workers_raw_total sys config 1 (in_fd_of sys config 1) Hfit1 n1 Hc1 Hw1) as Hraw1.
  pose proof (workers_cover sys config 0 (in_fd_of sys config 0) Hfit0 image0 n0 Himg0 Hc0 Hw0)
    as Hcov0.
  pose proof (workers_cover sys config 1 (in_fd_of sys config 1) Hfit1 image1 n1 Himg1 Hc1 Hw1)
    as Hcov1.
  cbn [part_sizes Z.eqb] in Hraw0, Hraw1, Hcov0, Hcov1.
  rewrite Hcov0, length_firstn in Hraw0. rewrite Hcov1, length_firstn in Hraw1.
  replace (Z.min (Z.of_nat n0 * chunk_size config) (rootfs_size (target config)))
    with (rootfs_size (target config)) in * by lia.
  replace (Z.min (Z.of_nat n1 * chunk_size config) (kernel_size (target config)))
    with (kernel_size (target config)) in * by lia.
  split; [lia|]. split; [lia|].
  intros Hnever. destruct Hpay as (rest & -> & Hrest). rewrite (Hrest Hok), app_nil_r.
  rewrite map_app, concat_app.
  rewrite (workers_raw sys config 0 _ n0 Hnever Hw0), (workers_raw sys config 1 _ n1 Hnever Hw1).
  now rewrite Hcov0, Hcov1.
Qed.

Lemma incompressible_images_are_copied_witness :
  exists ok o',
    Run Scenario.sys_40 6 Scenario.config_40 Scenario.empty = Returned ok o' /\
    (ok = true ->
     40 <= Z.of_nat (length (skipn 10 Scenario.rootfs_image)) /\
     0 <= Z.of_nat (length (@nil byte)) /\
     ((forall b z, Scenario.pack b = Some z -> (length b <= length z)%nat) ->
      payload o' =
      [] ++ firstn (Z.to_nat 40) (skipn 10 Scenario.rootfs_image) ++ firstn (Z.to_nat 0) [])).
Proof.
  apply (incompressible_images_are_copied Scenario.sys_40 6 Scenario.config_40
           Scenario.empty (skipn 10 Scenario.rootfs_image) []).
  - unfold run_fits, off_t_max. cbn. lia.
  - cbn. lia.
  - cbn. lia.
  - vm_compute. lia.
  - vm_compute. lia.
  - intros count off Hoff. reflexivity.
  - intros count off Hoff. cbn. now rewrite skipn_nil.
Defined.

(** X11.  The progress lines are rationed.  [Run] returns, and in the log
    of a successful run over partitions below 2^46 bytes each partition
    has at most eleven progress lines after its path; a partition of size
    zero has none; and one that is not empty ends with a line at 100
    percent that gives the size of the payload at the end of the pass (for
    the kernel, the final [data_file_size]). *)
Theorem progress_lines_are_few_and_end_at_100 (sys : Sys) (fuel : nat)
    (config : PayloadGenerationConfig) (o : Outputs) :
  run_fits config o ->
  0 < block_size config ->
  rootfs_size (target config) < 2 ^ 46 ->
  kernel_size (target config) < 2 ^ 46 ->
  sysconf_nprocessors_onln sys < 2 ^ 63 ->
  (chunk_count (rootfs_size (target config)) (chunk_size config) <= fuel)%nat ->
  (chunk_count (kernel_size (target config)) (chunk_size config) <= fuel)%nat ->
  exists ok o',
    Run sys fuel config o = Returned ok o' /\
    (ok = true ->
     exists lines0 lines1,
       log o' =
       log o ++
       LogMaxThreads (max_threads sys) ::
       LogCompressing (rootfs_part (target config)) :: lines0 ++
       LogCompressing (kernel_part (target config)) :: lines1 /\
       (length lines0 <= 11)%nat /\ (length lines1 <= 11)%nat /\
       (rootfs_size (target config) = 0 -> lines0 = []) /\
       (kernel_size (target config) = 0 -> lines1 = []) /\
       (0 < rootfs_size (target config) ->
        exists before,
          lines0 =
          before ++
          [LogProgress 100
             (data_file_size o +
              total_length
                (workers sys config 0 (in_fd_of sys config 0) 0
                   (chunk_count (rootfs_size (target config)) (chunk_size config))))]) /\
       (0 < kernel_size (target config) ->
        exists before, lines1 = before ++ [LogProgress 100 (data_file_size o')])).
Proof.
  intros Hfits Hblock Hs0 Hs1 Hsys Hfuel0 Hfuel1.
  destruct (Run_returns sys fuel config o Hfits Hsys Hfuel0 Hfuel1) as (ok & o' & Hrun).
  exists ok, o'. split; [exact Hrun|]. intros ->.
  destruct (run_fits_sizes _ _ Hfits) as (Hfit0 & Hfit1).
  assert (Hval : Validate sys config = true).
  { destruct (Validate sys config) eqn:Hval; [reflexivity|].
    unfold Run in Hrun. rewrite Hval in Hrun. discriminate. }
  destruct (Run_two_passes _ _ _ _ _ _ Hrun Hfits Hval) as (ok0 & mid & Hp0 & Hrest).
  destruct ok0; [|destruct Hrest; discriminate].
  destruct Hrest as (Hp1 & Hext & Hd2 & Hmax2 & Hg2).
  destruct Hfits as (Hc & H0 & H1 & Hd & Hmax & Hg).
  destruct (run_partition_progress _ _ _ _ _ _ _ Hp0 Hfit0)
    as (lines0 & Hlog0 & _ & Hlen0 & Hnone0 & Hlast0);
    cbn [data_file_size graph add_log part_sizes Z.eqb]; unfold off_t_max in *; try lia.
  destruct (run_partition_progress _ _ _ _ _ _ _ Hp1 Hfit1)
    as (lines1 & Hlog1 & _ & Hlen1 & Hnone1 & Hlast1);
    cbn [part_sizes Z.eqb]; unfold off_t_max in *; try lia.
  cbn [part_sizes paths Z.eqb log add_log] in *.
  exists lines0, lines1.
  split; [rewrite Hlog1, Hlog0, <- !app_assoc; reflexivity|].
  repeat split; try assumption.
  - intros Hpos. rewrite <- (ext_data_file_size _ _ _ _ _ _ _ Hext). now apply Hlast0.
  - intros Hpos. now apply Hlast1.
Qed.

Lemma progress_lines_are_few_and_end_at_100_witness :
  exists ok o',
    Run Scenario.sys 6 Scenario.config Scenario.empty = Returned ok o' /\
    (ok = true ->
     exists lines0 lines1,
       log o' =
       [] ++
       LogMaxThreads 4 :: LogCompressing "rootfs.img" :: lines0 ++
       LogCompressing "kernel.img" :: lines1 /\
       (length lines0 <= 11)%nat /\ (length lines1 <= 11)%nat /\
       (60 = 0 -> lines0 = []) /\
       (25 = 0 -> lines1 = []) /\
       (0 < 60 ->
        exists before,
          lines0 =
          before ++
          [LogProgress 100
             (0 + total_length
                    (workers Scenario.sys Scenario.config 0
                       (in_fd_of Scenario.sys Scenario.config 0) 0
                       (chunk_count 60 10)))]) /\
       (0 < 25 ->
        exists before, lines1 = before ++ [LogProgress 100 (data_file_size o')])).
Proof.
  apply (progress_lines_are_few_and_end_at_100 Scenario.sys 6 Scenario.config Scenario.empty).
  - unfold run_fits, off_t_max. cbn. lia.
  - cbn. lia.
  - cbn. lia.
  - cbn. lia.
  - cbn. lia.
  - vm_compute. lia.
  - vm_compute. lia.
Defined.

(** X12.  Chunking of a partition of any size.  [Run] returns, and after
    a successful run a partition of [P] bytes has one operation per chunk,
    [ceil (P / chunk_size)] of them, none when [P] is zero; the [i]-th is
    the operation of the processor that read at offset [i * chunk_size];
    every chunk but the last holds [chunk_size] bytes and the last one the
    remainder, so that the raw buffers add up to [P] bytes. *)
Theorem chunks_of_any_partition (sys : Sys) (fuel : nat)
    (config : PayloadGenerationConfig) (o : Outputs) (partition : Z) :
  run_fits config o ->
  0 < block_size config ->
  sysconf_nprocessors_onln sys < 2 ^ 63 ->
  (chunk_count (rootfs_size (target config)) (chunk_size config) <= fuel)%nat ->
  (chunk_count (kernel_size (target config)) (chunk_size config) <= fuel)%nat ->
  partition = 0 \/ partition = 1 ->
  exists ok o',
    Run sys fuel config o = Returned ok o' /\
    (ok = true ->
     let ops := if partition =? 0 then rootfs_operations o o' else kernel_operations o o' in
     let P := part_sizes config partition in
     let n := chunk_count P (chunk_size config) in
     let ws := workers sys config partition (in_fd_of sys config partition) 0 n in
     Z.of_nat (length ops) = (P + chunk_size config - 1) / chunk_size config /\
     (exists d, ops = operations_of config d ws) /\
     (forall i w, nth_error ws i = Some w ->
        offset_ w = Z.of_nat i * chunk_size config /\
        Z.of_nat (length (buffer_in_ w))
        = (if (S i =? n)%nat then P - Z.of_nat i * chunk_size config
           else chunk_size config) /\
        0 < Z.of_nat (length (buffer_in_ w))) /\
     Z.of_nat (length (concat (map buffer_in_ ws))) = P).
Proof.
  intros Hfits Hblock Hsys Hfuel0 Hfuel1 Hpart.
  destruct (Run_returns sys fuel config o Hfits Hsys Hfuel0 Hfuel1) as (ok & o' & Hrun).
  exists ok, o'. split; [exact Hrun|]. intros ->.
  destruct (run_fits_sizes _ _ Hfits) as (Hfit0 & Hfit1).
  destruct (Run_records _ _ _ _ _ _ Hrun Hfits) as (n0 & n1 & pend0 & pend1 & R).
  destruct R as [Hr Hk Hg Hf Hd Hw0 Hw1 Hc0 Hc1 Hcomp Hpay Hprog Hp0 Hp1].
  destruct (Hcomp eq_refl) as (Hfull0 & Hfull1 & -> & ->).
  rewrite app_nil_r in Hr, Hk.
  assert (Hgen : forall partition n ops d,
            sizes_fit config partition ->
            ops = operations_of config d
                    (workers sys config partition (in_fd_of sys config partition) 0 n) ->
            (forall i, (i < n)%nat ->
               fst (worker sys config partition (in_fd_of sys config partition) i) = true) ->
            Z.of_nat n * chunk_size config < part_sizes config partition + chunk_size config ->
            part_sizes config partition <= Z.of_nat n * chunk_size config ->
            let P := part_sizes config partition in
            let m := chunk_count P (chunk_size config) in
            let ws := workers sys config partition (in_fd_of sys config partition) 0 m in
            Z.of_nat (length ops) = (P + chunk_size config - 1) / chunk_size config /\
            (exists d, ops = operations_of config d ws) /\
            (forall i w, nth_error ws i = Some w ->
               offset_ w = Z.of_nat i * chunk_size config /\
               Z.of_nat (length (buffer_in_ w))
               = (if (S i =? m)%nat then P - Z.of_nat i * chunk_size config
                  else chunk_size config) /\
               0 < Z.of_nat (length (buffer_in_ w))) /\
            Z.of_nat (length (concat (map buffer_in_ ws))) = P).
  { intros part n ops d Hfit -> Hw Hcount Hfull. pose proof Hfit as (Hc & HP & _).
    cbn zeta. rewrite <- (chunk_count_unique _ _ n Hc HP Hcount Hfull).
    split; [|split; [eauto|split]].
    - rewrite operations_of_length, workers_length.
      rewrite (chunk_count_unique _ _ n Hc HP Hcount Hfull). unfold chunk_count.
      apply Z2Nat.id. apply Z.div_pos; lia.
    - intros i w Hnth.
      assert (Hi : (i < n)%nat).
      { rewrite <- (workers_length sys config part (in_fd_of sys config part) 0 n).
        apply nth_error_Some. now rewrite Hnth. }
      rewrite nth_error_workers in Hnth by assumption. injection Hnth as <-.
      cbn [Nat.add].
      rewrite (worker_offset sys config part _ i (Hw i Hi)).
      rewrite (worker_raw_size sys config part _ i (Hw i Hi)).
      split; [reflexivity|].
      destruct (Nat.eqb_spec (S i) n) as [<-|Hne]; nia.
    - rewrite (workers_raw_total sys config part _ Hfit n Hcount Hw). lia. }
  destruct Hpart as [-> | ->]; cbn [Z.eqb].
  - now apply (Hgen 0 n0 _ _ Hfit0 Hr Hw0).
  - now apply (Hgen 1 n1 _ _ Hfit1 Hk Hw1).
Qed.

Lemma chunks_of_any_partition_witness :
  exists ok o',
    Run Scenario.sys 6 Scenario.config Scenario.empty = Returned ok o' /\
    (ok = true ->
     let ops := kernel_operations Scenario.empty o' in
     let n := chunk_count 25 10 in
     let ws := workers Scenario.sys Scenario.config 1
                 (in_fd_of Scenario.sys Scenario.config 1) 0 n in
     Z.of_nat (length ops) = (25 + 10 - 1) / 10 /\
     (exists d, ops = operations_of Scenario.config d ws) /\
     (forall i w, nth_error ws i = Some w ->
        offset_ w = Z.of_nat i * 10 /\
        Z.of_nat (length (buffer_in_ w))
        = (if (S i =? n)%nat then 25 - Z.of_nat i * 10 else 10) /\
        0 < Z.of_nat (length (buffer_in_ w))) /\
     Z.of_nat (length (concat (map buffer_in_ ws))) = 25).
Proof.
  apply (chunks_of_any_partition Scenario.sys 6 Scenario.config Scenario.empty 1).
  - unfold run_fits, off_t_max. cbn. lia.
  - cbn. lia.
  - cbn. lia.
  - vm_compute. lia.
  - vm_compute. lia.
  - right. reflexivity.
Defined.

(** X13.  With a block size that divides the chunk size, the destination
    extent of a completed operation is the place of its chunk in the
    partition: [Run] returns, and the single extent of the [i]-th
    operation of a partition starts at byte [i * chunk_size]
    ([start_block * block_size]) and spans [chunk_size] bytes
    ([num_blocks * block_size]), so that the extents of a partition follow
    one another from block 0 without gap or overlap. *)
Theorem extents_are_the_places_of_chunks (sys : Sys) (fuel : nat)
    (config : PayloadGenerationConfig) (o : Outputs) :
  run_fits config o ->
  0 < block_size config ->
  chunk_size config mod block_size config = 0 ->
  sysconf_nprocessors_onln sys < 2 ^ 63 ->
  (chunk_count (rootfs_size (target config)) (chunk_size config) <= fuel)%nat ->
  (chunk_count (kernel_size (target config)) (chunk_size config) <= fuel)%nat ->
  exists ok o',
    Run sys fuel config o = Returned ok o' /\
    forall partition, partition = 0 \/ partition = 1 ->
      let ops := if partition =? 0 then rootfs_operations o o' else kernel_operations o o' in
      forall i x, nth_error ops i = Some x -> is_completed x = true ->
        exists e,
          dst_extents x = [e] /\
          start_block e * block_size config = Z.of_nat i * chunk_size config /\
          num_blocks e * block_size config = chunk_size config /\
          start_block e = Z.of_nat i * num_blocks e.
Proof.
  intros Hfits Hbs Hdiv Hsys Hfuel0 Hfuel1.
  destruct (Run_returns sys fuel config o Hfits Hsys Hfuel0 Hfuel1) as (ok & o' & Hrun).
  exists ok, o'. split; [exact Hrun|].
  destruct (run_fits_sizes _ _ Hfits) as (Hfit0 & Hfit1).
  destruct (Run_records _ _ _ _ _ _ Hrun Hfits) as (n0 & n1 & pend0 & pend1 & R).
  destruct R as [Hr Hk Hg Hf Hd Hw0 Hw1 Hc0 Hc1 Hcomp Hpay Hprog Hp0 Hp1].
  assert (Hck : chunk_size config = chunk_size config / block_size config * block_size config).
  { rewrite Z.mul_comm. apply Z.div_exact; lia. }
  assert (Hgen : forall partition n d pend ops,
            sizes_fit config partition ->
            ops = operations_of config d
                    (workers sys config partition (in_fd_of sys config partition) 0 n) ++ pend ->
            (forall i, (i < n)%nat ->
               fst (worker sys config partition (in_fd_of sys config partition) i) = true) ->
            (pend = [] \/ exists w d', pend = [pending_operation w d']) ->
            forall i x, nth_error ops i = Some x -> is_completed x = true ->
              exists e,
                dst_extents x = [e] /\
                start_block e * block_size config = Z.of_nat i * chunk_size config /\
                num_blocks e * block_size config = chunk_size config /\
                start_block e = Z.of_nat i * num_blocks e).
  { intros partition n d pend ops Hfit -> Hw Hpend i x Hi Hdone.
    destruct (Nat.lt_ge_cases i n) as [Hlt|Hge].
    - rewrite nth_error_app1 in Hi by now rewrite operations_of_length, workers_length.
      apply operations_of_nth_error in Hi. destruct Hi as (w & d' & Hnth & ->).
      rewrite nth_error_workers in Hnth by assumption. injection Hnth as <-.
      cbn [dst_extents operation_of Nat.add].
      rewrite (worker_offset sys config partition _ i) by now apply Hw.
      eexists. split; [reflexivity|]. cbn [start_block num_blocks].
      assert (Hq : Z.of_nat i * chunk_size config / block_size config
                   = Z.of_nat i * (chunk_size config / block_size config)).
      { rewrite Hck at 1. rewrite Z.mul_assoc. apply Z.div_mul. lia. }
      rewrite Hq. split; [|split; [lia|reflexivity]].
      rewrite <- Z.mul_assoc. now rewrite <- Hck.
    - exfalso.
      rewrite nth_error_app2 in Hi by now rewrite operations_of_length, workers_length.
      destruct Hpend as [-> | (w & d' & ->)].
      + destruct (i - _)%nat; discriminate.
      + destruct (i - _)%nat as [|m]; [|destruct m; discriminate].
        injection Hi as <-. discriminate. }
  intros partition [-> | ->]; cbn [Z.eqb].
  - apply (Hgen 0 n0 _ pend0 _ Hfit0 Hr Hw0).
    destruct Hp0 as [->|(_ & _ & _ & _ & _ & ->)]; [now left|right; eauto].
  - apply (Hgen 1 n1 _ pend1 _ Hfit1 Hk Hw1).
    destruct Hp1 as [->|(_ & _ & _ & ->)]; [now left|right; eauto].
Qed.

Lemma extents_are_the_places_of_chunks_witness :
  exists ok o',
    Run Scenario.sys 6 Scenario.config Scenario.empty = Returned ok o' /\
    forall partition, partition = 0 \/ partition = 1 ->
      let ops := if partition =? 0 then rootfs_operations Scenario.empty o'
                 else kernel_operations Scenario.empty o' in
      forall i x, nth_error ops i = Some x -> is_completed x = true ->
        exists e,
          dst_extents x = [e] /\
          start_block e * 5 = Z.of_nat i * 10 /\
          num_blocks e * 5 = 10 /\
          start_block e = Z.of_nat i * num_blocks e.
Proof.
  apply (extents_are_the_places_of_chunks Scenario.sys 6 Scenario.config Scenario.empty).
  - unfold run_fits, off_t_max. cbn. lia.
  - cbn. lia.
  - reflexivity.
  - cbn. lia.
  - vm_compute. lia.
  - vm_compute. lia.
Defined.

(** X14.  The life of a processor (lines 35-39, 72-106).  For a fresh
    processor [Start] then [Wait] both succeed exactly when
    [g_thread_try_new] gives a thread, [PReadAll] brings exactly the
    bytes asked for and [BzipCompress] succeeds; the processor then holds
    the bytes read and their compression.  Whatever happens, [Wait]
    leaves no thread behind and the descriptor and offset are those the
    processor was built with; a processor that was not started, or whose
    [Start] failed, makes [Wait] fail. *)
Theorem start_then_wait (sys : Sys) (fd offset : Z) (size : nat) :
  let p := ChunkProcessor_new fd offset size in
  let started := fst (Start sys p) in
  let waited := fst (Wait (snd (Start sys p))) in
  let p' := snd (Wait (snd (Start sys p))) in
  (started && waited = true <->
   g_thread_try_new sys fd offset = true /\
   exists data z,
     PReadAll sys fd size offset = Some data /\ length data = size /\
     BzipCompress sys data = Some z) /\
  (started && waited = true ->
   PReadAll sys fd size offset = Some (buffer_in_ p') /\
   BzipCompress sys (buffer_in_ p') = Some (buffer_compressed_ p')) /\
  thread_ p' = None /\ fd_ p' = fd /\ offset_ p' = offset /\
  (started = false -> waited = false) /\
  fst (Wait p) = false.
Proof.
  cbn zeta. unfold Start, Wait, ReadAndCompress.
  cbn [ChunkProcessor_new fd_ offset_ buffer_in_ thread_]. rewrite repeat_length.
  destruct (g_thread_try_new sys fd offset); cbn [fst snd set_thread thread_];
    [|repeat split; auto; try discriminate; intros (Hf & _); discriminate].
  destruct (PReadAll sys fd size offset) as [data|] eqn:Hread;
    cbn [fst snd set_thread thread_ fd_ offset_ andb].
  - destruct (Nat.eqb_spec (length data) size) as [Hlen|Hlen];
      cbn [fst snd set_thread set_buffer_in thread_ fd_ offset_ buffer_in_ andb].
    + rewrite blob_store_full by now rewrite repeat_length.
      destruct (BzipCompress sys data) as [z|] eqn:Hz;
        cbn [fst snd set_thread set_buffer_in set_buffer_compressed thread_ fd_ offset_
             buffer_in_ buffer_compressed_ andb].
      * repeat split; auto; try discriminate. exists data, z. auto.
      * repeat split; auto; try discriminate.
        intros (_ & d & z & Hd & _ & Hz'). injection Hd as <-. congruence.
    + repeat split; auto; try discriminate.
      intros (_ & d & z & Hd & Hl & _). injection Hd as <-. contradiction.
  - repeat split; auto; try discriminate.
    intros (_ & d & z & Hd & _). discriminate.
Qed.

(** X15.  Partitions without bytes.  A partition whose declared size is
    zero, or is 2^63 or more and so negative once stored in the [off_t]
    [bytes_left] (line 137), is opened and then passed over: no processor
    is started and nothing is read or written.  When both partitions are
    such and both open, [Run] returns true whatever the files hold, having
    only logged the number of threads and the two paths. *)
Theorem partitions_without_bytes (sys : Sys) (fuel : nat)
    (config : PayloadGenerationConfig) (o : Outputs) :
  Validate sys config = true ->
  0 < chunk_size config ->
  0 <= in_fd_of sys config 0 ->
  0 <= in_fd_of sys config 1 ->
  rootfs_size (target config) = 0 \/ 2 ^ 63 <= rootfs_size (target config) < 2 ^ 64 ->
  kernel_size (target config) = 0 \/ 2 ^ 63 <= kernel_size (target config) < 2 ^ 64 ->
  Run sys fuel config o =
  Returned true
    (add_log (LogCompressing (kernel_part (target config)))
       (add_log (LogCompressing (rootfs_part (target config)))
          (add_log (LogMaxThreads (max_threads sys)) o))).
Proof.
  intros Hval Hc Hfd0 Hfd1 Hs0 Hs1.
  assert (Hskip : forall partition o1,
            0 <= in_fd_of sys config partition ->
            part_sizes config partition = 0 \/
            2 ^ 63 <= part_sizes config partition < 2 ^ 64 ->
            run_partition sys fuel config partition o1
            = Returned true (add_log (LogCompressing (paths config partition)) o1)).
  { intros partition o1 Hfd Hsize. unfold run_partition.
    fold (in_fd_of sys config partition).
    replace (0 <=? in_fd_of sys config partition) with true
      by (symmetry; now apply Z.leb_le).
    assert (Hleft : (0 <? bytes_left (Locals_init (part_sizes config partition))) = false).
    { cbn [Locals_init bytes_left]. apply Z.ltb_ge. unfold to_off_t.
      destruct Hsize as [-> | Hbig]; [reflexivity|].
      replace (part_sizes config partition + 2 ^ 63)
        with (part_sizes config partition - 2 ^ 63 + 1 * 2 ^ 64) by lia.
      rewrite Z.mod_add by lia. rewrite Z.mod_small by lia. lia. }
    destruct fuel; cbn [partition_loop]; rewrite Hleft; reflexivity. }
  unfold Run. rewrite Hval.
  replace (0 <? chunk_size config) with true by (symmetry; now apply Z.ltb_lt).
  rewrite (Hskip 0) by assumption. now rewrite (Hskip 1) by assumption.
Qed.

Lemma partitions_without_bytes_witness :
  Run Scenario.sys 0 Scenario.config_void Scenario.empty =
  Returned true
    (add_log (LogCompressing "kernel.img")
       (add_log (LogCompressing "rootfs.img")
          (add_log (LogMaxThreads (max_threads Scenario.sys)) Scenario.empty))).
Proof.
  apply (partitions_without_bytes Scenario.sys 0 Scenario.config_void Scenario.empty).
  - reflexivity.
  - cbn. lia.
  - vm_compute. discriminate.
  - vm_compute. discriminate.
  - left. reflexivity.
  - right. cbn. lia.
Defined.

(** X16.  A failure leaves what was done before it.  When the whole root
    filesystem goes through and the kernel partition then cannot be opened
    (lines 132-133), [Run] returns false, yet the graph holds the
    operations of all the chunks of the root filesystem and the payload
    their data, with [data_file_size] advanced accordingly; the kernel
    operations are untouched, and the last line logged is the path of the
    kernel. *)
Theorem kernel_that_does_not_open (sys : Sys) (fuel : nat)
    (config : PayloadGenerationConfig) (o : Outputs) :
  run_fits config o ->
  0 < block_size config ->
  sysconf_nprocessors_onln sys < 2 ^ 63 ->
  (chunk_count (rootfs_size (target config)) (chunk_size config) <= fuel)%nat ->
  Validate sys config = true ->
  partition_succeeds sys config 0 (payload o) = true ->
  in_fd_of sys config 1 < 0 ->
  let n := chunk_count (rootfs_size (target config)) (chunk_size config) in
  let ws := workers sys config 0 (in_fd_of sys config 0) 0 n in
  exists o',
    Run sys fuel config o = Returned false o' /\
    rootfs_operations o o' = operations_of config (data_file_size o) ws /\
    length (graph o') = (length (graph o) + n)%nat /\
    payload o' = written_before sys config 0 (payload o) n /\
    data_file_size o' = data_file_size o + total_length ws /\
    kernel_ops o' = kernel_ops o /\
    last (log o') (LogMaxThreads 0) = LogCompressing (kernel_part (target config)).
Proof.
  intros Hfits Hblock Hsys Hfuel0 Hval Hpass Hfd1 n ws.
  destruct (run_fits_sizes _ _ Hfits) as (Hfit0 & Hfit1).
  pose proof Hfits as (Hc & H0 & H1 & Hd & Hmax & Hg).
  assert (Hroom : 0 < max_threads sys).
  { pose proof (max_threads_ge_4 sys ltac:(lia)). lia. }
  destruct (run_partition_returns sys fuel config 0
              (add_log (LogMaxThreads (max_threads sys)) o) Hfit0 Hroom Hfuel0)
    as (ok0 & mid & Hp0).
  pose proof Hp0 as Hok0.
  apply run_partition_succeeds in Hok0; try assumption;
    cbn [data_file_size graph add_log part_sizes Z.eqb]; unfold off_t_max in *; try lia.
  cbn [payload add_log] in Hok0. rewrite Hpass in Hok0. subst ok0.
  assert (Hrun : Run sys fuel config o
                 = Returned false (add_log (LogCompressing (kernel_part (target config))) mid)).
  { unfold Run. rewrite Hval.
    replace (0 <? chunk_size config) with true by (symmetry; now apply Z.ltb_lt).
    rewrite Hp0. unfold run_partition. fold (in_fd_of sys config 1).
    replace (0 <=? in_fd_of sys config 1) with false by (symmetry; now apply Z.leb_gt).
    reflexivity. }
  destruct (Run_two_passes _ _ _ _ _ _ Hrun Hfits Hval) as (ok0 & mid' & Hp0' & Hrest).
  cbn zeta in Hp0'. rewrite Hp0 in Hp0'. injection Hp0' as <- <-.
  destruct Hrest as (_ & Hext & _). fold n in Hext. fold ws in Hext.
  destruct Hext as [Hg2 Hk2 _ Hd2 Hp2]. cbn [Z.eqb] in Hg2, Hk2.
  eexists. split; [exact Hrun|].
  cbn [graph payload data_file_size kernel_ops log add_log].
  split; [|split; [|split; [|split; [|split]]]].
  - unfold rootfs_operations. cbn [graph add_log].
    rewrite Hg2, skipn_length_app. apply map_op_vertices_of.
  - rewrite Hg2, length_app, vertices_of_length, operations_of_length.
    unfold ws. now rewrite workers_length.
  - exact Hp2.
  - exact Hd2.
  - now rewrite Hk2, app_nil_r.
  - apply last_last.
Qed.

Lemma kernel_that_does_not_open_witness :
  let n := chunk_count 60 10 in
  let ws := workers Scenario.sys Scenario.config_no_kernel 0
              (in_fd_of Scenario.sys Scenario.config_no_kernel 0) 0 n in
  exists o',
    Run Scenario.sys 6 Scenario.config_no_kernel Scenario.empty = Returned false o' /\
    rootfs_operations Scenario.empty o' = operations_of Scenario.config_no_kernel 0 ws /\
    length (graph o') = (0 + n)%nat /\
    payload o' = written_before Scenario.sys Scenario.config_no_kernel 0 [] n /\
    data_file_size o' = 0 + total_length ws /\
    kernel_ops o' = [] /\
    last (log o') (LogMaxThreads 0) = LogCompressing "missing.img".
Proof.
  apply (kernel_that_does_not_open Scenario.sys 6 Scenario.config_no_kernel Scenario.empty).
  - unfold run_fits, off_t_max. cbn. lia.
  - cbn. lia.
  - cbn. lia.
  - vm_compute. lia.
  - reflexivity.
  - vm_compute. reflexivity.
  - vm_compute. reflexivity.
Defined.

(** X17.  A chunk that cannot be read or compressed (lines 98-104, 154).
    When chunk [j] of the root filesystem is the first whose worker fails,
    by a read that fails or comes short or by a compression that fails,
    and threads are granted as far as the queue reaches ahead of it, [Run]
    returns false having emitted exactly the operations of the [j] chunks
    before it: the payload holds their data and nothing of chunk [j] or of
    the chunks queued behind it, and the kernel is not looked at. *)
Theorem failed_worker_stops_run_at_its_chunk (sys : Sys) (fuel : nat)
    (config : PayloadGenerationConfig) (o : Outputs) (j : nat) :
  run_fits config o ->
  0 < block_size config ->
  sysconf_nprocessors_onln sys < 2 ^ 63 ->
  (chunk_count (rootfs_size (target config)) (chunk_size config) <= fuel)%nat ->
  (chunk_count (kernel_size (target config)) (chunk_size config) <= fuel)%nat ->
  Validate sys config = true ->
  0 <= in_fd_of sys config 0 ->
  (j < chunk_count (rootfs_size (target config)) (chunk_size config))%nat ->
  fst (worker sys config 0 (in_fd_of sys config 0) j) = false ->
  forallb (chunk_succeeds sys config 0 (payload o)) (seq 0 j) = true ->
  forallb (thread_granted sys config 0)
    (seq 0 (Nat.min (j + Z.to_nat (max_threads sys))
              (chunk_count (rootfs_size (target config)) (chunk_size config)))) = true ->
  let ws := workers sys config 0 (in_fd_of sys config 0) 0 j in
  exists o',
    Run sys fuel config o = Returned false o' /\
    rootfs_operations o o' = operations_of config (data_file_size o) ws /\
    payload o' = written_before sys config 0 (payload o) j /\
    data_file_size o' = data_file_size o + total_length ws /\
    kernel_ops o' = kernel_ops o.
Proof.
  intros Hfits Hblock Hsys Hfuel0 Hfuel1 Hval Hfd Hj Hwj Hbefore Hthreads ws.
  destruct (Run_returns sys fuel config o Hfits Hsys Hfuel0 Hfuel1) as (ok & o' & Hrun).
  destruct (Run_two_passes _ _ _ _ _ _ Hrun Hfits Hval) as (ok0 & mid & Hp0 & Hrest).
  destruct (run_fits_sizes _ _ Hfits) as (Hfit0 & Hfit1).
  pose proof Hfits as (Hc & H0 & H1 & Hd & Hmax & Hg).
  assert (Hroom : 0 < max_threads sys).
  { pose proof (max_threads_ge_4 sys ltac:(lia)). lia. }
  rewrite forallb_forall in Hbefore, Hthreads.
  assert (Hnot : chunk_succeeds sys config 0 (payload o) j = false).
  { unfold chunk_succeeds. rewrite Hwj. now rewrite andb_false_r. }
  destruct (run_partition_verdict _ _ _ _ _ _ _ Hp0 Hfit0 Hroom)
    as (n' & Hdone & Hlook & Hn & Hres);
    cbn [data_file_size graph add_log part_sizes Z.eqb]; unfold off_t_max in *; try lia.
  cbn [part_sizes Z.eqb payload add_log data_file_size] in Hdone, Hlook, Hn, Hres.
  assert (Hle : (n' <= j)%nat).
  { destruct (Nat.le_gt_cases n' j) as [Hle|Hgt]; [assumption|].
    rewrite (Hdone j Hgt) in Hnot. discriminate. }
  destruct Hres as [(-> & _ & Hfull) | [(_ & Hneg & _) |
                     [(-> & _ & _ & j' & Hj' & Hjm & Hj'P & Hgj' & _) |
                      (-> & _ & HnP & _ & Hfail & Hext & _)]]].
  - exfalso. apply (chunk_count_spec _ _ j Hc H0) in Hj. nia.
  - lia.
  - exfalso. rewrite Hthreads in Hgj'; [discriminate|]. apply in_seq.
    apply (chunk_count_spec _ _ j' Hc H0) in Hj'P. lia.
  - assert (n' = j) as ->.
    { destruct (Nat.eq_dec n' j) as [Heq|Hne]; [assumption|exfalso].
      rewrite Hbefore in Hfail; [discriminate|apply in_seq; lia]. }
    destruct Hrest as (-> & ->). exists mid. split; [exact Hrun|].
    specialize (Hext Hwj). cbn zeta in Hext. apply extended_add_log in Hext.
    destruct Hext as [Hg2 Hk2 _ Hd2 Hp2]. cbn [Z.eqb] in Hg2, Hk2.
    split; [|split; [|split]].
    + unfold rootfs_operations. rewrite Hg2, skipn_length_app. apply map_op_vertices_of.
    + exact Hp2.
    + exact Hd2.
    + now rewrite Hk2, app_nil_r.
Qed.

Lemma failed_worker_stops_run_at_its_chunk_witness :
  let ws := workers Scenario.sys_cannot_compress Scenario.config 0
              (in_fd_of Scenario.sys_cannot_compress Scenario.config 0) 0 3 in
  exists o',
    Run Scenario.sys_cannot_compress 6 Scenario.config Scenario.empty = Returned false o' /\
    rootfs_operations Scenario.empty o' = operations_of Scenario.config 0 ws /\
    payload o' = written_before Scenario.sys_cannot_compress Scenario.config 0 [] 3 /\
    data_file_size o' = 0 + total_length ws /\
    kernel_ops o' = [].
Proof.
  apply (failed_worker_stops_run_at_its_chunk Scenario.sys_cannot_compress 6
           Scenario.config Scenario.empty 3).
  - unfold run_fits, off_t_max. cbn. lia.
  - cbn. lia.
  - cbn. lia.
  - vm_compute. lia.
  - vm_compute. lia.
  - reflexivity.
  - vm_compute. discriminate.
  - vm_compute. lia.
  - vm_compute. reflexivity.
  - vm_compute. reflexivity.
  - vm_compute. reflexivity.
Defined.

(** X18.  A write that fails (lines 175-177), seen from [Run].  When the
    write of chunk [j] of the root filesystem is the first thing to fail,
    threads being granted as far as the queue reaches ahead of it, [Run]
    returns false with the operations of the [j] chunks before it
    followed by one more record, that of chunk [j], which has its type
    and data offset but no data length and no extent.  The payload holds
    the data of the [j] chunks and then the bytes the failed write let
    through, which [data_file_size] does not count; the kernel is not
    looked at. *)
Theorem failed_write_stops_run_at_its_chunk (sys : Sys) (fuel : nat)
    (config : PayloadGenerationConfig) (o : Outputs) (j k : nat) :
  run_fits config o ->
  0 < block_size config ->
  sysconf_nprocessors_onln sys < 2 ^ 63 ->
  (chunk_count (rootfs_size (target config)) (chunk_size config) <= fuel)%nat ->
  (chunk_count (kernel_size (target config)) (chunk_size config) <= fuel)%nat ->
  Validate sys config = true ->
  0 <= in_fd_of sys config 0 ->
  (j < chunk_count (rootfs_size (target config)) (chunk_size config))%nat ->
  let w := snd (worker sys config 0 (in_fd_of sys config 0) j) in
  let ws := workers sys config 0 (in_fd_of sys config 0) 0 j in
  fst (worker sys config 0 (in_fd_of sys config 0) j) = true ->
  write_fault sys (written_before sys config 0 (payload o) j) (use_buf w) = Some k ->
  forallb (chunk_succeeds sys config 0 (payload o)) (seq 0 j) = true ->
  forallb (thread_granted sys config 0)
    (seq 0 (Nat.min (j + Z.to_nat (max_threads sys))
              (chunk_count (rootfs_size (target config)) (chunk_size config)))) = true ->
  exists o',
    Run sys fuel config o = Returned false o' /\
    rootfs_operations o o'
    = operations_of config (data_file_size o) ws ++
      [pending_operation w (data_file_size o + total_length ws)] /\
    payload o' = written_before sys config 0 (payload o) j ++ firstn k (use_buf w) /\
    data_file_size o' = data_file_size o + total_length ws /\
    kernel_ops o' = kernel_ops o.
Proof.
  intros Hfits Hblock Hsys Hfuel0 Hfuel1 Hval Hfd Hj w ws Hwj Hfault Hbefore Hthreads.
  destruct (Run_returns sys fuel config o Hfits Hsys Hfuel0 Hfuel1) as (ok & o' & Hrun).
  destruct (Run_two_passes _ _ _ _ _ _ Hrun Hfits Hval) as (ok0 & mid & Hp0 & Hrest).
  destruct (run_fits_sizes _ _ Hfits) as (Hfit0 & Hfit1).
  pose proof Hfits as (Hc & H0 & H1 & Hd & Hmax & Hg).
  assert (Hroom : 0 < max_threads sys).
  { pose proof (max_threads_ge_4 sys ltac:(lia)). lia. }
  rewrite forallb_forall in Hbefore, Hthreads.
  assert (Hnot : chunk_succeeds sys config 0 (payload o) j = false).
  { unfold chunk_succeeds. fold w. rewrite Hfault. now rewrite andb_false_r. }
  destruct (run_partition_verdict _ _ _ _ _ _ _ Hp0 Hfit0 Hroom)
    as (n' & Hdone & Hlook & Hn & Hres);
    cbn [data_file_size graph add_log part_sizes Z.eqb]; unfold off_t_max in *; try lia.
  cbn [part_sizes Z.eqb payload add_log data_file_size] in Hdone, Hlook, Hn, Hres.
  assert (Hle : (n' <= j)%nat).
  { destruct (Nat.le_gt_cases n' j) as [Hle|Hgt]; [assumption|].
    rewrite (Hdone j Hgt) in Hnot. discriminate. }
  destruct Hres as [(-> & _ & Hfull) | [(_ & Hneg & _) |
                     [(-> & _ & _ & j' & Hj' & Hjm & Hj'P & Hgj' & _) |
                      (-> & _ & HnP & _ & Hfail & _ & Hext)]]].
  - exfalso. apply (chunk_count_spec _ _ j Hc H0) in Hj. nia.
  - lia.
  - exfalso. rewrite Hthreads in Hgj'; [discriminate|]. apply in_seq.
    apply (chunk_count_spec _ _ j' Hc H0) in Hj'P. lia.
  - assert (n' = j) as ->.
    { destruct (Nat.eq_dec n' j) as [Heq|Hne]; [assumption|exfalso].
      rewrite Hbefore in Hfail; [discriminate|apply in_seq; lia]. }
    destruct Hrest as (-> & ->). exists mid. split; [exact Hrun|].
    destruct (Hext Hwj) as (k' & Hk' & Hext'). cbn zeta in Hk', Hext'.
    fold w in Hk', Hext'. rewrite Hfault in Hk'. injection Hk' as <-.
    apply extended_add_log in Hext'.
    destruct Hext' as [Hg2 Hk2 _ Hd2 Hp2]. cbn [Z.eqb] in Hg2, Hk2.
    split; [|split; [|split]].
    + unfold rootfs_operations. rewrite Hg2, skipn_length_app. apply map_op_vertices_of.
    + rewrite Hp2. unfold written_before. now rewrite <- app_assoc.
    + exact Hd2.
    + now rewrite Hk2, app_nil_r.
Qed.

Lemma failed_write_stops_run_at_its_chunk_witness :
  let w := snd (worker Scenario.sys_disk_full Scenario.config 0
                  (in_fd_of Scenario.sys_disk_full Scenario.config 0) 3) in
  let ws := workers Scenario.sys_disk_full Scenario.config 0
              (in_fd_of Scenario.sys_disk_full Scenario.config 0) 0 3 in
  exists o',
    Run Scenario.sys_disk_full 6 Scenario.config Scenario.empty = Returned false o' /\
    rootfs_operations Scenario.empty o'
    = operations_of Scenario.config 0 ws ++ [pending_operation w (0 + total_length ws)] /\
    payload o'
    = written_before Scenario.sys_disk_full Scenario.config 0 [] 3 ++ firstn 0 (use_buf w) /\
    data_file_size o' = 0 + total_length ws /\
    kernel_ops o' = [].
Proof.
  apply (failed_write_stops_run_at_its_chunk Scenario.sys_disk_full 6
           Scenario.config Scenario.empty 3 0).
  - unfold run_fits, off_t_max. cbn. lia.
  - cbn. lia.
  - cbn. lia.
  - vm_compute. lia.
  - vm_compute. lia.
  - reflexivity.
  - vm_compute. discriminate.
  - vm_compute. lia.
  - vm_compute. reflexivity.
  - vm_compute. reflexivity.
  - vm_compute. reflexivity.
  - vm_compute. reflexivity.
Defined.
